(** * pupyl duplex/file_io.py: protocol inference, type inference, scanners,
      the scan dispatcher and the progress relay.

    A shallow embedding of [FileIO] (src/duplex/file_io.py).  Python [str]
    is modelled as [string] (a sequence of 8-bit characters, read as the
    UTF-8 encoding of the text), [bytes] as [list byte].  Filesystem and
    network accesses are recorded as events; a generator function is a
    finite script of events and yields which a consumer pulls one item at a
    time.

    The world (the filesystem tree, the working directory, what the
    network answers) does not change while the program runs; paths are
    POSIX paths.  The Python standard library and the two modules of the
    repository that are not at hand ([duplex.file_types],
    [addendum.operators]) enter as the fields of [Library]. *)

From Stdlib Require Import List Strings.String Strings.Ascii Strings.Byte.
From Stdlib Require Import Bool Arith ZArith Lia.
From Stdlib Require Import QArith Qround.
From Stdlib Require Import DecimalString.
Import ListNotations.

Local Close Scope Q_scope.
Local Open Scope string_scope.
Local Open Scope list_scope.

(** ** Python built-ins on [str] *)

Module PyStr.

(** [s.startswith(p)] *)
Definition startswith (s p : string) : bool := String.prefix p s.

(** [c in s] *)
Fixpoint contains (c : ascii) (s : string) : bool :=
  match s with
  | EmptyString => false
  | String d s' => Ascii.eqb c d || contains c s'
  end.

(** [s.find(c)] for a single character, [None] for -1. *)
Fixpoint find (c : ascii) (s : string) : option nat :=
  match s with
  | EmptyString => None
  | String d s' =>
      if Ascii.eqb c d then Some 0
      else option_map S (find c s')
  end.

(** [s[:n]] and [s[n:]] *)
Fixpoint take (n : nat) (s : string) : string :=
  match n, s with
  | S n', String c s' => String c (take n' s')
  | _, _ => EmptyString
  end.

Fixpoint drop (n : nat) (s : string) : string :=
  match n, s with
  | S n', String _ s' => drop n' s'
  | _, _ => s
  end.

(** [all(p(c) for c in s)] *)
Fixpoint all (p : ascii -> bool) (s : string) : bool :=
  match s with
  | EmptyString => true
  | String c s' => p c && all p s'
  end.

Fixpoint map (f : ascii -> ascii) (s : string) : string :=
  match s with
  | EmptyString => EmptyString
  | String c s' => String (f c) (map f s')
  end.

(** [s.split(sep)] for a single-character separator: always at least one
    field. *)
Fixpoint split (sep : ascii) (s : string) : list string :=
  match s with
  | EmptyString => [EmptyString]
  | String c s' =>
      if Ascii.eqb c sep then EmptyString :: split sep s'
      else match split sep s' with
           | f :: fs => String c f :: fs
           | [] => [String c EmptyString]
           end
  end.

(** [sep.join(l)] *)
Fixpoint join (sep : string) (l : list string) : string :=
  match l with
  | [] => EmptyString
  | [x] => x
  | x :: l' => x ++ sep ++ join sep l'
  end.

(** [s.replace(c, '')] for a single character [c]. *)
Fixpoint remove (c : ascii) (s : string) : string :=
  match s with
  | EmptyString => EmptyString
  | String d s' =>
      if Ascii.eqb d c then remove c s' else String d (remove c s')
  end.

Definition is_upper (c : ascii) : bool :=
  let n := nat_of_ascii c in (65 <=? n)%nat && (n <=? 90)%nat.
Definition is_lower (c : ascii) : bool :=
  let n := nat_of_ascii c in (97 <=? n)%nat && (n <=? 122)%nat.
Definition is_digit (c : ascii) : bool :=
  let n := nat_of_ascii c in (48 <=? n)%nat && (n <=? 57)%nat.

Definition lower_char (c : ascii) : ascii :=
  if is_upper c then ascii_of_nat (nat_of_ascii c + 32) else c.
Definition upper_char (c : ascii) : ascii :=
  if is_lower c then ascii_of_nat (nat_of_ascii c - 32) else c.

(** [s.lower()] and [s.upper()] on the ASCII letters (scheme names and
    media types are ASCII). *)
Definition lower : string -> string := map lower_char.
Definition upper : string -> string := map upper_char.

Definition nonempty (s : string) : bool :=
  match s with EmptyString => false | _ => true end.

Definition ends_with_slash (s : string) : bool :=
  match List.rev (list_ascii_of_string s) with
  | c :: _ => Ascii.eqb c "/"
  | [] => false
  end.

(** The line feed, Python's ['\n']. *)
Definition LF : ascii := "010"%char.

End PyStr.

(** ** Exceptions *)

Inductive exn : Type :=
| FileTypeNotSupportedYet       (* duplex.exceptions *)
| FileScanNotPossible           (* duplex.exceptions *)
| IsADirectoryError
| FileNotFoundError
| NotADirectoryError
| ValueError
| IndexError
| UnicodeDecodeError
| LibraryError (name : string). (* URLError, BadGzipFile, csv.Error, ... *)

Definition is_IsADirectoryError (e : exn) : bool :=
  match e with IsADirectoryError => true | _ => false end.

Inductive Protocols : Type := UNKNOWN | HTTP | FILE.

(** ** The local filesystem

    A tree of regular files and directories (no symbolic links, no
    permission bits), addressed by POSIX path strings. *)

#[warnings="-register-all"]
Inductive node : Type :=
| File (content : list byte)
| Dir (entries : list (string * node)).

(** Induction on a filesystem tree, with the hypothesis for every entry
    of a directory. *)
Fixpoint node_rect' (P : node -> Prop)
         (HF : forall b, P (File b))
         (HD : forall es, Forall (fun e => P (snd e)) es -> P (Dir es))
         (n : node) : P n :=
  match n with
  | File b => HF b
  | Dir es =>
      HD es ((fix entries (l : list (string * node))
              : Forall (fun e => P (snd e)) l :=
                match l with
                | [] => Forall_nil _
                | e :: l' =>
                    Forall_cons e (node_rect' P HF HD (snd e)) (entries l')
                end) es)
  end.

Module Posix.

Fixpoint lookup (name : string) (es : list (string * node)) : option node :=
  match es with
  | [] => None
  | (n, x) :: es' => if String.eqb n name then Some x else lookup name es'
  end.

(** The node reached from [n] along the names [p]. *)
Fixpoint node_at (n : node) (p : list string) : option node :=
  match p with
  | [] => Some n
  | c :: p' =>
      match n with
      | Dir es =>
          match lookup c es with
          | Some x => node_at x p'
          | None => None
          end
      | File _ => None
      end
  end.

(** Component-wise path lookup: every component, also an empty one, [.]
    and [..], is looked up in a directory. [at_] is the position reached
    so far, as names from the root. *)
Fixpoint walk_components (root : node) (at_ : list string)
         (comps : list string) : exn + list string :=
  match comps with
  | [] => inr at_
  | c :: cs =>
      match node_at root at_ with
      | Some (Dir _) =>
          if (String.eqb c "" || String.eqb c ".")%bool
          then walk_components root at_ cs
          else if String.eqb c ".."
          then walk_components root (List.removelast at_) cs
          else match node_at root (at_ ++ [c]) with
               | Some _ => walk_components root (at_ ++ [c]) cs
               | None => inl FileNotFoundError
               end
      | Some (File _) => inl NotADirectoryError
      | None => inl FileNotFoundError
      end
  end.

Definition isabs (path : string) : bool := PyStr.startswith path "/".

(** [os.stat(path)]: the node the path names, or the error. The empty
    path names nothing. *)
Definition stat (root : node) (cwd : list string) (path : string)
  : exn + node :=
  if String.eqb path "" then inl FileNotFoundError
  else
    match walk_components root (if isabs path then [] else cwd)
                          (PyStr.split "/" path) with
    | inl e => inl e
    | inr p =>
        match node_at root p with
        | Some n => inr n
        | None => inl FileNotFoundError
        end
    end.

(** [os.path.join(a, b)] for a relative [b]. *)
Definition join (a b : string) : string :=
  if String.eqb a "" then b
  else if PyStr.ends_with_slash a then a ++ b
  else a ++ "/" ++ b.

(** The loop of [posixpath.normpath] over the components. *)
Fixpoint norm_comps (initial_slashes : nat) (new_comps : list string)
         (comps : list string) : list string :=
  match comps with
  | [] => new_comps
  | comp :: cs =>
      if (String.eqb comp "" || String.eqb comp ".")%bool
      then norm_comps initial_slashes new_comps cs
      else if (negb (String.eqb comp "..")
               || (Nat.eqb initial_slashes 0
                   && match new_comps with [] => true | _ => false end)
               || match List.rev new_comps with
                  | l :: _ => String.eqb l ".."
                  | [] => false
                  end)%bool
      then norm_comps initial_slashes (new_comps ++ [comp]) cs
      else norm_comps initial_slashes (List.removelast new_comps) cs
  end.

Definition initial_slashes (path : string) : nat :=
  if PyStr.startswith path "/" then
    if (PyStr.startswith path "//" && negb (PyStr.startswith path "///"))%bool
    then 2 else 1
  else 0.

(** [posixpath.normpath] *)
Definition normpath (path : string) : string :=
  if String.eqb path "" then "."
  else
    let i := initial_slashes path in
    let comps := norm_comps i [] (PyStr.split "/" path) in
    let p : string := PyStr.join "/" comps in
    let p : string := match i with
                       | 0 => p
                       | 1 => ("/" ++ p)%string
                       | _ => ("//" ++ p)%string
                       end in
    if String.eqb p "" then "." else p.

(** [os.getcwd()] *)
Definition getcwd (cwd : list string) : string :=
  "/" ++ PyStr.join "/" cwd.

(** [posixpath.abspath] *)
Definition abspath (cwd : list string) (path : string) : string :=
  normpath (if isabs path then path else join (getcwd cwd) path).

(** One [(top, dirs, files)] triple of [os.walk]. *)
Definition walk_entry : Type := string * list string * list string.

Definition is_dir (n : node) : bool :=
  match n with Dir _ => true | File _ => false end.

Definition names_where (p : node -> bool) (es : list (string * node))
  : list string :=
  List.map fst (List.filter (fun e => p (snd e)) es).

(** [os.walk(top)], top-down, for the directory [n] found at [top]. *)
Fixpoint walk_node (top : string) (n : node) : list walk_entry :=
  match n with
  | File _ => []
  | Dir es =>
      (top, names_where is_dir es, names_where (fun x => negb (is_dir x)) es)
        :: (fix subdirs (l : list (string * node)) : list walk_entry :=
              match l with
              | [] => []
              | (name, sub) :: l' =>
                  walk_node (join top name) sub ++ subdirs l'
              end) es
  end.

(** Number of regular files below a node. *)
Fixpoint count_files (n : node) : nat :=
  match n with
  | File _ => 1
  | Dir es =>
      (fix sum (l : list (string * node)) : nat :=
         match l with
         | [] => 0
         | (_, sub) :: l' => count_files sub + sum l'
         end) es
  end.

End Posix.

(** ** urllib.parse

    The scheme component of [urlparse(url)] as [urlsplit] computes it: the
    text before the first [:] when it is non-empty and made of scheme
    characters, lower-cased; and the [ValueError] it raises when the network
    location has an unmatched square bracket.  (The NFKC check of non-ASCII
    hosts is outside this model.) *)

Module Urllib.

Definition scheme_char (c : ascii) : bool :=
  (PyStr.is_lower c || PyStr.is_upper c || PyStr.is_digit c
   || Ascii.eqb c "+" || Ascii.eqb c "-" || Ascii.eqb c ".")%bool.

(** [(scheme, rest)] after the scheme has been split off. *)
Definition split_scheme (url : string) : string * string :=
  match PyStr.find ":" url with
  | Some (S i) =>
      if PyStr.all scheme_char (PyStr.take (S i) url)
      then (PyStr.lower (PyStr.take (S i) url), PyStr.drop (S (S i)) url)
      else ("", url)
  | _ => ("", url)
  end.

Fixpoint until_delim (s : string) : string :=
  match s with
  | EmptyString => EmptyString
  | String c s' =>
      if (Ascii.eqb c "/" || Ascii.eqb c "?" || Ascii.eqb c "#")%bool
      then EmptyString
      else String c (until_delim s')
  end.

(** [_splitnetloc(url, 2)[0]] when [url[:2] == '//'], else [''] *)
Definition netloc (rest : string) : string :=
  if PyStr.startswith rest "//" then until_delim (PyStr.drop 2 rest)
  else "".

Definition unmatched_bracket (nl : string) : bool :=
  ((PyStr.contains "[" nl && negb (PyStr.contains "]" nl))
   || (PyStr.contains "]" nl && negb (PyStr.contains "[" nl)))%bool.

(** [urlparse(url).scheme] *)
Definition urlparse_scheme (url : string) : exn + string :=
  let '(scheme, rest) := split_scheme url in
  if unmatched_bracket (netloc rest) then inl ValueError
  else inr scheme.

End Urllib.

(** ** Effects *)

(** One line written by [progress]. *)
Inductive progress_line : Type :=
| Banner                                        (* 'Processing, please wait.' *)
| Bar (columns_to_draw : Z) (percent : Z)       (* squares and [f'{..}%'] *)
| Clock (glyph : nat) (processed : nat).        (* clock face and counter *)

Inductive event : Type :=
| EvExists (path : string)      (* os.path.exists(path) *)
| EvOpen (path : string)        (* a local file opened for reading *)
| EvScandir (path : string)     (* a directory listed by os.walk *)
| EvUrlopen (url : string)      (* urlopen(url): an HTTP GET *)
| EvPrint (line : progress_line).

(** A function that runs to completion when called: the accesses it makes,
    then the exception it raises or the value it returns. *)
Definition M (A : Type) : Type := list event * (exn + A).

Definition ret {A} (a : A) : M A := ([], inr a).
Definition raise {A} (e : exn) : M A := ([], inl e).
Definition bind {A B} (m : M A) (f : A -> M B) : M B :=
  match m with
  | (evs, inl e) => (evs, inl e)
  | (evs, inr a) => let '(evs', r) := f a in (evs ++ evs', r)
  end.
Definition lift {A} (r : exn + A) : M A := ([], r).
Definition tell (ev : event) : M unit := ([ev], inr tt).

Notation "x <- m ;; k" := (bind m (fun x => k))
  (at level 61, m at next level, right associativity).
Notation "m ;;; k" := (bind m (fun _ => k))
  (at level 61, right associativity).

(** A generator function's body: accesses ([Do]), yields, and how it ends.
    Calling the generator function yields this suspended body and runs
    nothing of it. *)
Inductive gen (A : Type) : Type :=
| Stop                                   (* the body returns *)
| Raise (e : exn)
| Yield (a : A) (k : gen A)
| Do (ev : event) (k : gen A).

Arguments Stop {A}.
Arguments Raise {A} e.
Arguments Yield {A} a k.
Arguments Do {A} ev k.

Module Gen.
Section Gen.
Context {A : Type}.

Definition emit (evs : list event) (k : gen A) : gen A :=
  fold_right Do k evs.

(** Run an eager call inside a generator body. *)
Definition perform {B} (m : M B) (k : B -> gen A) : gen A :=
  emit (fst m) (match snd m with inl e => Raise e | inr b => k b end).

(** [for x in l: body], then [after]; [body] gets the rest of the loop. *)
Fixpoint for_each {X} (l : list X) (body : X -> gen A -> gen A)
         (after : gen A) : gen A :=
  match l with
  | [] => after
  | x :: l' => body x (for_each l' body after)
  end.

(** How an iteration ends. *)
Definition ending (e : option exn) : gen A :=
  match e with None => Stop | Some x => Raise x end.

(** [try: g except E: h], for the exceptions [E] that [handles] accepts. *)
Fixpoint try_except (handles : exn -> bool) (g h : gen A) : gen A :=
  match g with
  | Stop => Stop
  | Raise e => if handles e then h else Raise e
  | Yield a k => Yield a (try_except handles k h)
  | Do ev k => Do ev (try_except handles k h)
  end.


(** What a consumer that pulls until the end observes. *)
Fixpoint items (g : gen A) : list A :=
  match g with
  | Yield a k => a :: items k
  | Do _ k => items k
  | _ => []
  end.

Fixpoint events (g : gen A) : list event :=
  match g with
  | Yield _ k => events k
  | Do ev k => ev :: events k
  | _ => []
  end.

Fixpoint outcome (g : gen A) : option exn :=
  match g with
  | Stop => None
  | Raise e => Some e
  | Yield _ k => outcome k
  | Do _ k => outcome k
  end.

(** One [next(g)]: the accesses made, and the item with the suspended
    rest, or [StopIteration], or the exception. A generator that has
    raised or returned is finished. *)
Inductive pulled : Type :=
| Item (a : A) (rest : gen A)
| StopIteration
| Raised (e : exn).

Fixpoint next (g : gen A) : list event * pulled :=
  match g with
  | Stop => ([], StopIteration)
  | Raise e => ([], Raised e)
  | Yield a k => ([], Item a k)
  | Do ev k => let '(evs, r) := next k in (ev :: evs, r)
  end.

(** The generator object after a pull. *)
Definition after_pull (g : gen A) : gen A :=
  match snd (next g) with
  | Item _ rest => rest
  | _ => Stop
  end.

Fixpoint after_pulls (n : nat) (g : gen A) : gen A :=
  match n with
  | 0 => g
  | S n' => after_pulls n' (after_pull g)
  end.

(** The [n]-th pull (from 0) on a fresh generator. *)
Definition nth_pull (n : nat) (g : gen A) : pulled :=
  snd (next (after_pulls n g)).

End Gen.
End Gen.

(** ** The world outside the program *)

Record World : Type := {
  fs_root : node;                                 (* the directory [/] *)
  fs_cwd : list string;                           (* os.getcwd() *)
  urlopen_read : string -> exn + list byte;       (* urlopen(url).read() *)
  terminal_columns : option nat                   (* None: OSError *)
}.

Inductive codec : Type := Gzip | Bzip2 | Lzma.

(** ** Collaborators

    [guess_file_type] is [duplex.file_types.FileType.guess_file_type] and
    [intmul] is [addendum.operators.intmul]: both belong to the repository
    but their files are not part of the sources at hand, so they are taken
    as parameters.  The others are the Python standard library.  A stream
    of lines is the list of lines an iteration delivers and the exception
    that ends it, if any. *)

Record Library : Type := {
  (* FileType.guess_file_type(bytes, mimetype); None: raises
     FileTypeNotSupportedYet *)
  guess_file_type : list byte -> bool -> option string;
  (* mimetypes.guess_type(uri)[0] *)
  mimetypes_guess_type : string -> option string;
  (* bytes.decode('utf-8'); None: UnicodeDecodeError *)
  decode_utf8 : list byte -> option string;
  (* str.splitlines() *)
  splitlines : string -> list string;
  (* iterating csv.reader(lines) *)
  csv_reader : list string -> list (list string) * option exn;
  (* iterating the text stream of gzip.open / bz2.open / lzma.open in 'rt'
     mode over a file with these bytes *)
  text_lines : codec -> list byte -> list string * option exn;
  (* zipfile.ZipFile(..).namelist() *)
  zip_namelist : list byte -> exn + list string;
  (* iterating zipfile.ZipFile(..).open(name) *)
  zip_member_lines : list byte -> string -> list (list byte) * option exn;
  (* Python floats: int / int, and the repository's intmul operator *)
  float : Type;
  truediv : nat -> nat -> float;
  intmul : float -> Z -> Z
}.

(** [get] returns bytes or the [Protocols.UNKNOWN] member. *)
Inductive fetched : Type :=
| Bytes (b : list byte)
| Unknown.

(** What [scan] yields: a CSV row, or a string (a text line or a path). *)
Inductive item : Type :=
| Row (fields : list string)
| Text (s : string).

(** ** class FileIO *)

Module FileIO.
Section FileIO.

Variable L : Library.
Variable w : World.

(** [open(path, 'rb')] and reading it whole; also what the compressed
    readers do first with the path they are given. *)
Definition open_rb (path : string) : M (list byte) :=
  tell (EvOpen path) ;;;
  match Posix.stat (fs_root w) (fs_cwd w) path with
  | inr (File b) => ret b
  | inr (Dir _) => raise IsADirectoryError
  | inl e => raise e
  end.

Definition os_path_exists (path : string) : M bool :=
  tell (EvExists path) ;;;
  match Posix.stat (fs_root w) (fs_cwd w) path with
  | inr _ => ret true
  | inl _ => ret false
  end.

Definition _get_url (url : string) : M (list byte) :=
  tell (EvUrlopen url) ;;; lift (urlopen_read w url).

Definition _get_local (path : string) : M (list byte) :=
  open_rb path.

Definition _infer_protocol (uri : string) : M Protocols :=
  scheme <- lift (Urllib.urlparse_scheme uri) ;;
  if PyStr.startswith scheme "http" then ret HTTP
  else if PyStr.startswith uri "file" then ret FILE
  else
    found <- os_path_exists uri ;;
    if found then ret FILE else ret UNKNOWN.

Definition get (uri : string) : M fetched :=
  p <- _infer_protocol uri ;;
  match p with
  | FILE => b <- _get_local uri ;; ret (Bytes b)
  | _ =>
      p' <- _infer_protocol uri ;;
      match p' with
      | HTTP => b <- _get_url uri ;; ret (Bytes b)
      | _ => ret Unknown
      end
  end.

(** The [except FileTypeNotSupportedYet] branch of
    [infer_file_type_from_uri]. *)
Definition infer_from_name (uri : string) (mimetype : bool) : M string :=
  match mimetypes_guess_type L uri with
  | Some file_type =>
      if PyStr.nonempty file_type then
        if mimetype then ret file_type
        else match nth_error (PyStr.split "/" file_type) 1 with
             | Some sub => ret (PyStr.upper sub)
             | None => raise IndexError
             end
      else raise FileTypeNotSupportedYet
  | None => raise FileTypeNotSupportedYet
  end.

Definition infer_file_type_from_uri (uri : string) (mimetype : bool)
  : M string :=
  file_bytes <- get uri ;;
  match file_bytes with
  | Unknown => infer_from_name uri mimetype
  | Bytes b =>
      match guess_file_type L b mimetype with
      | Some t => ret t
      | None => infer_from_name uri mimetype
      end
  end.

Definition scan_csv (uri : string) : gen item :=
  Gen.perform (get uri) (fun csv_string =>
    match csv_string with
    | Unknown => Raise FileTypeNotSupportedYet
    | Bytes b =>
        match decode_utf8 L b with
        | None => Raise UnicodeDecodeError
        | Some s =>
            let reader := csv_reader L (splitlines L s) in
            Gen.for_each (fst reader) (fun row k => Yield (Row row) k)
                         (Gen.ending (snd reader))
        end
    end).

(** [row.replace('\n', '')] *)
Definition strip_newlines (row : string) : string :=
  PyStr.remove PyStr.LF row.

(** The common shape of [scan_csv_gzip], [scan_csv_bzip2] and
    [scan_csv_xz]: open the path, yield each line of the text stream. *)
Definition scan_text_stream (c : codec) (uri : string) : gen item :=
  Gen.perform (open_rb uri) (fun b =>
    let stream := text_lines L c b in
    Gen.for_each (fst stream)
                 (fun row k => Yield (Text (strip_newlines row)) k)
                 (Gen.ending (snd stream))).

Definition scan_csv_gzip (uri : string) : gen item :=
  scan_text_stream Gzip uri.

Definition scan_csv_bzip2 (uri : string) : gen item :=
  scan_text_stream Bzip2 uri.

Definition scan_csv_xz (uri : string) : gen item :=
  scan_text_stream Lzma uri.

(** The inner loop of [scan_csv_zip] over the lines of one member. *)
Definition zip_rows (rows : list (list byte)) (after : gen item)
  : gen item :=
  Gen.for_each rows
    (fun row k =>
       match decode_utf8 L row with
       | Some s => Yield (Text (strip_newlines s)) k
       | None => Raise UnicodeDecodeError
       end)
    after.

Definition scan_csv_zip (uri : string) : gen item :=
  Gen.perform (open_rb uri) (fun b =>
    match zip_namelist L b with
    | inl e => Raise e
    | inr names =>
        Gen.for_each names
          (fun ffile k =>
             Gen.perform (open_rb uri) (fun b' =>
               let ufile := zip_member_lines L b' ffile in
               zip_rows (fst ufile)
                        (match snd ufile with
                         | None => k
                         | Some e => Raise e
                         end)))
          Stop
    end).

(** [os.walk(uri)]: nothing when [uri] is not a directory. *)
Definition os_walk (uri : string) : list Posix.walk_entry :=
  match Posix.stat (fs_root w) (fs_cwd w) uri with
  | inr (Dir es) => Posix.walk_node uri (Dir es)
  | _ => []
  end.

(** The [except IsADirectoryError] branch of [scan]. *)
Definition scan_directory (uri : string) : gen item :=
  match os_walk uri with
  | [] => Do (EvScandir uri) Stop
  | entries =>
      Gen.for_each entries
        (fun '(root, _, files) k =>
           Do (EvScandir root)
              (Gen.for_each files
                 (fun ffile k' =>
                    Yield (Text (Posix.abspath (fs_cwd w)
                                   (root ++ "/" ++ ffile))) k')
                 k))
        Stop
  end.

(** The [if]/[elif] chain of [scan] on the inferred type. *)
Definition scan_dispatch (uri inferred_type : string) : gen item :=
  if (String.eqb inferred_type "CSV" || String.eqb inferred_type "PLAIN")%bool
  then scan_csv uri
  else if String.eqb inferred_type "GZP" then scan_csv_gzip uri
  else if String.eqb inferred_type "ZIP" then scan_csv_zip uri
  else if String.eqb inferred_type "BZ2" then scan_csv_bzip2 uri
  else if String.eqb inferred_type "LXZ" then scan_csv_xz uri
  else Raise FileScanNotPossible.

Definition scan (uri : string) : gen item :=
  Gen.try_except is_IsADirectoryError
    (Gen.perform (infer_file_type_from_uri uri false)
                 (scan_dispatch uri))
    (scan_directory uri).

(** *** progress *)

(** An iterable with [len] (list, tuple) or without (a generator). *)
Inductive iterable (A : Type) : Type :=
| Sized (l : list A)
| Lazy (g : gen A).
Arguments Sized {A} l.
Arguments Lazy {A} g.

Definition terminal_half_columns : Z :=
  match terminal_columns w with
  | Some columns => Z.of_nat (columns / 4)
  | None => 64
  end.

(** The [for index, value in enumerate(iterable)] loop of the precise
    branch, from [index] on. *)
Fixpoint precise_loop {A} (count index : nat) (l : list A) : gen A :=
  match l with
  | [] => Stop
  | value :: l' =>
      let percentage := truediv L (index + 1) count in
      let columns_to_draw := intmul L percentage terminal_half_columns in
      Do (EvPrint (Bar columns_to_draw (intmul L percentage 100)))
         (Yield value (precise_loop count (S index) l'))
  end.

(** The loop over [zip(iterable, cycle(clocks))] of the other branch:
    twelve clock faces. *)
Fixpoint clock_loop {A} (index : nat) (g : gen A) : gen A :=
  match g with
  | Stop => Stop
  | Raise e => Raise e
  | Do ev k => Do ev (clock_loop index k)
  | Yield value k =>
      Do (EvPrint (Clock (index mod 12) (index + 1)))
         (Yield value (clock_loop (S index) k))
  end.

Definition iter {A} (it : iterable A) : gen A :=
  match it with
  | Sized l => Gen.for_each l (fun a k => Yield a k) Stop
  | Lazy g => g
  end.

Definition progress {A} (it : iterable A) (precise : bool) : gen A :=
  if precise then
    match it with
    | Sized l =>
        Do (EvPrint Banner) (precise_loop (List.length l) 0 l)
    | Lazy g =>
        (* [*iterable]: the generator is run to its end first *)
        Gen.emit (Gen.events g)
          (match Gen.outcome g with
           | Some e => Raise e
           | None =>
               Do (EvPrint Banner)
                  (precise_loop (List.length (Gen.items g)) 0 (Gen.items g))
           end)
    end
  else clock_loop 0 (iter it).

End FileIO.

Arguments Sized {A} l.
Arguments Lazy {A} g.

End FileIO.

(** ** Vocabulary of the properties *)

(** The five scanners and the type tags each one is declared for, with the
    tags spelled as [scan] compares them. *)
Inductive scanner : Type :=
| CsvScanner | GzipScanner | ZipScanner | Bzip2Scanner | XzScanner.

Definition declared_tags (s : scanner) : list string :=
  match s with
  | CsvScanner => ["CSV"; "PLAIN"]
  | GzipScanner => ["GZP"]
  | ZipScanner => ["ZIP"]
  | Bzip2Scanner => ["BZ2"]
  | XzScanner => ["LXZ"]
  end.

Definition run_scanner (L : Library) (w : World) (s : scanner)
  : string -> gen item :=
  match s with
  | CsvScanner => FileIO.scan_csv L w
  | GzipScanner => FileIO.scan_csv_gzip L w
  | ZipScanner => FileIO.scan_csv_zip L w
  | Bzip2Scanner => FileIO.scan_csv_bzip2 L w
  | XzScanner => FileIO.scan_csv_xz L w
  end.

Definition supported_tags : list string :=
  ["CSV"; "PLAIN"; "GZP"; "ZIP"; "BZ2"; "LXZ"].

(** How [urlparse] reads a location: [None] when it rejects it, else
    whether the scheme is of the HTTP family. *)
Definition http_family (uri : string) : option bool :=
  match Urllib.urlparse_scheme uri with
  | inl _ => None
  | inr scheme => Some (PyStr.startswith scheme "http")
  end.

(** A string that starts with [http://] or [https://] and that [urlparse]
    accepts. *)
Definition valid_http_url (uri : string) : Prop :=
  (PyStr.startswith uri "http://" = true
   \/ PyStr.startswith uri "https://" = true)
  /\ http_family uri <> None.

(** The two ways of reaching content. *)
Inductive strategy : Type := LocalFilesystem | HttpGet.

Definition strategy_of (ev : event) : option strategy :=
  match ev with
  | EvExists _ | EvOpen _ | EvScandir _ => Some LocalFilesystem
  | EvUrlopen _ => Some HttpGet
  | EvPrint _ => None
  end.

Definition uses (s : strategy) (evs : list event) : Prop :=
  exists ev, In ev evs /\ strategy_of ev = Some s.

(** No access in [evs] goes through the strategy [s]. *)
Definition avoids (s : strategy) (evs : list event) : Prop :=
  Forall (fun ev => strategy_of ev <> Some s) evs.

(** The compressed sources. *)
Inductive container : Type :=
| Stream (c : codec)
| ZipArchive.

Definition container_scanner (L : Library) (w : World) (k : container)
  : string -> gen item :=
  match k with
  | Stream Gzip => FileIO.scan_csv_gzip L w
  | Stream Bzip2 => FileIO.scan_csv_bzip2 L w
  | Stream Lzma => FileIO.scan_csv_xz L w
  | ZipArchive => FileIO.scan_csv_zip L w
  end.

Fixpoint decode_all (L : Library) (rows : list (list byte))
  : option (list string) :=
  match rows with
  | [] => Some []
  | row :: rows' =>
      match decode_utf8 L row, decode_all L rows' with
      | Some s, Some l => Some (s :: l)
      | _, _ => None
      end
  end.

Fixpoint members_lines (L : Library) (b : list byte) (names : list string)
  : option (list string) :=
  match names with
  | [] => Some []
  | name :: names' =>
      match zip_member_lines L b name with
      | (rows, None) =>
          match decode_all L rows, members_lines L b names' with
          | Some l, Some l' => Some (l ++ l')
          | _, _ => None
          end
      | (_, Some _) => None
      end
  end.

(** The lines an intact source with bytes [b] contains, as its reader
    delivers them: [None] when reading or decoding it fails. For a zip
    archive, the lines of all members in the order of the listing. *)
Definition contained_lines (L : Library) (k : container) (b : list byte)
  : option (list string) :=
  match k with
  | Stream c =>
      match text_lines L c b with
      | (lines, None) => Some lines
      | (_, Some _) => None
      end
  | ZipArchive =>
      match zip_namelist L b with
      | inr names => members_lines L b names
      | inl _ => None
      end
  end.

(** The item yielded for a line. *)
Definition stripped (line : string) : item :=
  Text (FileIO.strip_newlines line).

(** The loop of [scan_csv_zip] over the names of the listing. *)
Definition zip_loop (L : Library) (w : World) (uri : string)
           (names : list string) : gen item :=
  Gen.for_each names
    (fun ffile k =>
       Gen.perform (FileIO.open_rb w uri) (fun b' =>
         let ufile := zip_member_lines L b' ffile in
         FileIO.zip_rows L (fst ufile)
                         (match snd ufile with
                          | None => k
                          | Some e => Raise e
                          end)))
    Stop.

Definition no_newline (it : item) : Prop :=
  exists s, it = Text s /\ PyStr.contains PyStr.LF s = false.

Definition is_absolute_path (it : item) : Prop :=
  exists p, it = Text p /\ Posix.isabs p = true.

(** The paths [scan] yields for the triples of [os.walk]. *)
Definition walked_paths (cwd : list string) (entries : list Posix.walk_entry)
  : list string :=
  flat_map (fun '(root, _, files) =>
              List.map (fun ffile => Posix.abspath cwd (root ++ "/" ++ ffile))
                       files)
           entries.

(** Well-formed filesystems: the name of an entry is not empty, holds no
    slash and is neither [.] nor [..]; a directory lists a name once; the
    root is a directory and the working directory exists. *)
Definition proper_name (s : string) : bool :=
  (PyStr.nonempty s && negb (PyStr.contains "/" s)
   && negb (String.eqb s ".") && negb (String.eqb s ".."))%bool.

Fixpoint distinct (l : list string) : bool :=
  match l with
  | [] => true
  | x :: l' => (negb (existsb (String.eqb x) l') && distinct l')%bool
  end.

Fixpoint wf_node (n : node) : bool :=
  match n with
  | File _ => true
  | Dir es =>
      (forallb proper_name (List.map fst es)
       && distinct (List.map fst es)
       && (fix children (l : list (string * node)) : bool :=
             match l with
             | [] => true
             | (_, sub) :: l' => wf_node sub && children l'
             end) es)%bool
  end.

Definition wf_world (w : World) : bool :=
  (wf_node (fs_root w)
   && forallb proper_name (fs_cwd w)
   && match Posix.node_at (fs_root w) (fs_cwd w) with
      | Some (Dir _) => true
      | _ => false
      end)%bool.

(** The path [p] names a regular file. *)
Definition names_file (w : World) (p : string) : Prop :=
  exists content, Posix.stat (fs_root w) (fs_cwd w) p = inr (File content).

(** The item is a path that names a regular file. *)
Definition is_file_path (w : World) (it : item) : Prop :=
  exists p, it = Text p /\ names_file w p.

(** The percentages [progress] prints. *)
Definition percent_of (ev : event) : list Z :=
  match ev with
  | EvPrint (Bar _ percent) => [percent]
  | _ => []
  end.

Definition percentages {A} (g : gen A) : list Z :=
  flat_map percent_of (Gen.events g).

(** The percentages of a precise run over [total] items: for each index,
    [(index + 1) / total] through [intmul] with 100. *)
Definition percentage_values (L : Library) (total : nat) : list Z :=
  List.map (fun index => intmul L (truediv L (index + 1) total) 100)
           (seq 0 total).

Fixpoint non_decreasing (l : list Z) : Prop :=
  match l with
  | x :: ((y :: _) as l') => (x <= y)%Z /\ non_decreasing l'
  | _ => True
  end.

(** What is assumed of float arithmetic: division of naturals grows with
    the numerator, [intmul] by 100 grows with its float argument, and a
    number divided by itself, times 100, is 100. *)
Record FloatLaws (L : Library) : Type := {
  float_le : float L -> float L -> Prop;
  truediv_mono : forall i j n,
      i <= j -> float_le (truediv L i n) (truediv L j n);
  intmul_mono : forall x y,
      float_le x y -> (intmul L x 100 <= intmul L y 100)%Z;
  intmul_whole : forall n,
      0 < n -> intmul L (truediv L n n) 100 = 100%Z
}.

(** The lines a generator prints. *)
Definition line_of (ev : event) : list progress_line :=
  match ev with
  | EvPrint line => [line]
  | _ => []
  end.

Definition printed {A} (g : gen A) : list progress_line :=
  flat_map line_of (Gen.events g).

(** The lines of the relay with clock faces over [n] items: the twelve
    faces in turn, and the count of items so far. *)
Definition clock_lines (n : nat) : list progress_line :=
  List.map (fun index => Clock (index mod 12) (index + 1)) (seq 0 n).

(** What one pull on the relay with clock faces gives, from what the pull
    on its input gives. *)
Definition relayed {A} (index : nat) (p : list event * Gen.pulled (A := A))
  : list event * Gen.pulled (A := A) :=
  match p with
  | (evs, Gen.Item a rest) =>
      (evs ++ [EvPrint (Clock (index mod 12) (index + 1))],
       Gen.Item a (FileIO.clock_loop (S index) rest))
  | (evs, Gen.StopIteration) => (evs, Gen.StopIteration)
  | (evs, Gen.Raised e) => (evs, Gen.Raised e)
  end.

(** ** A concrete world and concrete collaborators, for evaluation *)

Module Sample.

Definition text (s : string) : list byte := list_byte_of_string s.

Definition endswith (s suffix : string) : bool :=
  String.prefix (string_of_list_ascii (List.rev (list_ascii_of_string suffix)))
                (string_of_list_ascii (List.rev (list_ascii_of_string s))).

Definition is_ascii (b : byte) : bool := (Byte.to_nat b <? 128)%nat.

(** Lines with their terminators, split after each line feed. *)
Fixpoint lines_keepends (cur : list byte) (l : list byte)
  : list (list byte) :=
  match l with
  | [] => match cur with [] => [] | _ => [List.rev cur] end
  | b :: l' =>
      if Byte.eqb b x0a then List.rev (b :: cur) :: lines_keepends [] l'
      else lines_keepends (b :: cur) l'
  end.

(** Fields separated by [sep]. *)
Fixpoint fields (sep : byte) (cur : list byte) (l : list byte)
  : list (list byte) :=
  match l with
  | [] => [List.rev cur]
  | b :: l' =>
      if Byte.eqb b sep then List.rev cur :: fields sep [] l'
      else fields sep (b :: cur) l'
  end.

(** The bytes before the first [xff], and whether one was met. *)
Fixpoint until_ff (l : list byte) : list byte * bool :=
  match l with
  | [] => ([], false)
  | b :: l' =>
      if Byte.eqb b xff then ([], true)
      else let '(p, cut) := until_ff l' in (b :: p, cut)
  end.

(** File types by magic number, as [FileType.guess_file_type] does for
    the compressed containers. *)
Definition guess_file_type (b : list byte) (mimetype : bool)
  : option string :=
  match b with
  | x1f :: x8b :: _ => Some (if mimetype then "application/gzip" else "GZP")
  | x50 :: x4b :: x03 :: x04 :: _ =>
      Some (if mimetype then "application/zip" else "ZIP")
  | x42 :: x5a :: x68 :: _ =>
      Some (if mimetype then "application/x-bzip2" else "BZ2")
  | xfd :: x37 :: x7a :: x58 :: x5a :: x00 :: _ =>
      Some (if mimetype then "application/x-xz" else "LXZ")
  | _ => None
  end.

Definition mimetypes_guess_type (uri : string) : option string :=
  if endswith uri ".csv" then Some "text/csv"
  else if endswith uri ".txt" then Some "text/plain"
  else if endswith uri ".bin" then Some "application/octet-stream"
  else None.

Definition decode_utf8 (b : list byte) : option string :=
  if forallb is_ascii b then Some (string_of_list_byte b) else None.

Definition splitlines (s : string) : list string :=
  List.map (fun l => PyStr.remove PyStr.LF (string_of_list_byte l))
           (lines_keepends [] (list_byte_of_string s)).

Definition csv_reader (lines : list string)
  : list (list string) * option exn :=
  (List.map (PyStr.split ",") lines, None).

Definition magic_length (c : codec) : nat :=
  match c with Gzip => 2 | Bzip2 => 3 | Lzma => 6 end.

(** A toy codec: the payload follows the magic number as it is; a byte
    [xff] stands for a truncated stream. *)
Definition text_lines (c : codec) (b : list byte)
  : list string * option exn :=
  let '(payload, cut) := until_ff (List.skipn (magic_length c) b) in
  (List.map string_of_list_byte (lines_keepends [] payload),
   if cut then Some (LibraryError "EOFError") else None).

(** A toy archive: after the magic number, [name 00 content 00 ...]. *)
Fixpoint members (chunks : list (list byte))
  : list (string * list byte) :=
  match chunks with
  | name :: content :: rest =>
      (string_of_list_byte name, content) :: members rest
  | _ => []
  end.

Definition archive (b : list byte) : list (string * list byte) :=
  members (fields x00 [] (List.skipn 4 b)).

Definition zip_namelist (b : list byte) : exn + list string :=
  match b with
  | x50 :: x4b :: x03 :: x04 :: _ => inr (List.map fst (archive b))
  | _ => inl (LibraryError "BadZipFile")
  end.

Fixpoint member_content (name : string) (ms : list (string * list byte))
  : option (list byte) :=
  match ms with
  | [] => None
  | (n, c) :: ms' =>
      if String.eqb n name then Some c else member_content name ms'
  end.

Definition zip_member_lines (b : list byte) (name : string)
  : list (list byte) * option exn :=
  match member_content name (archive b) with
  | Some c => (lines_keepends [] c, None)
  | None => ([], Some (LibraryError "KeyError"))
  end.

(** Exact rationals in place of floats; [intmul] as [int(a * b)]. *)
Definition truediv (i n : nat) : Q :=
  Qmake (Z.of_nat i) (Pos.of_nat n).

Definition intmul (x : Q) (k : Z) : Z :=
  Qfloor (Qmult x (inject_Z k)).

Definition lib : Library :=
  Build_Library guess_file_type mimetypes_guess_type decode_utf8 splitlines
                csv_reader text_lines zip_namelist zip_member_lines
                Q truediv intmul.

Definition gz (payload : list byte) : list byte := x1f :: x8b :: payload.

Definition zip (payload : list byte) : list byte :=
  x50 :: x4b :: x03 :: x04 :: payload.

Definition LF : string := String PyStr.LF EmptyString.

(** The directory [/home/u], the working directory. *)
Definition home : list (string * node) :=
  [ ("d", Dir [("a.txt", File (text "hello")); ("b.csv", File (text "x,y"))]);
    ("tree", Dir [("top.txt", File []);
                  ("sub", Dir [("deep.csv", File [])]);
                  ("last.txt", File [])]);
    ("rows.csv", File (text ("name,age" ++ LF ++ "alice,30" ++ LF)));
    ("rows.gz", File (gz (text ("r1" ++ LF ++ "r2" ++ LF ++ "r3"))));
    ("cut.gz", File (gz (text ("r1" ++ LF ++ "r2" ++ LF) ++ [xff])));
    ("rows.zip",
     File (zip (text "m1" ++ [x00] ++ text ("a" ++ LF ++ "b" ++ LF)
                ++ [x00] ++ text "m2" ++ [x00] ++ text ("c" ++ LF)
                ++ [x00])));
    ("blob.bin", File [x00; xde; xad; xbe; xef]);
    ("http:d", Dir [("a.txt", File [])]);
    ("https:rows.csv", File (text "x,y")) ].

Definition remote_gz : string := "http://example.com/rows.csv.gz".
Definition remote_csv : string := "http://example.com/rows.csv".

Definition urlopen_read (url : string) : exn + list byte :=
  if String.eqb url remote_gz then inr (gz (text ("r1" ++ LF)))
  else if String.eqb url remote_csv then inr (text ("x,y" ++ LF))
  else inl (LibraryError "URLError").

Definition world : World :=
  Build_World (Dir [("home", Dir [("u", Dir home)])]) ["home"; "u"]
              urlopen_read (Some 80).

End Sample.

(** ** safe_temp_file: a function that changes the filesystem *)

Module TempFile.

(** [os.path.join(a, b)]: an absolute [b] replaces [a]. *)
Definition os_path_join (a b : string) : string :=
  if Posix.isabs b then b else Posix.join a b.

(** The entries of a directory without the first one named [name]. *)
Fixpoint remove_entry (name : string) (es : list (string * node))
  : list (string * node) :=
  match es with
  | [] => []
  | (n, x) :: es' =>
      if String.eqb n name then es' else (n, x) :: remove_entry name es'
  end.

(** The entries with [f] applied to the first one named [name]. *)
Fixpoint update_entry (name : string) (f : node -> node)
         (es : list (string * node)) : list (string * node) :=
  match es with
  | [] => []
  | (n, x) :: es' =>
      if String.eqb n name then (n, f x) :: es'
      else (n, x) :: update_entry name f es'
  end.

(** The tree without the entry at the position [pos]. *)
Fixpoint remove_at (pos : list string) (n : node) : node :=
  match pos, n with
  | [name], Dir es => Dir (remove_entry name es)
  | name :: pos', Dir es => Dir (update_entry name (remove_at pos') es)
  | _, _ => n
  end.

(** Where a path leads, as a position below the root. *)
Definition position (root : node) (cwd : list string) (path : string)
  : exn + list string :=
  if String.eqb path "" then inl FileNotFoundError
  else Posix.walk_components root (if Posix.isabs path then [] else cwd)
                             (PyStr.split "/" path).

(** [os.remove(path)]: the root of the filesystem afterwards. A
    directory is not removed. *)
Definition os_remove (root : node) (cwd : list string) (path : string)
  : exn + node :=
  match position root cwd path with
  | inl e => inl e
  | inr pos =>
      match Posix.node_at root pos with
      | Some (File _) => inr (remove_at pos root)
      | Some (Dir _) => inl IsADirectoryError
      | None => inl FileNotFoundError
      end
  end.

Definition with_root (w : World) (root : node) : World :=
  Build_World root (fs_cwd w) (urlopen_read w) (terminal_columns w).

(** [kwargs.get('file_name')] is [None], or a string that counts as true
    when it is not empty. *)
Definition chosen_name (gettempdir uuid4 : string)
           (file_name : option string) : string :=
  match file_name with
  | Some name =>
      if PyStr.nonempty name then os_path_join gettempdir name
      else os_path_join gettempdir uuid4
  | None => os_path_join gettempdir uuid4
  end.

(** [safe_temp_file], given its keyword argument [file_name] and what
    [tempfile.gettempdir()] and [str(uuid.uuid4())] return: the world
    afterwards, and the name returned or the exception raised. *)
Definition safe_temp_file (gettempdir uuid4 : string)
           (file_name : option string) (w : World)
  : World * (exn + string) :=
  let name := chosen_name gettempdir uuid4 file_name in
  match Posix.stat (fs_root w) (fs_cwd w) name with
  | inr _ =>
      match os_remove (fs_root w) (fs_cwd w) name with
      | inr root' => (with_root w root', inr name)
      | inl e => (w, inl e)
      end
  | inl _ => (w, inr name)
  end.

(** A world with a directory [/tmp] that holds a file and a directory. *)
Definition world : World :=
  Build_World
    (Dir [("home", Dir [("u", Dir [("keep.txt", File [x01])])]);
          ("tmp", Dir [("old.bin", File [x02; x03]);
                       ("cache", Dir [("c1", File [])]);
                       ("other.bin", File [x04])])])
    ["home"; "u"] (fun _ => inl (LibraryError "URLError")) None.

End TempFile.

(** ** get_metadata

    What [get_metadata] needs beyond the filesystem tree and the response
    bodies: access times, the size [os.stat] reports for a directory, the
    headers of a response, and the standard library's conversions. *)

Record Platform : Type := {
  (* Python floats that count seconds since the epoch *)
  timestamp : Type;
  (* os.stat(..).st_atime of the node at a position below the root *)
  st_atime : list string -> timestamp;
  (* os.stat(..).st_size of a directory *)
  st_size_dir : list string -> Z;
  (* datetime.utcfromtimestamp(t).strftime('%Y-%m-%dT%H:%M:%S') *)
  utc_strftime : timestamp -> exn + string;
  (* urlparse(url).netloc and urlparse(url).path *)
  urlparse_netloc : string -> string;
  urlparse_path : string -> string;
  (* urlopen(url).info(), as its method get_all; None is Python's None *)
  urlopen_info : string -> exn + (string -> option (list string));
  (* int(s) for a string; None: ValueError *)
  int_of_str : string -> option Z
}.

Module Metadata.

Definition TypeError : exn := LibraryError "TypeError".
Definition UnboundLocalError : exn := LibraryError "UnboundLocalError".

Definition is_TypeError (e : exn) : bool :=
  match e with
  | LibraryError name => String.eqb name "TypeError"
  | _ => false
  end.

(** The accesses of [get_metadata]: those of the other methods, and
    [os.stat]. *)
Inductive access : Type :=
| Traced (ev : event)
| EvStat (path : string).         (* os.stat(path) *)

Definition T (A : Type) : Type := list access * (exn + A).

Definition retT {A} (a : A) : T A := ([], inr a).
Definition raiseT {A} (e : exn) : T A := ([], inl e).
Definition bindT {A B} (m : T A) (f : A -> T B) : T B :=
  match m with
  | (acs, inl e) => (acs, inl e)
  | (acs, inr a) => let '(acs', r) := f a in (acs ++ acs', r)
  end.
Definition liftT {A} (r : exn + A) : T A := ([], r).
Definition traced {A} (m : M A) : T A := (List.map Traced (fst m), snd m).

(** [try: m except E: h], for the exceptions [E] that [handles] accepts. *)
Definition try_exceptT {A} (handles : exn -> bool) (m h : T A) : T A :=
  match m with
  | (acs, inl e) =>
      if handles e then let '(acs', r) := h in (acs ++ acs', r)
      else (acs, inl e)
  | _ => m
  end.

Notation "'let*' x ':=' m 'in' k" := (bindT m (fun x => k))
  (at level 10, x name, m at level 100, k at level 200).

(** [p[:i], p[i:]] for [i = p.rfind('/') + 1] *)
Fixpoint split_last (p : string) : string * string :=
  match p with
  | EmptyString => (EmptyString, EmptyString)
  | String c p' =>
      let '(head, tail) := split_last p' in
      if PyStr.contains "/" p' then (String c head, tail)
      else if Ascii.eqb c "/" then (String c EmptyString, p')
      else (EmptyString, String c p')
  end.

(** [s.rstrip('/')] *)
Fixpoint rstrip_slash (s : string) : string :=
  match s with
  | EmptyString => EmptyString
  | String c s' =>
      match rstrip_slash s' with
      | EmptyString =>
          if Ascii.eqb c "/" then EmptyString else String c EmptyString
      | r => String c r
      end
  end.

(** [os.path.split(p)] *)
Definition os_path_split (p : string) : string * string :=
  let '(head, tail) := split_last p in
  if (PyStr.nonempty head
      && negb (PyStr.all (fun c => Ascii.eqb c "/") head))%bool
  then (rstrip_slash head, tail)
  else (head, tail).

(** [str(n)] for an integer *)
Definition str_of_int (n : Z) : string :=
  NilZero.string_of_int (Z.to_int n).

(** [r[0]] for what [get_all] returns *)
Definition first_of {A} (r : option (list A)) : exn + A :=
  match r with
  | None => inl TypeError
  | Some [] => inl IndexError
  | Some (x :: _) => inr x
  end.

(** The dictionary that [get_metadata] returns. *)
Record metadata : Type := {
  original_file_name : string;
  original_path : string;
  original_file_size : string;
  original_access_time : string
}.

Section Metadata.

Variable P : Platform.
Variable w : World.

(** [os.stat(path)]: [st_size] and [st_atime]. *)
Definition os_stat (path : string) : T (Z * timestamp P) :=
  ([EvStat path],
   match TempFile.position (fs_root w) (fs_cwd w) path with
   | inl e => inl e
   | inr pos =>
       match Posix.node_at (fs_root w) pos with
       | Some (File b) => inr (Z.of_nat (List.length b), st_atime P pos)
       | Some (Dir _) => inr (st_size_dir P pos, st_atime P pos)
       | None => inl FileNotFoundError
       end
   end).

Definition timestamp_to_iso8601 (t : timestamp P) : exn + string :=
  utc_strftime P t.

(** The local variables that both branches assign:
    [original_path], [original_file_name], [original_file_size] and
    [original_access_time]. *)
Definition locals : Type := string * string * Z * string.

(** The body of [if cls._infer_protocol(uri) is Protocols.FILE]. *)
Definition file_branch (uri : string) : T locals :=
  let* file_statistics := os_stat uri in
  let '(original_path, original_file_name) := os_path_split uri in
  let original_file_size := (fst file_statistics / 2 ^ 10)%Z in
  let* original_access_time :=
    liftT (timestamp_to_iso8601 (snd file_statistics)) in
  retT (original_path, original_file_name, original_file_size,
        original_access_time).

(** The body of [if cls._infer_protocol(uri) is Protocols.HTTP]. *)
Definition http_branch (uri : string) : T locals :=
  let* scheme := liftT (Urllib.urlparse_scheme uri) in
  let* _ := traced (tell (EvUrlopen uri)) in
  let* file_statistics := liftT (urlopen_info P uri) in
  let '(original_path, original_file_name) :=
    os_path_split (scheme ++ "://" ++ urlparse_netloc P uri
                          ++ urlparse_path P uri) in
  let* measured_size :=
    try_exceptT is_TypeError
      (let* length := liftT (first_of (file_statistics "Content-Length")) in
       match int_of_str P length with
       | Some n => retT n
       | None => raiseT ValueError
       end)
      (let* _ := traced (tell (EvUrlopen uri)) in
       let* body := liftT (urlopen_read w uri) in
       retT (Z.of_nat (List.length body))) in
  let original_file_size := (measured_size / 2 ^ 10)%Z in
  let* original_access_time := liftT (first_of (file_statistics "Date")) in
  retT (original_path, original_file_name, original_file_size,
        original_access_time).

(** The two [if]s run one after the other; the locals are assigned by
    the branch that runs, and read at the end. *)
Definition get_metadata (uri : string) : T metadata :=
  let* p := traced (FileIO._infer_protocol w uri) in
  let* assigned :=
    match p with
    | FILE => let* l := file_branch uri in retT (Some l)
    | _ => retT None
    end in
  let* p' := traced (FileIO._infer_protocol w uri) in
  let* assigned' :=
    match p' with
    | HTTP => let* l := http_branch uri in retT (Some l)
    | _ => retT assigned
    end in
  match assigned' with
  | Some (path, name, size, time) =>
      retT (Build_metadata name path (str_of_int size ++ "K") time)
  | None => raiseT UnboundLocalError
  end.

End Metadata.

(** *** A platform for the examples *)

Definition pad2 (n : Z) : string :=
  ((if (n <? 10)%Z then "0" else "") ++ str_of_int n)%string.

(** The civil date of a count of seconds, for the years 1 to 9999. *)
Definition sample_utc_strftime (t : Z) : exn + string :=
  let days := (t / 86400)%Z in
  let secs := (t mod 86400)%Z in
  let z := (days + 719468)%Z in
  let era := (z / 146097)%Z in
  let doe := (z mod 146097)%Z in
  let yoe :=
    ((doe - doe / 1460 + doe / 36524 - doe / 146096) / 365)%Z in
  let doy := (doe - (365 * yoe + yoe / 4 - yoe / 100))%Z in
  let mp := ((5 * doy + 2) / 153)%Z in
  let d := (doy - (153 * mp + 2) / 5 + 1)%Z in
  let m := (if mp <? 10 then mp + 3 else mp - 9)%Z in
  let y := (yoe + era * 400 + (if m <=? 2 then 1 else 0))%Z in
  if ((1 <=? y) && (y <=? 9999))%Z
  then inr (str_of_int y ++ "-" ++ pad2 m ++ "-" ++ pad2 d ++ "T"
            ++ pad2 (secs / 3600)%Z ++ ":" ++ pad2 (secs mod 3600 / 60)%Z
            ++ ":" ++ pad2 (secs mod 60)%Z)%string
  else inl ValueError.

Fixpoint until_query (s : string) : string :=
  match s with
  | EmptyString => EmptyString
  | String c s' =>
      if (Ascii.eqb c "?" || Ascii.eqb c "#")%bool then EmptyString
      else String c (until_query s')
  end.

Definition sample_netloc (url : string) : string :=
  Urllib.netloc (snd (Urllib.split_scheme url)).

(** The path of a URL without parameters. *)
Definition sample_path (url : string) : string :=
  let rest := snd (Urllib.split_scheme url) in
  until_query
    (if PyStr.startswith rest "//"
     then PyStr.drop (2 + String.length (Urllib.netloc rest)) rest
     else rest).

Definition headers (l : list (string * string)) (name : string)
  : option (list string) :=
  match List.filter (fun h => String.eqb (fst h) name) l with
  | [] => None
  | hs => Some (List.map snd hs)
  end.

Definition no_date : string := "http://example.com/nodate".

Definition sample_info (url : string)
  : exn + (string -> option (list string)) :=
  if String.eqb url Sample.remote_csv
  then inr (headers [("Content-Length", "4");
                     ("Date", "Tue, 03 Nov 2026 10:00:00 GMT")])
  else if String.eqb url Sample.remote_gz
  then inr (headers [("Date", "Tue, 03 Nov 2026 10:00:01 GMT")])
  else if String.eqb url no_date
  then inr (headers [("Content-Length", "2048")])
  else inl (LibraryError "URLError").

(** Decimal digits with an optional sign. *)
Definition sample_int (s : string) : option Z :=
  option_map Z.of_int
    (NilZero.int_of_string
       (match s with
        | String "+" s' => s'
        | _ => s
        end)).

Definition platform : Platform :=
  Build_Platform Z (fun pos => 1793700000 + Z.of_nat (List.length pos))%Z
                 (fun _ => 4096%Z) sample_utc_strftime sample_netloc
                 sample_path sample_info sample_int.

End Metadata.

(** ** Readers and failure points *)





(** ** Line ends

    The two ways the standard library splits a file into lines, and a
    library and a filesystem to run the scanners on text whose lines do
    not end with a bare line feed. *)

Module Newlines.

Definition CR : ascii := "013"%char.

(** Iterating a text stream opened with [newline=None] (the default of
    [gzip.open], [bz2.open] and [lzma.open] in mode ['rt']): a line ends
    at a line feed, a carriage return, or a carriage return followed by a
    line feed, and is delivered with a line feed as its end.
    [after_cr]: the previous character was a carriage return. *)
Fixpoint text_mode_lines (after_cr : bool) (s : string) : list string :=
  match s with
  | EmptyString => []
  | String c s' =>
      if Ascii.eqb c PyStr.LF then
        if after_cr then text_mode_lines false s'
        else String PyStr.LF EmptyString :: text_mode_lines false s'
      else if Ascii.eqb c CR then
        String PyStr.LF EmptyString :: text_mode_lines true s'
      else
        match text_mode_lines false s' with
        | line :: lines => String c line :: lines
        | [] => [String c EmptyString]
        end
  end.

(** Iterating a binary stream ([ZipExtFile]): a line ends at a line feed
    and keeps every byte. *)
Definition binary_lines (b : list byte) : list (list byte) :=
  Sample.lines_keepends [] b.

(** The toy codecs of [Sample], read in text mode. *)
Definition text_lines (c : codec) (b : list byte)
  : list string * option exn :=
  let '(payload, cut) :=
    Sample.until_ff (List.skipn (Sample.magic_length c) b) in
  (text_mode_lines false (string_of_list_byte payload),
   if cut then Some (LibraryError "EOFError") else None).

(** [ZipFile.open(name)] reads the last member of that name. *)
Fixpoint member_content (name : string) (ms : list (string * list byte))
  : option (list byte) :=
  match ms with
  | [] => None
  | (n, c) :: ms' =>
      match member_content name ms' with
      | Some c' => Some c'
      | None => if String.eqb n name then Some c else None
      end
  end.

Definition zip_member_lines (b : list byte) (name : string)
  : list (list byte) * option exn :=
  match member_content name (Sample.archive b) with
  | Some c => (binary_lines c, None)
  | None => ([], Some (LibraryError "KeyError"))
  end.

(** [str.splitlines()] for the line ends [\n], [\r] and [\r\n]. *)
Definition splitlines (s : string) : list string :=
  List.map (PyStr.remove PyStr.LF) (text_mode_lines false s).

Definition lib : Library :=
  Build_Library Sample.guess_file_type Sample.mimetypes_guess_type
                Sample.decode_utf8 splitlines Sample.csv_reader
                text_lines Sample.zip_namelist zip_member_lines
                Q Sample.truediv Sample.intmul.

Definition CRLF : string := String CR (String PyStr.LF EmptyString).

(** Two lines that end with a carriage return and a line feed, and three
    lines that end with a carriage return. *)
Definition dos_text : string := "a" ++ CRLF ++ "b" ++ CRLF.
Definition mac_text : string :=
  "a" ++ String CR ("b" ++ String CR ("c" ++ String CR "")).

Definition archive_of (content : string) : list byte :=
  Sample.zip (Sample.text "m1" ++ [x00] ++ Sample.text content ++ [x00]).

(** [late.csv] is [head.csv] followed by a line that is not UTF-8. *)
Definition data : list (string * node) :=
  [ ("dos.zip", File (archive_of dos_text));
    ("dos.gz", File (Sample.gz (Sample.text dos_text)));
    ("mac.zip", File (archive_of mac_text));
    ("mac.gz", File (Sample.gz (Sample.text mac_text)));
    ("head.csv", File (Sample.text ("a,b" ++ Sample.LF)));
    ("late.csv",
     File (Sample.text ("a,b" ++ Sample.LF) ++ [xff; x0a])) ].

Definition world : World :=
  Build_World (Dir [("data", Dir data)]) ["data"]
              (fun _ => inl (LibraryError "URLError")) None.

End Newlines.

(** * Properties *)

(** ** Generators *)

Module GenFacts.
Section GenFacts.
Context {A : Type}.
Implicit Types (g h : gen A) (evs : list event).

Lemma items_emit evs g : Gen.items (Gen.emit evs g) = Gen.items g.
Proof. induction evs; simpl; auto. Qed.

Lemma events_emit evs g :
  Gen.events (Gen.emit evs g) = evs ++ Gen.events g.
Proof. induction evs; simpl; congruence. Qed.

Lemma outcome_emit evs g : Gen.outcome (Gen.emit evs g) = Gen.outcome g.
Proof. induction evs; simpl; auto. Qed.

Lemma next_emit evs g :
  Gen.next (Gen.emit evs g)
  = (evs ++ fst (Gen.next g), snd (Gen.next g)).
Proof.
  induction evs as [|ev evs IH]; simpl.
  - now destruct (Gen.next g).
  - now rewrite IH.
Qed.

Lemma try_except_emit handles evs g h :
  Gen.try_except handles (Gen.emit evs g) h
  = Gen.emit evs (Gen.try_except handles g h).
Proof. induction evs; simpl; congruence. Qed.

(** A pull skips the accesses and stops at the first yield. *)
Lemma after_pull_do ev g : Gen.after_pull (Do ev g) = Gen.after_pull g.
Proof.
  unfold Gen.after_pull; simpl. now destruct (Gen.next g).
Qed.


Lemma after_pulls_do n ev g :
  Gen.after_pulls (S n) (Do ev g) = Gen.after_pulls (S n) g.
Proof. simpl. now rewrite after_pull_do. Qed.

Lemma nth_pull_do n ev g : Gen.nth_pull n (Do ev g) = Gen.nth_pull n g.
Proof.
  unfold Gen.nth_pull. destruct n.
  - simpl. now destruct (Gen.next g).
  - now rewrite after_pulls_do.
Qed.

Lemma nth_pull_yield n a g :
  Gen.nth_pull (S n) (Yield a g) = Gen.nth_pull n g.
Proof. reflexivity. Qed.


(** The pull after the last item ends the iteration the way the body
    ends. *)
Lemma nth_pull_end g :
  Gen.nth_pull (List.length (Gen.items g)) g
  = match Gen.outcome g with
    | Some e => Gen.Raised e
    | None => Gen.StopIteration
    end.
Proof.
  induction g as [| e | b k IH | ev k IH]; simpl; try reflexivity.
  - now rewrite nth_pull_yield.
  - now rewrite nth_pull_do.
Qed.


Lemma items_for_each_yield {X} (f : X -> A) (l : list X) g :
  Gen.items (Gen.for_each l (fun x k => Yield (f x) k) g)
  = List.map f l ++ Gen.items g.
Proof. induction l; simpl; congruence. Qed.

Lemma outcome_for_each_yield {X} (f : X -> A) (l : list X) g :
  Gen.outcome (Gen.for_each l (fun x k => Yield (f x) k) g)
  = Gen.outcome g.
Proof. induction l; simpl; congruence. Qed.

Lemma events_for_each_yield {X} (f : X -> A) (l : list X) g :
  Gen.events (Gen.for_each l (fun x k => Yield (f x) k) g)
  = Gen.events g.
Proof. induction l; simpl; congruence. Qed.

End GenFacts.
End GenFacts.

(** ** Strings *)

Lemma prefix_split (p s : string) :
  String.prefix p s = true -> exists r, s = (p ++ r)%string.
Proof.
  revert s. induction p as [|c p IH]; intros s H.
  - now exists s.
  - destruct s as [|d s]; simpl in H; [discriminate|].
    destruct (ascii_dec c d) as [->|]; [|discriminate].
    destruct (IH _ H) as [r ->]. now exists r.
Qed.

Lemma contains_remove (c : ascii) (s : string) :
  PyStr.contains c (PyStr.remove c s) = false.
Proof.
  induction s as [|d s IH]; simpl; auto.
  destruct (Ascii.eqb d c) eqn:E; auto.
  simpl. rewrite Ascii.eqb_sym, E. exact IH.
Qed.

(** ** Protocol resolution and fetching *)

Section Protocol.

Variable L : Library.
Variable w : World.

Lemma http_family_scheme uri b :
  http_family uri = Some b ->
  exists scheme, Urllib.urlparse_scheme uri = inr scheme
                 /\ PyStr.startswith scheme "http" = b.
Proof.
  unfold http_family. destruct (Urllib.urlparse_scheme uri) as [|s];
    [discriminate|].
  intros [= <-]. now exists s.
Qed.

(** The outcome of [_infer_protocol], branch by branch. *)
Lemma infer_protocol_http uri :
  http_family uri = Some true ->
  FileIO._infer_protocol w uri = ([], inr HTTP).
Proof.
  intros H. destruct (http_family_scheme _ _ H) as (s & Hs & Hp).
  unfold FileIO._infer_protocol, lift. rewrite Hs. simpl. now rewrite Hp.
Qed.

Lemma infer_protocol_file_prefix uri :
  http_family uri = Some false ->
  PyStr.startswith uri "file" = true ->
  FileIO._infer_protocol w uri = ([], inr FILE).
Proof.
  intros H Hf. destruct (http_family_scheme _ _ H) as (s & Hs & Hp).
  unfold FileIO._infer_protocol, lift. rewrite Hs. simpl.
  now rewrite Hp, Hf.
Qed.

Lemma infer_protocol_exists uri n :
  http_family uri = Some false ->
  PyStr.startswith uri "file" = false ->
  Posix.stat (fs_root w) (fs_cwd w) uri = inr n ->
  FileIO._infer_protocol w uri = ([EvExists uri], inr FILE).
Proof.
  intros H Hf Hn. destruct (http_family_scheme _ _ H) as (s & Hs & Hp).
  unfold FileIO._infer_protocol, FileIO.os_path_exists, lift.
  rewrite Hs. simpl. rewrite Hp, Hf. simpl. now rewrite Hn.
Qed.

Lemma infer_protocol_missing uri e :
  http_family uri = Some false ->
  PyStr.startswith uri "file" = false ->
  Posix.stat (fs_root w) (fs_cwd w) uri = inl e ->
  FileIO._infer_protocol w uri = ([EvExists uri], inr UNKNOWN).
Proof.
  intros H Hf Hn. destruct (http_family_scheme _ _ H) as (s & Hs & Hp).
  unfold FileIO._infer_protocol, FileIO.os_path_exists, lift.
  rewrite Hs. simpl. rewrite Hp, Hf. simpl. now rewrite Hn.
Qed.

Lemma infer_protocol_rejected uri :
  http_family uri = None ->
  FileIO._infer_protocol w uri = ([], inl ValueError).
Proof.
  unfold http_family, FileIO._infer_protocol, lift, Urllib.urlparse_scheme.
  destruct (Urllib.split_scheme uri) as [s r].
  destruct (Urllib.unmatched_bracket (Urllib.netloc r)); simpl;
    [reflexivity | discriminate].
Qed.

(** A location that starts with [http://] or [https://] has that
    scheme. *)
Lemma http_url_family uri :
  valid_http_url uri -> http_family uri = Some true.
Proof.
  intros [Hp Hv]. unfold http_family in *.
  destruct Hp as [Hp|Hp]; apply prefix_split in Hp as [r ->];
    unfold Urllib.urlparse_scheme in *; simpl in *;
    (destruct (Urllib.unmatched_bracket _); [congruence | reflexivity]).
Qed.

(** Resolving to [UNKNOWN] means: [urlparse] accepts the location, its
    scheme is not of the HTTP family, it does not start with [file] and
    nothing exists at that path. *)
Lemma infer_protocol_unknown uri :
  snd (FileIO._infer_protocol w uri) = inr UNKNOWN ->
  FileIO._infer_protocol w uri = ([EvExists uri], inr UNKNOWN).
Proof.
  destruct (http_family uri) as [[|]|] eqn:H.
  - rewrite (infer_protocol_http _ H). discriminate.
  - destruct (PyStr.startswith uri "file") eqn:Hf.
    + rewrite (infer_protocol_file_prefix _ H Hf). discriminate.
    + destruct (Posix.stat (fs_root w) (fs_cwd w) uri) as [e|n] eqn:Hn.
      * now rewrite (infer_protocol_missing _ e H Hf Hn).
      * rewrite (infer_protocol_exists _ n H Hf Hn). discriminate.
  - rewrite (infer_protocol_rejected _ H). discriminate.
Qed.

Lemma get_unknown uri :
  snd (FileIO._infer_protocol w uri) = inr UNKNOWN ->
  FileIO.get w uri = ([EvExists uri; EvExists uri], inr Unknown).
Proof.
  intros H. unfold FileIO.get.
  now rewrite (infer_protocol_unknown _ H).
Qed.

Lemma get_http uri :
  http_family uri = Some true ->
  FileIO.get w uri
  = ([EvUrlopen uri],
     match urlopen_read w uri with
     | inl e => inl e
     | inr b => inr (Bytes b)
     end).
Proof.
  intros H. unfold FileIO.get, FileIO._get_url, lift.
  rewrite (infer_protocol_http _ H). simpl.
  now destruct (urlopen_read w uri).
Qed.

End Protocol.

(** C2, as the code has it. Protocol resolution yields [FILE] for every
    existing regular file that [urlparse] does not read as an HTTP-family
    URL, and for every location that starts with [file], existing or not;
    it yields [HTTP] for every string that starts with [http://] or
    [https://] and that [urlparse] accepts; it yields [UNKNOWN] for the
    empty string and for every nonexistent relative path that neither
    starts with [file] nor is read as an HTTP-family URL. *)
Theorem infer_protocol_decisions (w : World) (uri : string) :
  (forall content,
      Posix.stat (fs_root w) (fs_cwd w) uri = inr (File content) ->
      http_family uri = Some false ->
      snd (FileIO._infer_protocol w uri) = inr FILE)
  /\ (http_family uri = Some false ->
      PyStr.startswith uri "file" = true ->
      snd (FileIO._infer_protocol w uri) = inr FILE)
  /\ (valid_http_url uri ->
      snd (FileIO._infer_protocol w uri) = inr HTTP)
  /\ (uri = "" -> snd (FileIO._infer_protocol w uri) = inr UNKNOWN)
  /\ (forall e,
      Posix.isabs uri = false ->
      Posix.stat (fs_root w) (fs_cwd w) uri = inl e ->
      PyStr.startswith uri "file" = false ->
      http_family uri = Some false ->
      snd (FileIO._infer_protocol w uri) = inr UNKNOWN).
Proof.
  repeat split.
  - intros content Hs Hh.
    destruct (PyStr.startswith uri "file") eqn:Hf.
    + now rewrite (infer_protocol_file_prefix w _ Hh Hf).
    + now rewrite (infer_protocol_exists w _ _ Hh Hf Hs).
  - intros Hh Hf. now rewrite (infer_protocol_file_prefix w _ Hh Hf).
  - intros Hv. now rewrite (infer_protocol_http w _ (http_url_family _ Hv)).
  - intros ->.
    now rewrite (infer_protocol_missing w "" FileNotFoundError).
  - intros e _ Hs Hf Hh.
    now rewrite (infer_protocol_missing w _ e Hh Hf Hs).
Qed.

(** C2 fails as stated: [filelist.txt] is a relative path at which nothing
    exists, and it resolves to [FILE], not [UNKNOWN]; [https:rows.csv] is
    an existing regular file, and it resolves to [HTTP]. *)
Lemma infer_protocol_file_prefix_not_unknown :
  Posix.isabs "filelist.txt" = false
  /\ Posix.stat (fs_root Sample.world) (fs_cwd Sample.world) "filelist.txt"
     = inl FileNotFoundError
  /\ snd (FileIO._infer_protocol Sample.world "filelist.txt") = inr FILE
  /\ snd (FileIO._infer_protocol Sample.world "filelist.txt") <> inr UNKNOWN
  /\ Posix.stat (fs_root Sample.world) (fs_cwd Sample.world) "https:rows.csv"
     = inr (File (Sample.text "x,y"))
  /\ snd (FileIO._infer_protocol Sample.world "https:rows.csv") = inr HTTP.
Proof. repeat split; try reflexivity. vm_compute. discriminate. Qed.

Lemma infer_protocol_decisions_witness :
  snd (FileIO._infer_protocol Sample.world "rows.csv") = inr FILE
  /\ snd (FileIO._infer_protocol Sample.world "files/none.csv") = inr FILE
  /\ snd (FileIO._infer_protocol Sample.world Sample.remote_csv) = inr HTTP
  /\ snd (FileIO._infer_protocol Sample.world "") = inr UNKNOWN
  /\ snd (FileIO._infer_protocol Sample.world "missing.csv") = inr UNKNOWN.
Proof.
  split; [|split; [|split; [|split]]].
  - apply (proj1 (infer_protocol_decisions Sample.world "rows.csv")
             (Sample.text
                ("name,age" ++ Sample.LF ++ "alice,30" ++ Sample.LF)));
      reflexivity.
  - apply (proj1 (proj2 (infer_protocol_decisions
                           Sample.world "files/none.csv")));
      reflexivity.
  - apply (proj1 (proj2 (proj2
             (infer_protocol_decisions Sample.world Sample.remote_csv)))).
    split; [left; reflexivity | vm_compute; discriminate].
  - apply (proj1 (proj2 (proj2 (proj2
             (infer_protocol_decisions Sample.world ""))))).
    reflexivity.
  - apply (proj2 (proj2 (proj2 (proj2
             (infer_protocol_decisions Sample.world "missing.csv"))))
             FileNotFoundError); reflexivity.
Defined.

(** ** Type inference on an unresolved location *)

Lemma infer_from_name_unsupported (L : Library) (uri : string) :
  snd (FileIO.infer_from_name L uri false) = inl FileTypeNotSupportedYet
  <-> (mimetypes_guess_type L uri = None
       \/ mimetypes_guess_type L uri = Some "").
Proof.
  unfold FileIO.infer_from_name.
  destruct (mimetypes_guess_type L uri) as [ft|]; [|simpl; tauto].
  destruct ft as [|c ft]; [simpl; tauto|].
  cbn [PyStr.nonempty].
  destruct (nth_error (PyStr.split "/" (String c ft)) 1); simpl; split;
    try discriminate; intros [H|H]; discriminate.
Qed.

Lemma infer_from_name_no_access (L : Library) (uri : string) mimetype :
  fst (FileIO.infer_from_name L uri mimetype) = [].
Proof.
  unfold FileIO.infer_from_name.
  destruct (mimetypes_guess_type L uri) as [ft|]; [|reflexivity].
  destruct (PyStr.nonempty ft); [|reflexivity].
  destruct mimetype; [reflexivity|].
  now destruct (nth_error (PyStr.split "/" ft) 1).
Qed.

(** C3, as the code has it. When the protocol of a location resolves to
    [UNKNOWN], [infer_file_type_from_uri] probes the path twice, fetches
    nothing and answers from the name of the location: it fails with
    [FileTypeNotSupportedYet] exactly when [mimetypes.guess_type] knows no
    type for the name, and otherwise returns what the guess gives. *)
Theorem infer_unknown_protocol_uses_name
        (L : Library) (w : World) (uri : string) :
  snd (FileIO._infer_protocol w uri) = inr UNKNOWN ->
  (forall mimetype,
      FileIO.infer_file_type_from_uri L w uri mimetype
      = ([EvExists uri; EvExists uri],
         snd (FileIO.infer_from_name L uri mimetype)))
  /\ (snd (FileIO.infer_file_type_from_uri L w uri false)
      = inl FileTypeNotSupportedYet
      <-> (mimetypes_guess_type L uri = None
           \/ mimetypes_guess_type L uri = Some "")).
Proof.
  intros H.
  assert (E : forall mimetype,
             FileIO.infer_file_type_from_uri L w uri mimetype
             = ([EvExists uri; EvExists uri],
                snd (FileIO.infer_from_name L uri mimetype))).
  { intros mimetype. unfold FileIO.infer_file_type_from_uri.
    rewrite (get_unknown w _ H). simpl.
    pose proof (infer_from_name_no_access L uri mimetype) as F.
    destruct (FileIO.infer_from_name L uri mimetype) as [evs r].
    simpl in F. subst evs. reflexivity. }
  split; [exact E|].
  rewrite E. simpl. apply infer_from_name_unsupported.
Qed.

(** C3 fails as stated: nothing exists at [missing.csv], its protocol
    resolves to [UNKNOWN], and type inference answers [CSV]. *)
Lemma infer_unknown_protocol_returns_tag :
  snd (FileIO._infer_protocol Sample.world "missing.csv") = inr UNKNOWN
  /\ snd (FileIO.get Sample.world "missing.csv") = inr Unknown
  /\ snd (FileIO.infer_file_type_from_uri Sample.lib Sample.world
            "missing.csv" false) = inr "CSV"
  /\ snd (FileIO.infer_file_type_from_uri Sample.lib Sample.world
            "missing.csv" false) <> inl FileTypeNotSupportedYet.
Proof. repeat split; try reflexivity. vm_compute. discriminate. Qed.

Lemma infer_unknown_protocol_uses_name_witness :
  FileIO.infer_file_type_from_uri Sample.lib Sample.world "missing.csv" false
  = ([EvExists "missing.csv"; EvExists "missing.csv"], inr "CSV")
  /\ FileIO.infer_file_type_from_uri Sample.lib Sample.world "missing" false
     = ([EvExists "missing"; EvExists "missing"],
        inl FileTypeNotSupportedYet).
Proof.
  split.
  - apply (proj1 (infer_unknown_protocol_uses_name
                    Sample.lib Sample.world "missing.csv" eq_refl) false).
  - apply (proj1 (infer_unknown_protocol_uses_name
                    Sample.lib Sample.world "missing" eq_refl) false).
Defined.

(** ** The plain/CSV scanner on an unresolved location *)

(** C10. When the protocol of [uri] resolves to [UNKNOWN], the first pull
    from [scan_csv(uri)] raises [FileTypeNotSupportedYet]: no item is
    yielded before it, and the iteration does not end silently. *)
Theorem scan_csv_unknown_protocol_raises
        (L : Library) (w : World) (uri : string) :
  snd (FileIO._infer_protocol w uri) = inr UNKNOWN ->
  Gen.nth_pull 0 (FileIO.scan_csv L w uri)
  = Gen.Raised FileTypeNotSupportedYet
  /\ Gen.items (FileIO.scan_csv L w uri) = []
  /\ Gen.outcome (FileIO.scan_csv L w uri) = Some FileTypeNotSupportedYet.
Proof.
  intros H. unfold FileIO.scan_csv, Gen.perform.
  rewrite (get_unknown w _ H). repeat split.
Qed.

Lemma scan_csv_unknown_protocol_raises_witness :
  Gen.nth_pull 0 (FileIO.scan_csv Sample.lib Sample.world "missing.csv")
  = Gen.Raised FileTypeNotSupportedYet
  /\ Gen.items (FileIO.scan_csv Sample.lib Sample.world "missing.csv") = []
  /\ Gen.outcome (FileIO.scan_csv Sample.lib Sample.world "missing.csv")
     = Some FileTypeNotSupportedYet.
Proof.
  apply (scan_csv_unknown_protocol_raises
           Sample.lib Sample.world "missing.csv").
  reflexivity.
Defined.

(** ** The scan dispatcher *)

Section Dispatch.

Variable L : Library.
Variable w : World.

Lemma nth_pull_emit {A} n evs (g : gen A) :
  Gen.nth_pull n (Gen.emit evs g) = Gen.nth_pull n g.
Proof.
  induction evs; simpl; auto. now rewrite GenFacts.nth_pull_do.
Qed.

Lemma declared_tags_disjoint t s s' :
  In t (declared_tags s) -> In t (declared_tags s') -> s = s'.
Proof.
  destruct s, s'; simpl; intros H H'; try reflexivity;
    repeat (destruct H as [H|H]; try contradiction);
    repeat (destruct H' as [H'|H']; try contradiction);
    subst; discriminate.
Qed.

Lemma scan_dispatch_declared uri t s :
  In t (declared_tags s) ->
  FileIO.scan_dispatch L w uri t = run_scanner L w s uri.
Proof.
  destruct s; simpl; intros H;
    repeat (destruct H as [H|H]; try contradiction);
    subst; reflexivity.
Qed.

Lemma supported_declared t :
  In t supported_tags <-> exists s, In t (declared_tags s).
Proof.
  split.
  - simpl. intros H.
    repeat (destruct H as [H|H]; try contradiction); subst;
      [ exists CsvScanner | exists CsvScanner | exists GzipScanner
      | exists ZipScanner | exists Bzip2Scanner | exists XzScanner ];
      simpl; auto.
  - intros [s H]. destruct s; simpl in *; intuition.
Qed.

Lemma scan_dispatch_unsupported uri t :
  ~ In t supported_tags ->
  FileIO.scan_dispatch L w uri t = Raise FileScanNotPossible.
Proof.
  intros H. unfold FileIO.scan_dispatch.
  repeat match goal with
         | |- context [String.eqb t ?lit] =>
             destruct (String.eqb_spec t lit) as [->|_];
             [exfalso; apply H; simpl; tauto|]
         end.
  reflexivity.
Qed.

(** [scan] once inference has returned: the accesses of the inference,
    then the chain on the tag, inside the [try]. *)
Lemma scan_inferred uri evs t :
  FileIO.infer_file_type_from_uri L w uri false = (evs, inr t) ->
  FileIO.scan L w uri
  = Gen.emit evs
      (Gen.try_except is_IsADirectoryError
         (FileIO.scan_dispatch L w uri t) (FileIO.scan_directory w uri)).
Proof.
  intros H. unfold FileIO.scan, Gen.perform. rewrite H. simpl.
  apply GenFacts.try_except_emit.
Qed.

Lemma scan_inference_raised uri evs e :
  FileIO.infer_file_type_from_uri L w uri false = (evs, inl e) ->
  FileIO.scan L w uri
  = Gen.emit evs
      (if is_IsADirectoryError e then FileIO.scan_directory w uri
       else Raise e).
Proof.
  intros H. unfold FileIO.scan, Gen.perform. rewrite H. simpl.
  now rewrite GenFacts.try_except_emit.
Qed.

End Dispatch.

(** C1. When type inference on a location returns the tag [t], [scan]
    runs, after the accesses of the inference, the scanner declared for
    [t] and no other: [scan_csv] for CSV and PLAIN, [scan_csv_gzip] for
    GZP, [scan_csv_zip] for ZIP, [scan_csv_bzip2] for BZ2, [scan_csv_xz]
    for LXZ.  No two scanners are declared for one tag, so what [scan]
    yields comes from the scanner of the inferred tag (followed by the
    directory walk should that scanner raise [IsADirectoryError]); with
    no scanner declared for [t], [scan] runs none. *)
Theorem scan_dispatches_by_declared_tag
        (L : Library) (w : World) (uri t : string) :
  snd (FileIO.infer_file_type_from_uri L w uri false) = inr t ->
  (forall s, In t (declared_tags s) ->
     FileIO.scan L w uri
     = Gen.emit (fst (FileIO.infer_file_type_from_uri L w uri false))
         (Gen.try_except is_IsADirectoryError
            (run_scanner L w s uri) (FileIO.scan_directory w uri)))
  /\ (forall s s', In t (declared_tags s) -> In t (declared_tags s') ->
                   s = s')
  /\ ((forall s, ~ In t (declared_tags s)) ->
      FileIO.scan L w uri
      = Gen.emit (fst (FileIO.infer_file_type_from_uri L w uri false))
                 (Raise FileScanNotPossible)).
Proof.
  intros H.
  destruct (FileIO.infer_file_type_from_uri L w uri false) as [evs r] eqn:E.
  simpl in H. subst r. simpl. repeat split.
  - intros s Hs. rewrite (scan_inferred L w _ _ _ E).
    now rewrite (scan_dispatch_declared L w uri t s Hs).
  - apply declared_tags_disjoint.
  - intros Hn. rewrite (scan_inferred L w _ _ _ E).
    rewrite scan_dispatch_unsupported; [reflexivity|].
    intros Hs. apply supported_declared in Hs as [s Hs]. exact (Hn s Hs).
Qed.

Lemma scan_dispatches_by_declared_tag_witness :
  FileIO.scan Sample.lib Sample.world "rows.gz"
  = Gen.emit [EvExists "rows.gz"; EvOpen "rows.gz"]
      (Gen.try_except is_IsADirectoryError
         (FileIO.scan_csv_gzip Sample.lib Sample.world "rows.gz")
         (FileIO.scan_directory Sample.world "rows.gz")).
Proof.
  apply (proj1 (scan_dispatches_by_declared_tag
                  Sample.lib Sample.world "rows.gz" "GZP" eq_refl)
           GzipScanner).
  simpl. auto.
Defined.

(** C7. When the inferred type tag of a location has no matching scanner,
    the first pull from [scan] raises [FileScanNotPossible]: nothing is
    yielded, and the iteration does not end silently. *)
Theorem scan_unsupported_tag_raises
        (L : Library) (w : World) (uri t : string) :
  snd (FileIO.infer_file_type_from_uri L w uri false) = inr t ->
  ~ In t supported_tags ->
  Gen.nth_pull 0 (FileIO.scan L w uri) = Gen.Raised FileScanNotPossible
  /\ Gen.items (FileIO.scan L w uri) = []
  /\ Gen.outcome (FileIO.scan L w uri) = Some FileScanNotPossible.
Proof.
  intros H Hn.
  destruct (FileIO.infer_file_type_from_uri L w uri false) as [evs r] eqn:E.
  simpl in H. subst r.
  rewrite (scan_inferred L w _ _ _ E).
  rewrite (scan_dispatch_unsupported L w uri t Hn). simpl.
  rewrite nth_pull_emit, GenFacts.items_emit, GenFacts.outcome_emit.
  repeat split.
Qed.

Lemma scan_unsupported_tag_raises_witness :
  Gen.nth_pull 0 (FileIO.scan Sample.lib Sample.world "blob.bin")
  = Gen.Raised FileScanNotPossible
  /\ Gen.items (FileIO.scan Sample.lib Sample.world "blob.bin") = []
  /\ Gen.outcome (FileIO.scan Sample.lib Sample.world "blob.bin")
     = Some FileScanNotPossible.
Proof.
  apply (scan_unsupported_tag_raises
           Sample.lib Sample.world "blob.bin" "OCTET-STREAM").
  - reflexivity.
  - simpl. intros H.
    repeat (destruct H as [H|H]; [discriminate|]). exact H.
Defined.

(** X21. When inference itself fails, with anything but
    [IsADirectoryError], the first pull of the scan raises that failure
    and nothing is yielded. *)
Lemma scan_inference_failure_raises
      (L : Library) (w : World) (uri : string) (e : exn) :
  snd (FileIO.infer_file_type_from_uri L w uri false) = inl e ->
  is_IsADirectoryError e = false ->
  Gen.nth_pull 0 (FileIO.scan L w uri) = Gen.Raised e
  /\ Gen.items (FileIO.scan L w uri) = [].
Proof.
  intros H He.
  destruct (FileIO.infer_file_type_from_uri L w uri false) as [evs r] eqn:E.
  simpl in H. subst r.
  rewrite (scan_inference_raised L w _ _ _ E), He.
  rewrite nth_pull_emit, GenFacts.items_emit. split; reflexivity.
Qed.

(** ** Fetch strategies within one scan *)

(** What opening a local path does. *)
Lemma open_rb_run (w : World) (path : string) :
  FileIO.open_rb w path
  = ([EvOpen path],
     match Posix.stat (fs_root w) (fs_cwd w) path with
     | inr (File b) => inr b
     | inr (Dir _) => inl IsADirectoryError
     | inl e => inl e
     end).
Proof.
  unfold FileIO.open_rb.
  now destruct (Posix.stat (fs_root w) (fs_cwd w) path) as [e|[b|es]].
Qed.

Lemma events_perform_open_rb {A} (w : World) (path : string)
      (k : list byte -> gen A) :
  exists rest,
    Gen.events (Gen.perform (FileIO.open_rb w path) k) = EvOpen path :: rest.
Proof.
  unfold Gen.perform. rewrite open_rb_run. simpl. eauto.
Qed.

(** X20. A remote location whose content is recognised as a compressed
    container is fetched over HTTP by the inference and then opened as a
    local path by the scanner. *)
Lemma scan_remote_compressed_opens_local_path
      (L : Library) (w : World) (uri t : string) (b : list byte) :
  http_family uri = Some true ->
  urlopen_read w uri = inr b ->
  guess_file_type L b false = Some t ->
  In t ["GZP"; "ZIP"; "BZ2"; "LXZ"] ->
  snd (FileIO._infer_protocol w uri) = inr HTTP
  /\ exists rest,
      Gen.events (FileIO.scan L w uri) = EvUrlopen uri :: EvOpen uri :: rest.
Proof.
  intros Hh Hb Ht Hin.
  split; [now rewrite (infer_protocol_http w _ Hh)|].
  assert (E : FileIO.infer_file_type_from_uri L w uri false
              = ([EvUrlopen uri], inr t)).
  { unfold FileIO.infer_file_type_from_uri.
    rewrite (get_http w _ Hh), Hb. simpl. now rewrite Ht. }
  rewrite (scan_inferred L w _ _ _ E). simpl.
  assert (O : exists k,
             FileIO.scan_dispatch L w uri t
             = Gen.perform (FileIO.open_rb w uri) k).
  { simpl in Hin.
    repeat (destruct Hin as [Hin|Hin]; try contradiction); subst t;
      unfold FileIO.scan_dispatch; simpl;
      unfold FileIO.scan_csv_gzip, FileIO.scan_csv_zip,
        FileIO.scan_csv_bzip2, FileIO.scan_csv_xz, FileIO.scan_text_stream;
      eauto. }
  destruct O as [k ->]. unfold Gen.perform. rewrite open_rb_run. simpl.
  eauto.
Qed.

(** *** What holds of the strategies *)

Section Strategies.

Variable L : Library.
Variable w : World.

Lemma avoids_not_uses s evs : avoids s evs -> ~ uses s evs.
Proof.
  intros H (ev & Hin & Hs). unfold avoids in H.
  rewrite Forall_forall in H. exact (H ev Hin Hs).
Qed.

Lemma events_perform {A B} (m : M B) (k : B -> gen A) :
  Gen.events (Gen.perform m k)
  = fst m ++ match snd m with
             | inl _ => []
             | inr b => Gen.events (k b)
             end.
Proof.
  unfold Gen.perform. rewrite GenFacts.events_emit.
  now destruct (snd m).
Qed.

Lemma avoids_try_except {A} s handles (g h : gen A) :
  avoids s (Gen.events g) -> avoids s (Gen.events h) ->
  avoids s (Gen.events (Gen.try_except handles g h)).
Proof.
  intros Hg Hh. unfold avoids in *.
  induction g as [| e | a k IH | ev k IH]; simpl in *.
  - constructor.
  - destruct (handles e); [exact Hh | constructor].
  - now apply IH.
  - inversion Hg; subst. constructor; [assumption | now apply IH].
Qed.

Lemma avoids_for_each {A X} s (l : list X) (body : X -> gen A -> gen A)
      (after : gen A) :
  (forall x k, avoids s (Gen.events k) -> avoids s (Gen.events (body x k))) ->
  avoids s (Gen.events after) ->
  avoids s (Gen.events (Gen.for_each l body after)).
Proof.
  intros Hb Ha. induction l as [|x l IH]; simpl; [exact Ha|].
  now apply Hb.
Qed.

Lemma events_ending {A} (e : option exn) :
  Gen.events (@Gen.ending A e) = [].
Proof. now destruct e. Qed.

Lemma avoids_open_rb {A} path (k : list byte -> gen A) :
  (forall b, avoids HttpGet (Gen.events (k b))) ->
  avoids HttpGet (Gen.events (Gen.perform (FileIO.open_rb w path) k)).
Proof.
  intros Hk. rewrite events_perform, open_rb_run. cbn [fst snd].
  apply Forall_app. split.
  - constructor; [discriminate | constructor].
  - destruct (Posix.stat _ _ path) as [e|[b|es]];
      [constructor | apply Hk | constructor].
Qed.

(** A location classified [FILE] is fetched from the local filesystem. *)
Lemma get_local_accesses uri :
  snd (FileIO._infer_protocol w uri) = inr FILE ->
  avoids HttpGet (fst (FileIO.get w uri)).
Proof.
  intros H. unfold FileIO.get, FileIO._get_local.
  destruct (FileIO._infer_protocol w uri) as [evs r] eqn:E.
  simpl in H. subst r.
  assert (Hevs : avoids HttpGet evs).
  { destruct (http_family uri) as [[|]|] eqn:Hh.
    - rewrite (infer_protocol_http w _ Hh) in E. discriminate.
    - unfold FileIO._infer_protocol, FileIO.os_path_exists, lift in E.
      destruct (http_family_scheme _ _ Hh) as (sch & Hs & Hp).
      rewrite Hs in E. simpl in E. rewrite Hp in E.
      destruct (PyStr.startswith uri "file").
      + injection E as <-. constructor.
      + simpl in E.
        destruct (Posix.stat _ _ uri); injection E as <-;
          (constructor; [discriminate | constructor]).
    - rewrite (infer_protocol_rejected w _ Hh) in E. discriminate. }
  cbn [bind]. rewrite open_rb_run.
  destruct (Posix.stat _ _ uri) as [e|[b|es]]; cbn [bind ret fst];
    apply Forall_app; split; try assumption;
    (constructor; [discriminate | constructor]).
Qed.

Lemma infer_accesses uri mimetype :
  fst (FileIO.infer_file_type_from_uri L w uri mimetype)
  = fst (FileIO.get w uri).
Proof.
  unfold FileIO.infer_file_type_from_uri.
  pose proof (infer_from_name_no_access L uri mimetype) as F.
  destruct (FileIO.get w uri) as [evs [e|[b|]]]; cbn [bind fst];
    [reflexivity | |].
  - destruct (guess_file_type L b mimetype).
    + cbn [ret]. apply app_nil_r.
    + destruct (FileIO.infer_from_name L uri mimetype). simpl in F.
      subst. apply app_nil_r.
  - destruct (FileIO.infer_from_name L uri mimetype). simpl in F.
    subst. apply app_nil_r.
Qed.

Lemma scan_csv_local uri :
  snd (FileIO._infer_protocol w uri) = inr FILE ->
  avoids HttpGet (Gen.events (FileIO.scan_csv L w uri)).
Proof.
  intros H. unfold FileIO.scan_csv. rewrite events_perform.
  apply Forall_app. split; [now apply get_local_accesses|].
  destruct (snd (FileIO.get w uri)) as [e|[b|]]; try constructor.
  destruct (decode_utf8 L b); [|constructor].
  rewrite (GenFacts.events_for_each_yield (fun row => Row row)).
  rewrite events_ending. constructor.
Qed.

Lemma scan_text_stream_local c uri :
  avoids HttpGet (Gen.events (FileIO.scan_text_stream L w c uri)).
Proof.
  unfold FileIO.scan_text_stream. apply avoids_open_rb. intros b.
  rewrite (GenFacts.events_for_each_yield
             (fun row => Text (FileIO.strip_newlines row))).
  rewrite events_ending. constructor.
Qed.

Lemma scan_csv_zip_local uri :
  avoids HttpGet (Gen.events (FileIO.scan_csv_zip L w uri)).
Proof.
  unfold FileIO.scan_csv_zip. apply avoids_open_rb. intros b.
  destruct (zip_namelist L b) as [e|names]; [constructor|].
  apply avoids_for_each; [|constructor].
  intros ffile k Hk. apply avoids_open_rb. intros b'.
  unfold FileIO.zip_rows. apply avoids_for_each.
  - intros row k' Hk'. now destruct (decode_utf8 L row); [|constructor].
  - now destruct (snd (zip_member_lines L b' ffile)); [constructor|].
Qed.

Lemma scan_directory_local uri :
  avoids HttpGet (Gen.events (FileIO.scan_directory w uri)).
Proof.
  unfold FileIO.scan_directory.
  destruct (FileIO.os_walk w uri) as [|entry entries].
  - constructor; [discriminate | constructor].
  - apply avoids_for_each; [|constructor].
    intros [[root dirs] files] k Hk. cbn [Gen.events].
    constructor; [discriminate|].
    now rewrite (GenFacts.events_for_each_yield
                   (fun ffile => Text (Posix.abspath (fs_cwd w)
                                         (root ++ "/" ++ ffile)))).
Qed.

Lemma scan_dispatch_local uri t :
  snd (FileIO._infer_protocol w uri) = inr FILE ->
  avoids HttpGet (Gen.events (FileIO.scan_dispatch L w uri t)).
Proof.
  intros H. unfold FileIO.scan_dispatch.
  repeat match goal with
         | |- context [if ?c then _ else _] => destruct c
         end;
    first [ now apply scan_csv_local
          | apply scan_text_stream_local
          | apply scan_csv_zip_local
          | constructor ].
Qed.

End Strategies.

(** X18. A scan of a location classified [FILE] never makes an HTTP
    GET. *)
Lemma scan_local_stays_local (L : Library) (w : World) (uri : string) :
  snd (FileIO._infer_protocol w uri) = inr FILE ->
  ~ uses HttpGet (Gen.events (FileIO.scan L w uri)).
Proof.
  intros H. apply avoids_not_uses. unfold FileIO.scan.
  apply avoids_try_except; [|apply scan_directory_local].
  rewrite events_perform, infer_accesses.
  apply Forall_app. split; [now apply get_local_accesses|].
  destruct (snd (FileIO.infer_file_type_from_uri L w uri false));
    [constructor | now apply scan_dispatch_local].
Qed.

(** X19. The plain/CSV scanner fetches a location classified [HTTP] with
    one HTTP GET and touches nothing local. *)
Lemma scan_csv_remote_stays_remote (L : Library) (w : World) (uri : string) :
  http_family uri = Some true ->
  Gen.events (FileIO.scan_csv L w uri) = [EvUrlopen uri].
Proof.
  intros H. unfold FileIO.scan_csv.
  rewrite events_perform, (get_http w _ H). cbn [fst snd].
  destruct (urlopen_read w uri) as [e|b]; [reflexivity|].
  destruct (decode_utf8 L b); [|reflexivity].
  rewrite (GenFacts.events_for_each_yield (fun row => Row row)).
  now rewrite events_ending.
Qed.

(** C4 at a failing input. [http://example.com/rows.csv.gz] is classified
    HTTP and its body is a gzip file: the scan fetches it with an HTTP GET,
    then opens the same string as a path of the local filesystem, where
    nothing exists, and fails. *)
Theorem scan_remote_gzip_mixes_strategies :
  snd (FileIO._infer_protocol Sample.world Sample.remote_gz) = inr HTTP
  /\ snd (FileIO.infer_file_type_from_uri Sample.lib Sample.world
            Sample.remote_gz false) = inr "GZP"
  /\ Gen.events (FileIO.scan Sample.lib Sample.world Sample.remote_gz)
     = [EvUrlopen Sample.remote_gz; EvOpen Sample.remote_gz]
  /\ uses HttpGet
          (Gen.events (FileIO.scan Sample.lib Sample.world Sample.remote_gz))
  /\ uses LocalFilesystem
          (Gen.events (FileIO.scan Sample.lib Sample.world Sample.remote_gz))
  /\ Gen.items (FileIO.scan Sample.lib Sample.world Sample.remote_gz) = []
  /\ Gen.outcome (FileIO.scan Sample.lib Sample.world Sample.remote_gz)
     = Some FileNotFoundError.
Proof.
  repeat split.
  - exists (EvUrlopen Sample.remote_gz). split; [left|]; reflexivity.
  - exists (EvOpen Sample.remote_gz). split; [right; left|]; reflexivity.
Qed.

(** ** The scanners of compressed sources *)

Section Compressed.

Variable L : Library.
Variable w : World.

Lemma stripped_no_newline lines :
  Forall no_newline (List.map stripped lines).
Proof.
  apply Forall_forall. intros it Hin.
  apply in_map_iff in Hin as (l & <- & _).
  exists (FileIO.strip_newlines l). split; [reflexivity|].
  apply contains_remove.
Qed.

Lemma scan_text_stream_intact c uri b lines :
  Posix.stat (fs_root w) (fs_cwd w) uri = inr (File b) ->
  text_lines L c b = (lines, None) ->
  Gen.items (FileIO.scan_text_stream L w c uri) = List.map stripped lines
  /\ Gen.outcome (FileIO.scan_text_stream L w c uri) = None.
Proof.
  intros Hs Ht. unfold FileIO.scan_text_stream, Gen.perform.
  rewrite open_rb_run, Hs. simpl. rewrite Ht. simpl.
  rewrite GenFacts.items_for_each_yield, GenFacts.outcome_for_each_yield.
  simpl. now rewrite app_nil_r.
Qed.

Lemma zip_rows_decoded rows : forall l after,
    decode_all L rows = Some l ->
    Gen.items (FileIO.zip_rows L rows after)
    = List.map stripped l ++ Gen.items after
    /\ Gen.outcome (FileIO.zip_rows L rows after) = Gen.outcome after.
Proof.
  unfold FileIO.zip_rows.
  induction rows as [|row rows IH]; intros l after H; simpl in H.
  - injection H as <-. now split.
  - destruct (decode_utf8 L row) as [s|] eqn:Hd; [|discriminate].
    destruct (decode_all L rows) as [l'|]; [|discriminate].
    injection H as <-. simpl. rewrite Hd. simpl.
    destruct (IH l' after eq_refl) as [-> ->]. now split.
Qed.

Lemma zip_loop_cons uri name names :
  zip_loop L w uri (name :: names)
  = Gen.perform (FileIO.open_rb w uri) (fun b' =>
      FileIO.zip_rows L (fst (zip_member_lines L b' name))
        (match snd (zip_member_lines L b' name) with
         | None => zip_loop L w uri names
         | Some e => Raise e
         end)).
Proof. reflexivity. Qed.

Lemma zip_loop_intact uri b names : forall lines,
    Posix.stat (fs_root w) (fs_cwd w) uri = inr (File b) ->
    members_lines L b names = Some lines ->
    Gen.items (zip_loop L w uri names) = List.map stripped lines
    /\ Gen.outcome (zip_loop L w uri names) = None.
Proof.
  induction names as [|name names IH]; intros lines Hs H; simpl in H.
  - injection H as <-. now split.
  - destruct (zip_member_lines L b name) as [rows [e|]] eqn:Hm;
      [discriminate|].
    destruct (decode_all L rows) as [l|] eqn:Hd; [|discriminate].
    destruct (members_lines L b names) as [l'|]; [|discriminate].
    injection H as <-.
    rewrite zip_loop_cons. unfold Gen.perform.
    rewrite open_rb_run, Hs.
    cbn [fst snd Gen.emit fold_right Gen.items Gen.outcome].
    rewrite Hm. cbn [fst snd].
    destruct (IH l' Hs eq_refl) as [Hi Ho].
    destruct (zip_rows_decoded rows l (zip_loop L w uri names) Hd)
      as [-> ->].
    rewrite Hi, Ho, map_app. now split.
Qed.

Lemma scan_csv_zip_intact uri b lines :
  Posix.stat (fs_root w) (fs_cwd w) uri = inr (File b) ->
  contained_lines L ZipArchive b = Some lines ->
  Gen.items (FileIO.scan_csv_zip L w uri) = List.map stripped lines
  /\ Gen.outcome (FileIO.scan_csv_zip L w uri) = None.
Proof.
  intros Hs H. simpl in H.
  destruct (zip_namelist L b) as [e|names] eqn:Hn; [discriminate|].
  change (FileIO.scan_csv_zip L w uri)
    with (Gen.perform (FileIO.open_rb w uri) (fun b0 =>
            match zip_namelist L b0 with
            | inl e => Raise e
            | inr names0 => zip_loop L w uri names0
            end)).
  unfold Gen.perform. rewrite open_rb_run, Hs.
  cbn [fst snd Gen.emit fold_right Gen.items Gen.outcome]. rewrite Hn.
  exact (zip_loop_intact uri b names lines Hs H).
Qed.

End Compressed.

(** For every compressed source (a gzip, bzip2 or xz file, or a zip
    archive) that is intact and whose reader delivers the lines [lines],
    the scanner of its kind yields one item per line, in the order of the
    lines (for an archive: member after member in the order of the
    listing), each item being the line without its line feeds, and then
    ends normally. *)
Theorem compressed_scanner_yields_lines
        (L : Library) (w : World) (k : container) (uri : string)
        (b : list byte) (lines : list string) :
  Posix.stat (fs_root w) (fs_cwd w) uri = inr (File b) ->
  contained_lines L k b = Some lines ->
  Gen.items (container_scanner L w k uri)
  = List.map (fun line => Text (PyStr.remove PyStr.LF line)) lines
  /\ List.length (Gen.items (container_scanner L w k uri))
     = List.length lines
  /\ Gen.outcome (container_scanner L w k uri) = None
  /\ Forall no_newline (Gen.items (container_scanner L w k uri)).
Proof.
  intros Hs H.
  assert (E : Gen.items (container_scanner L w k uri)
              = List.map stripped lines
              /\ Gen.outcome (container_scanner L w k uri) = None).
  { destruct k as [c|].
    - simpl in H.
      destruct (text_lines L c b) as [ls [e|]] eqn:Ht; [discriminate|].
      injection H as ->.
      destruct c; exact (scan_text_stream_intact L w _ uri b lines Hs Ht).
    - exact (scan_csv_zip_intact L w uri b lines Hs H). }
  destruct E as [Ei Eo]. rewrite Ei. repeat split.
  - apply length_map.
  - exact Eo.
  - apply stripped_no_newline.
Qed.

Lemma compressed_scanner_yields_lines_witness :
  Gen.items (FileIO.scan_csv_gzip Sample.lib Sample.world "rows.gz")
  = [Text "r1"; Text "r2"; Text "r3"]
  /\ Gen.items (FileIO.scan_csv_zip Sample.lib Sample.world "rows.zip")
     = [Text "a"; Text "b"; Text "c"].
Proof.
  split.
  - apply (compressed_scanner_yields_lines
             Sample.lib Sample.world (Stream Gzip) "rows.gz"
             (Sample.gz (Sample.text ("r1" ++ Sample.LF ++ "r2" ++ Sample.LF
                                      ++ "r3")))
             ["r1" ++ Sample.LF; "r2" ++ Sample.LF; "r3"]%string);
      reflexivity.
  - apply (compressed_scanner_yields_lines
             Sample.lib Sample.world ZipArchive "rows.zip"
             (Sample.zip
                (Sample.text "m1" ++ [x00]
                 ++ Sample.text ("a" ++ Sample.LF ++ "b" ++ Sample.LF)
                 ++ [x00] ++ Sample.text "m2" ++ [x00]
                 ++ Sample.text ("c" ++ Sample.LF) ++ [x00]))
             ["a" ++ Sample.LF; "b" ++ Sample.LF; "c" ++ Sample.LF]%string);
      reflexivity.
Defined.

(** ** Scanning a directory *)

Section Directory.

Lemma walk_node_dir top es :
  Posix.walk_node top (Dir es)
  = (top, Posix.names_where Posix.is_dir es,
     Posix.names_where (fun x => negb (Posix.is_dir x)) es)
      :: flat_map (fun e => Posix.walk_node (Posix.join top (fst e)) (snd e))
                  es.
Proof.
  simpl. f_equal.
  induction es as [|[name sub] es IH]; [reflexivity|].
  simpl. now rewrite <- IH.
Qed.

Lemma count_files_dir es :
  Posix.count_files (Dir es)
  = list_sum (List.map (fun e => Posix.count_files (snd e)) es).
Proof.
  simpl.
  induction es as [|[name sub] es IH]; [reflexivity|].
  simpl. now rewrite <- IH.
Qed.

Variable cwd : list string.

Lemma walked_paths_app l l' :
  walked_paths cwd (l ++ l') = walked_paths cwd l ++ walked_paths cwd l'.
Proof. apply flat_map_app. Qed.

Lemma walked_paths_cons root dirs files l :
  List.length (walked_paths cwd ((root, dirs, files) :: l))
  = List.length files + List.length (walked_paths cwd l).
Proof.
  unfold walked_paths. simpl. now rewrite length_app, length_map.
Qed.

(** [os.walk] lists every regular file of the tree once. *)
Lemma walked_paths_count n : forall top,
    List.length (walked_paths cwd (Posix.walk_node top n))
    + (if Posix.is_dir n then 0 else 1)
    = Posix.count_files n.
Proof.
  induction n as [b | es IH] using node_rect'; intros top.
  - reflexivity.
  - rewrite walk_node_dir, count_files_dir, walked_paths_cons.
    cbn [Posix.is_dir]. rewrite Nat.add_0_r.
    induction IH as [|[name sub] es Hsub _ IHes]; [reflexivity|].
    cbn [flat_map List.map list_sum fst snd].
    rewrite walked_paths_app, length_app.
    specialize (Hsub (Posix.join top name)). cbn [snd] in Hsub.
    rewrite <- Hsub.
    unfold Posix.names_where in *. cbn [List.filter snd].
    unfold list_sum in *.
    destruct (Posix.is_dir sub);
      cbn [negb List.map List.length fst fold_right]; lia.
Qed.

Lemma isabs_cons c s : Posix.isabs (String c s) = Ascii.eqb c "/".
Proof.
  unfold Posix.isabs, PyStr.startswith.
  change (String.prefix "/" (String c s))
    with (if ascii_dec "/" c then String.prefix "" s else false).
  destruct (ascii_dec "/" c) as [<-|H].
  - now destruct s.
  - symmetry. apply Ascii.eqb_neq. congruence.
Qed.

Lemma normpath_isabs path :
  Posix.isabs path = true -> Posix.isabs (Posix.normpath path) = true.
Proof.
  intros H. destruct path as [|c path]; [discriminate|].
  unfold Posix.normpath, Posix.initial_slashes.
  change (PyStr.startswith (String c path) "/")
    with (Posix.isabs (String c path)).
  rewrite H. cbn [String.eqb].
  destruct (_ && _)%bool; cbn [String.append String.eqb];
    now rewrite isabs_cons.
Qed.

Lemma join_isabs a b :
  Posix.isabs a = true -> Posix.isabs (Posix.join a b) = true.
Proof.
  intros H. destruct a as [|c a]; [discriminate|].
  rewrite isabs_cons in H. unfold Posix.join. cbn [String.eqb].
  destruct (PyStr.ends_with_slash _); simpl String.append;
    now rewrite isabs_cons.
Qed.

Lemma abspath_isabs path : Posix.isabs (Posix.abspath cwd path) = true.
Proof.
  unfold Posix.abspath. apply normpath_isabs.
  destruct (Posix.isabs path) eqn:H; [exact H|].
  apply join_isabs. unfold Posix.getcwd. cbn [String.append].
  now rewrite isabs_cons.
Qed.

Lemma walked_paths_absolute entries :
  Forall is_absolute_path (List.map Text (walked_paths cwd entries)).
Proof.
  apply Forall_forall. intros it Hin.
  apply in_map_iff in Hin as (p & <- & Hp).
  exists p. split; [reflexivity|].
  unfold walked_paths in Hp.
  apply in_flat_map in Hp as ([[root dirs] files] & _ & Hp).
  apply in_map_iff in Hp as (ffile & <- & _). apply abspath_isabs.
Qed.

End Directory.

(** ** The walked paths name the files of the tree *)

Section PathStrings.

Lemma split_nonempty sep s : PyStr.split sep s <> [].
Proof.
  destruct s as [|c s]; simpl; [discriminate|].
  destruct (Ascii.eqb c sep); [discriminate|].
  destruct (PyStr.split sep s); discriminate.
Qed.

Lemma split_app_sep sep a b :
  PyStr.split sep (a ++ String sep b)
  = PyStr.split sep a ++ PyStr.split sep b.
Proof.
  induction a as [|c a IH]; simpl.
  - now rewrite Ascii.eqb_refl.
  - destruct (Ascii.eqb c sep); [now rewrite IH|].
    rewrite IH. pose proof (split_nonempty sep a) as Hn.
    destruct (PyStr.split sep a); [contradiction | reflexivity].
Qed.

Lemma split_no_sep sep s :
  PyStr.contains sep s = false -> PyStr.split sep s = [s].
Proof.
  induction s as [|c s IH]; simpl; [reflexivity|].
  intros H. apply orb_false_iff in H as [Hc Hs].
  rewrite Ascii.eqb_sym, Hc, (IH Hs). reflexivity.
Qed.

Lemma split_fields_no_sep sep s :
  Forall (fun f => PyStr.contains sep f = false) (PyStr.split sep s).
Proof.
  induction s as [|c s IH]; simpl.
  - constructor; [reflexivity | constructor].
  - destruct (Ascii.eqb c sep) eqn:E.
    + constructor; [reflexivity | exact IH].
    + destruct (PyStr.split sep s) as [|f fs].
      * constructor; [|constructor]. simpl.
        now rewrite Ascii.eqb_sym, E.
      * inversion IH as [|? ? Hf Hfs]; subst.
        constructor; [|assumption]. simpl.
        now rewrite Ascii.eqb_sym, E.
Qed.

Lemma proper_name_spec s :
  proper_name s = true ->
  s <> "" /\ PyStr.contains "/" s = false /\ s <> "." /\ s <> "..".
Proof.
  unfold proper_name. intros H.
  repeat (apply andb_true_iff in H as [H ?]).
  repeat split.
  - intros ->. discriminate.
  - now apply negb_true_iff.
  - intros ->. discriminate.
  - intros ->. discriminate.
Qed.

Lemma split_join names :
  Forall (fun n => proper_name n = true) names -> names <> [] ->
  PyStr.split "/" (PyStr.join "/" names) = names.
Proof.
  induction names as [|x names IH]; intros H Hne; [contradiction|].
  inversion H as [|? ? Hx Hrest]; subst.
  destruct (proper_name_spec _ Hx) as (_ & Hs & _).
  destruct names as [|y names].
  - simpl. now apply split_no_sep.
  - change (PyStr.join "/" (x :: y :: names))
      with (x ++ String "/" (PyStr.join "/" (y :: names)))%string.
    rewrite split_app_sep, (split_no_sep _ _ Hs), IH; auto. discriminate.
Qed.

Lemma append_nil_r (s : string) : (s ++ "")%string = s.
Proof. induction s; simpl; congruence. Qed.

Lemma append_assoc (a b c : string) :
  ((a ++ b) ++ c)%string = (a ++ (b ++ c))%string.
Proof. induction a; simpl; congruence. Qed.

(** A string that ends with a slash. *)
Lemma ends_with_slash_inv s :
  PyStr.ends_with_slash s = true -> exists s', s = (s' ++ "/")%string.
Proof.
  unfold PyStr.ends_with_slash. intros H.
  assert (G : forall l,
             match List.rev l with
             | c :: _ => Ascii.eqb c "/"
             | [] => false
             end = true ->
             exists s', string_of_list_ascii l = (s' ++ "/")%string).
  { intros l Hl. destruct (List.rev l) as [|c r] eqn:E; [discriminate|].
    apply Ascii.eqb_eq in Hl. subst c.
    apply (f_equal (@List.rev ascii)) in E. rewrite rev_involutive in E.
    subst l. simpl. exists (string_of_list_ascii (List.rev r)).
    generalize (List.rev r) as l. intros l.
    induction l as [|c l IH]; simpl; congruence. }
  destruct (G _ H) as [s' Hs'].
  rewrite string_of_list_ascii_of_string in Hs'. now exists s'.
Qed.

End PathStrings.

Section PathLookup.

Variable root : node.




Lemma node_at_app n p q :
  Posix.node_at n (p ++ q)
  = match Posix.node_at n p with
    | Some m => Posix.node_at m q
    | None => None
    end.
Proof.
  revert n. induction p as [|c p IH]; intros n; simpl; [reflexivity|].
  destruct n as [b|es]; [reflexivity|].
  destruct (Posix.lookup c es); auto.
Qed.

Lemma node_at_through_dir n p c q m :
  Posix.node_at n (p ++ c :: q) = Some m ->
  exists es, Posix.node_at n p = Some (Dir es)
             /\ Posix.node_at n (p ++ [c]) <> None.
Proof.
  intros H.
  assert (H' : Posix.node_at n ((p ++ [c]) ++ q) = Some m)
    by now rewrite <- app_assoc.
  rewrite node_at_app in H, H'.
  destruct (Posix.node_at n p) as [[b|es]|]; try discriminate.
  exists es. split; [reflexivity|].
  destruct (Posix.node_at n (p ++ [c])); [discriminate | discriminate].
Qed.

Lemma walk_name at0 c cs :
  proper_name c = true ->
  Posix.walk_components root at0 (c :: cs)
  = match Posix.node_at root at0 with
    | Some (Dir _) =>
        match Posix.node_at root (at0 ++ [c]) with
        | Some _ => Posix.walk_components root (at0 ++ [c]) cs
        | None => inl FileNotFoundError
        end
    | Some (File _) => inl NotADirectoryError
    | None => inl FileNotFoundError
    end.
Proof.
  intros H. destruct (proper_name_spec _ H) as (H1 & _ & H2 & H3).
  simpl.
  apply String.eqb_neq in H1, H2, H3. now rewrite H1, H2, H3.
Qed.

Lemma walk_names names : forall at0 n,
    Forall (fun x => proper_name x = true) names ->
    Posix.node_at root (at0 ++ names) = Some n ->
    Posix.walk_components root at0 names = inr (at0 ++ names).
Proof.
  induction names as [|c cs IH]; intros at0 n Hp Hn.
  - simpl. now rewrite app_nil_r.
  - inversion Hp as [|? ? Hc Hcs]; subst.
    rewrite (walk_name _ _ _ Hc).
    destruct (node_at_through_dir _ _ _ _ _ Hn) as (es & -> & Hsome).
    destruct (Posix.node_at root (at0 ++ [c])) eqn:E; [|contradiction].
    rewrite (IH (at0 ++ [c]) n Hcs); rewrite <- app_assoc; auto.
Qed.

Lemma walk_app c1 : forall at0 c2,
    Posix.walk_components root at0 (c1 ++ c2)
    = match Posix.walk_components root at0 c1 with
      | inl e => inl e
      | inr at1 => Posix.walk_components root at1 c2
      end.
Proof.
  induction c1 as [|c c1 IH]; intros at0 c2; simpl; [reflexivity|].
  destruct (Posix.node_at root at0) as [[b|es]|]; try reflexivity.
  destruct (_ || _)%bool; [apply IH|].
  destruct (String.eqb c ".."); [apply IH|].
  destruct (Posix.node_at root (at0 ++ [c])); [apply IH | reflexivity].
Qed.

Lemma walk_skip at0 cs es :
  Posix.node_at root at0 = Some (Dir es) ->
  Posix.walk_components root at0 ("" :: cs)
  = Posix.walk_components root at0 cs.
Proof. intros H. simpl. now rewrite H. Qed.

(** A walk that passes through at least one component starts in a
    directory. *)
Lemma walk_starts_in_dir at0 c cs pos :
  Posix.walk_components root at0 (c :: cs) = inr pos ->
  exists es, Posix.node_at root at0 = Some (Dir es).
Proof.
  simpl. destruct (Posix.node_at root at0) as [[b|es]|]; try discriminate.
  now exists es.
Qed.

Lemma Forall_removelast {X} (P : X -> Prop) l :
  Forall P l -> Forall P (List.removelast l).
Proof.
  induction l as [|x l IH]; intros H; [constructor|].
  inversion H; subst. simpl. destruct l; [constructor|].
  constructor; auto.
Qed.

Lemma proper_intro c :
  String.eqb c "" = false -> String.eqb c "." = false ->
  String.eqb c ".." = false -> PyStr.contains "/" c = false ->
  proper_name c = true.
Proof.
  intros H1 H2 H3 H4. unfold proper_name. rewrite H2, H3, H4.
  destruct c; [discriminate | reflexivity].
Qed.

Lemma last_proper at0 :
  Forall (fun x => proper_name x = true) at0 ->
  match List.rev at0 with
  | l :: _ => String.eqb l ".."
  | [] => false
  end = false.
Proof.
  intros H. destruct (List.rev at0) as [|l r] eqn:E; [reflexivity|].
  assert (Hin : In l at0).
  { apply in_rev. rewrite E. now left. }
  rewrite Forall_forall in H. specialize (H l Hin).
  destruct (proper_name_spec _ H) as (_ & _ & _ & H3).
  now apply String.eqb_neq.
Qed.

(** The position a lookup reaches is what [normpath] computes from the
    components, and it is made of proper names. *)
Lemma walk_normalizes i comps : forall at0 pos,
    Posix.walk_components root at0 comps = inr pos ->
    Forall (fun x => proper_name x = true) at0 ->
    Forall (fun f => PyStr.contains "/" f = false) comps ->
    Posix.norm_comps (S i) at0 comps = pos
    /\ Forall (fun x => proper_name x = true) pos.
Proof.
  induction comps as [|c cs IH]; intros at0 pos H Hat Hc; simpl in *.
  - injection H as <-. now split.
  - inversion Hc as [|? ? Hc1 Hcs]; subst.
    destruct (Posix.node_at root at0) as [[b|es]|]; try discriminate.
    destruct (String.eqb c "" || String.eqb c ".")%bool eqn:E1;
      [now apply IH|].
    apply orb_false_iff in E1 as [E1 E2].
    destruct (String.eqb c "..") eqn:E3.
    + simpl. rewrite (last_proper _ Hat). simpl.
      apply IH; auto using Forall_removelast.
    + simpl.
      destruct (Posix.node_at root (at0 ++ [c])); [|discriminate].
      apply IH; auto.
      apply Forall_app. split; [assumption|].
      constructor; [|constructor]. now apply proper_intro.
Qed.

End PathLookup.

Section PathResolution.

Variable root : node.
Variable cwd : list string.

Lemma stat_inv path n :
  Posix.stat root cwd path = inr n ->
  path <> ""
  /\ exists pos,
      Posix.walk_components root (if Posix.isabs path then [] else cwd)
                            (PyStr.split "/" path) = inr pos
      /\ Posix.node_at root pos = Some n.
Proof.
  unfold Posix.stat. destruct (String.eqb_spec path ""); [discriminate|].
  destruct (Posix.walk_components _ _ _) as [e|pos]; [discriminate|].
  destruct (Posix.node_at root pos) as [m|] eqn:E; [|discriminate].
  intros [= ->]. split; [assumption|]. now exists pos.
Qed.

Lemma stat_intro path pos n :
  path <> "" ->
  Posix.walk_components root (if Posix.isabs path then [] else cwd)
                        (PyStr.split "/" path) = inr pos ->
  Posix.node_at root pos = Some n ->
  Posix.stat root cwd path = inr n.
Proof.
  intros Hne Hw Hn. unfold Posix.stat.
  destruct (String.eqb_spec path ""); [contradiction|].
  now rewrite Hw, Hn.
Qed.

Lemma root_is_dir_of_walk at0 comps pos :
  comps <> [] ->
  Posix.walk_components root at0 comps = inr pos ->
  exists es, Posix.node_at root at0 = Some (Dir es).
Proof.
  destruct comps as [|c cs]; [contradiction|]. intros _.
  apply walk_starts_in_dir.
Qed.

(** A slash, or two, followed by the names of a position, leads to that
    position. *)
Lemma walk_slash_names es0 pos n :
  root = Dir es0 ->
  Forall (fun x => proper_name x = true) pos ->
  Posix.node_at root pos = Some n ->
  Posix.walk_components root [] ("" :: PyStr.split "/" (PyStr.join "/" pos))
  = inr pos.
Proof.
  intros Hr Hp Hn.
  rewrite (walk_skip root [] _ es0) by now rewrite Hr.
  destruct pos as [|x pos].
  - simpl PyStr.join. simpl PyStr.split.
    rewrite (walk_skip root [] _ es0) by now rewrite Hr. reflexivity.
  - rewrite split_join by (auto; discriminate).
    now rewrite (walk_names root (x :: pos) [] n).
Qed.

Lemma normpath_stat path n :
  Posix.isabs path = true ->
  Posix.stat root cwd path = inr n ->
  Posix.stat root cwd (Posix.normpath path) = inr n.
Proof.
  intros Habs H. destruct (stat_inv _ _ H) as (Hne & pos & Hw & Hn).
  rewrite Habs in Hw.
  destruct (root_is_dir_of_walk _ _ _ (split_nonempty _ _) Hw)
    as [es0 Hroot].
  simpl in Hroot. injection Hroot as Hroot.
  unfold Posix.normpath.
  destruct (String.eqb_spec path ""); [contradiction|].
  unfold Posix.initial_slashes.
  change (PyStr.startswith path "/") with (Posix.isabs path).
  rewrite Habs.
  destruct (_ && _)%bool.
  - destruct (walk_normalizes root 1 _ _ _ Hw (Forall_nil _)
                (split_fields_no_sep _ _)) as [-> Hp].
    cbn [String.append String.eqb].
    apply (stat_intro _ pos); [discriminate | | assumption].
    rewrite isabs_cons. cbn [Ascii.eqb Bool.eqb].
    change (PyStr.split "/" (String "/" (String "/" (PyStr.join "/" pos))))
      with ("" :: "" :: PyStr.split "/" (PyStr.join "/" pos)).
    rewrite (walk_skip root [] _ es0) by now rewrite Hroot.
    now apply (walk_slash_names es0 pos n).
  - destruct (walk_normalizes root 0 _ _ _ Hw (Forall_nil _)
                (split_fields_no_sep _ _)) as [-> Hp].
    cbn [String.append String.eqb].
    apply (stat_intro _ pos); [discriminate | | assumption].
    rewrite isabs_cons. cbn [Ascii.eqb Bool.eqb].
    change (PyStr.split "/" (String "/" (PyStr.join "/" pos)))
      with ("" :: PyStr.split "/" (PyStr.join "/" pos)).
    now apply (walk_slash_names es0 pos n).
Qed.

Lemma join_shape a b : a <> "" -> exists r, Posix.join a b = (a ++ r)%string.
Proof.
  intros H. unfold Posix.join.
  destruct (String.eqb_spec a ""); [contradiction|].
  destruct (PyStr.ends_with_slash a); eauto.
Qed.

(** Looking up [join a b] is looking up the components of [a], then those
    of [b]. *)
Lemma join_walk a b at0 :
  a <> "" ->
  Posix.walk_components root at0 (PyStr.split "/" (Posix.join a b))
  = Posix.walk_components root at0 (PyStr.split "/" a ++ PyStr.split "/" b).
Proof.
  intros H. unfold Posix.join.
  destruct (String.eqb_spec a ""); [contradiction|].
  destruct (PyStr.ends_with_slash a) eqn:E.
  - apply ends_with_slash_inv in E as [a' ->].
    rewrite append_assoc. cbn [String.append].
    rewrite !split_app_sep. cbn [PyStr.split].
    rewrite <- app_assoc. rewrite !walk_app.
    destruct (Posix.walk_components root at0 (PyStr.split "/" a'))
      as [e|at1]; [reflexivity|].
    pose proof (split_nonempty "/" b) as Hb.
    destruct (PyStr.split "/" b) as [|c cs]; [contradiction|].
    cbn [app]. simpl.
    destruct (Posix.node_at root at1) as [[x|es]|]; reflexivity.
  - cbn [String.append]. now rewrite split_app_sep.
Qed.

Lemma walk_getcwd es :
  Forall (fun x => proper_name x = true) cwd ->
  Posix.node_at root cwd = Some (Dir es) ->
  Posix.walk_components root [] (PyStr.split "/" (Posix.getcwd cwd))
  = inr cwd.
Proof.
  intros Hp Hn. unfold Posix.getcwd. cbn [String.append].
  change (PyStr.split "/" (String "/" (PyStr.join "/" cwd)))
    with ("" :: PyStr.split "/" (PyStr.join "/" cwd)).
  assert (Hr : exists es0, root = Dir es0).
  { destruct cwd as [|c cs].
    - simpl in Hn. injection Hn as ->. now exists es.
    - destruct (node_at_through_dir root [] c cs _ Hn) as (es0 & H0 & _).
      simpl in H0. injection H0 as ->. now exists es0. }
  destruct Hr as [es0 Hr].
  now apply (walk_slash_names es0 cwd (Dir es)).
Qed.

Lemma abspath_stat path n es :
  Forall (fun x => proper_name x = true) cwd ->
  Posix.node_at root cwd = Some (Dir es) ->
  Posix.stat root cwd path = inr n ->
  Posix.stat root cwd (Posix.abspath cwd path) = inr n.
Proof.
  intros Hp Hc H. unfold Posix.abspath.
  destruct (Posix.isabs path) eqn:Habs; [now apply normpath_stat|].
  assert (Hg : Posix.isabs (Posix.getcwd cwd) = true).
  { unfold Posix.getcwd. cbn [String.append]. now rewrite isabs_cons. }
  assert (Hgne : Posix.getcwd cwd <> "")
    by (unfold Posix.getcwd; cbn [String.append]; discriminate).
  apply normpath_stat; [now apply join_isabs|].
  destruct (stat_inv _ _ H) as (Hne & pos & Hw & Hn).
  rewrite Habs in Hw.
  apply (stat_intro _ pos); [| |assumption].
  - destruct (join_shape (Posix.getcwd cwd) path Hgne) as [r ->].
    unfold Posix.getcwd. cbn [String.append]. discriminate.
  - rewrite (join_isabs _ _ Hg).
    rewrite (join_walk _ _ _ Hgne), walk_app.
    now rewrite (walk_getcwd es Hp Hc).
Qed.

Lemma isabs_append a r : a <> "" -> Posix.isabs (a ++ r) = Posix.isabs a.
Proof.
  destruct a as [|c a]; [contradiction|]. intros _.
  cbn [String.append]. now rewrite !isabs_cons.
Qed.

(** An entry of a directory, reached by either spelling [scan] and
    [os.walk] use. *)
Lemma stat_child top es name sub :
  Posix.stat root cwd top = inr (Dir es) ->
  proper_name name = true ->
  Posix.lookup name es = Some sub ->
  Posix.stat root cwd (top ++ "/" ++ name) = inr sub
  /\ Posix.stat root cwd (Posix.join top name) = inr sub.
Proof.
  intros H Hp Hl. destruct (stat_inv _ _ H) as (Hne & pos & Hw & Hn).
  destruct (proper_name_spec _ Hp) as (_ & Hs & _).
  assert (Hsub : Posix.node_at root (pos ++ [name]) = Some sub).
  { rewrite node_at_app, Hn. simpl. now rewrite Hl. }
  assert (Hwalk : Posix.walk_components root
                    (if Posix.isabs top then [] else cwd)
                    (PyStr.split "/" top ++ PyStr.split "/" name)
                  = inr (pos ++ [name])).
  { rewrite walk_app, Hw, (split_no_sep _ _ Hs).
    apply (walk_names root [name] pos sub); auto. }
  split.
  - apply (stat_intro _ (pos ++ [name])); [| |assumption].
    + destruct top; [contradiction | discriminate].
    + rewrite (isabs_append _ _ Hne). cbn [String.append].
      now rewrite split_app_sep.
  - destruct (join_shape top name Hne) as [r Hr].
    apply (stat_intro _ (pos ++ [name])); [| |assumption].
    + rewrite Hr. destruct top; [contradiction | discriminate].
    + rewrite Hr at 1. rewrite (isabs_append _ _ Hne).
      now rewrite (join_walk _ _ _ Hne).
Qed.

End PathResolution.

Section WellFormed.

Lemma wf_node_dir es :
  wf_node (Dir es) = true ->
  Forall (fun x => proper_name x = true) (List.map fst es)
  /\ distinct (List.map fst es) = true
  /\ Forall (fun e => wf_node (snd e) = true) es.
Proof.
  simpl. intros H. apply andb_true_iff in H as [H Hc].
  apply andb_true_iff in H as [Hp Hd].
  split; [apply Forall_forall; now apply forallb_forall|].
  split; [assumption|].
  clear Hp Hd. induction es as [|[name sub] es IH]; [constructor|].
  apply andb_true_iff in Hc as [Hs Hc]. constructor; auto.
Qed.

Lemma lookup_distinct es name sub :
  distinct (List.map fst es) = true ->
  In (name, sub) es ->
  Posix.lookup name es = Some sub.
Proof.
  induction es as [|[n0 x0] es IH]; intros Hd Hin; [contradiction|].
  simpl in Hd. apply andb_true_iff in Hd as [Hn Hd].
  apply negb_true_iff in Hn. simpl.
  destruct (String.eqb_spec n0 name) as [->|Hne].
  - destruct Hin as [[= ->]|Hin]; [reflexivity|].
    exfalso. apply Bool.not_true_iff_false in Hn. apply Hn.
    apply existsb_exists. exists name. split; [|apply String.eqb_refl].
    apply in_map_iff. now exists (name, sub).
  - destruct Hin as [[= -> _]|Hin]; [contradiction | auto].
Qed.

Lemma lookup_in es name sub :
  Posix.lookup name es = Some sub -> In (name, sub) es.
Proof.
  induction es as [|[n0 x0] es IH]; simpl; [discriminate|].
  destruct (String.eqb_spec n0 name) as [->|Hne].
  - intros [= ->]. now left.
  - intros H. right. auto.
Qed.

Lemma node_at_wf p : forall n m,
    wf_node n = true -> Posix.node_at n p = Some m -> wf_node m = true.
Proof.
  induction p as [|c p IH]; intros n m Hwf H; simpl in H.
  - now injection H as <-.
  - destruct n as [b|es]; [discriminate|].
    destruct (Posix.lookup c es) as [x|] eqn:E; [|discriminate].
    apply (IH x m); [|assumption].
    destruct (wf_node_dir _ Hwf) as (_ & _ & Hc).
    rewrite Forall_forall in Hc.
    exact (Hc _ (lookup_in _ _ _ E)).
Qed.

End WellFormed.

Section WalkedFiles.

Variable root : node.
Variable cwd : list string.

(** Below a well-formed directory, every name that [os.walk] reports as a
    file, joined to its [root] the way [scan] does, names a regular
    file. *)
Lemma walk_node_names_files n : forall top,
    wf_node n = true ->
    Posix.stat root cwd top = inr n ->
    Forall (fun entry : Posix.walk_entry =>
              let '(t, _, files) := entry in
              Forall (fun f => exists content,
                          Posix.stat root cwd (t ++ "/" ++ f)
                          = inr (File content))
                     files)
           (Posix.walk_node top n).
Proof.
  induction n as [b | es IH] using node_rect'; intros top Hwf Hs.
  - constructor.
  - destruct (wf_node_dir _ Hwf) as (Hp & Hd & Hc).
    rewrite Forall_forall in Hp, Hc, IH.
    assert (Hentry : forall name sub,
               In (name, sub) es ->
               proper_name name = true
               /\ Posix.lookup name es = Some sub).
    { intros name sub Hin. split.
      - apply Hp. apply in_map_iff. now exists (name, sub).
      - now apply lookup_distinct. }
    rewrite walk_node_dir. constructor.
    + apply Forall_forall. intros f Hf.
      unfold Posix.names_where in Hf.
      apply in_map_iff in Hf as ([name sub] & <- & Hin).
      apply filter_In in Hin as [Hin Hfile]. cbn [fst snd] in *.
      destruct sub as [content|]; [|discriminate].
      destruct (Hentry _ _ Hin) as [Hn Hl].
      exists content. exact (proj1 (stat_child root cwd _ _ _ _ Hs Hn Hl)).
    + apply Forall_flat_map. apply Forall_forall.
      intros [name sub] Hin. cbn [fst snd].
      destruct (Hentry _ _ Hin) as [Hn Hl].
      apply (IH _ Hin).
      * exact (Hc _ Hin).
      * exact (proj2 (stat_child root cwd _ _ _ _ Hs Hn Hl)).
Qed.

End WalkedFiles.

(** In a well-formed world every path that the walk of a directory yields
    names a regular file. *)
Lemma walked_paths_name_files (w : World) (uri : string)
      (es : list (string * node)) :
  wf_world w = true ->
  Posix.stat (fs_root w) (fs_cwd w) uri = inr (Dir es) ->
  Forall (names_file w)
         (walked_paths (fs_cwd w) (Posix.walk_node uri (Dir es))).
Proof.
  intros Hwf Hs. unfold wf_world in Hwf.
  apply andb_true_iff in Hwf as [Hwf Hc].
  apply andb_true_iff in Hwf as [Hroot Hp].
  assert (Hp' : Forall (fun x => proper_name x = true) (fs_cwd w))
    by (apply Forall_forall; now apply forallb_forall).
  destruct (Posix.node_at (fs_root w) (fs_cwd w)) as [[b|ces]|] eqn:Hcwd;
    try discriminate.
  destruct (stat_inv _ _ _ _ Hs) as (_ & pos & _ & Hn).
  pose proof (node_at_wf _ _ _ Hroot Hn) as Hdir.
  pose proof (walk_node_names_files (fs_root w) (fs_cwd w) (Dir es) uri
                Hdir Hs) as H.
  unfold walked_paths. apply Forall_flat_map.
  rewrite Forall_forall in H. apply Forall_forall.
  intros [[t dirs] files] Hin. specialize (H _ Hin). cbn in H.
  rewrite Forall_forall in H. apply Forall_forall.
  intros p Hin'. apply in_map_iff in Hin' as (f & <- & Hf).
  destruct (H f Hf) as [content Hc'].
  exists content. now apply (abspath_stat _ _ _ _ ces).
Qed.

Section ScanDirectory.

Variable L : Library.
Variable w : World.

(** The walk of [scan]: the paths of [os.walk], then a normal end. *)
Lemma scan_directory_walk uri :
  Gen.items (FileIO.scan_directory w uri)
  = List.map Text (walked_paths (fs_cwd w) (FileIO.os_walk w uri))
  /\ Gen.outcome (FileIO.scan_directory w uri) = None.
Proof.
  unfold FileIO.scan_directory.
  assert (G : forall entries,
             Gen.items
               (Gen.for_each entries
                  (fun '(root, _, files) k =>
                     Do (EvScandir root)
                        (Gen.for_each files
                           (fun ffile k' =>
                              Yield (Text (Posix.abspath (fs_cwd w)
                                             (root ++ "/" ++ ffile))) k')
                           k))
                  Stop)
             = List.map Text (walked_paths (fs_cwd w) entries)
             /\ Gen.outcome
                  (Gen.for_each entries
                     (fun '(root, _, files) k =>
                        Do (EvScandir root)
                           (Gen.for_each files
                              (fun ffile k' =>
                                 Yield (Text (Posix.abspath (fs_cwd w)
                                                (root ++ "/" ++ ffile))) k')
                              k))
                     Stop) = None).
  { induction entries as [|[[root dirs] files] entries [IHi IHo]];
      [now split|].
    cbn [Gen.for_each Gen.items Gen.outcome].
    rewrite (GenFacts.items_for_each_yield
               (fun ffile => Text (Posix.abspath (fs_cwd w)
                                     (root ++ "/" ++ ffile)))).
    rewrite (GenFacts.outcome_for_each_yield
               (fun ffile => Text (Posix.abspath (fs_cwd w)
                                     (root ++ "/" ++ ffile)))).
    rewrite IHi, IHo. split; [|reflexivity].
    unfold walked_paths. cbn [flat_map].
    now rewrite map_app, map_map. }
  destruct (FileIO.os_walk w uri) as [|entry entries] eqn:E.
  - now split.
  - apply G.
Qed.

(** Inference on a directory that is not read as an HTTP URL stops at
    the attempt to open it. *)
Lemma infer_directory uri es mimetype :
  Posix.stat (fs_root w) (fs_cwd w) uri = inr (Dir es) ->
  http_family uri = Some false ->
  snd (FileIO.infer_file_type_from_uri L w uri mimetype)
  = inl IsADirectoryError.
Proof.
  intros Hs Hh.
  unfold FileIO.infer_file_type_from_uri, FileIO.get, FileIO._get_local.
  destruct (PyStr.startswith uri "file") eqn:Hf.
  - rewrite (infer_protocol_file_prefix w _ Hh Hf).
    rewrite open_rb_run, Hs. reflexivity.
  - rewrite (infer_protocol_exists w _ _ Hh Hf Hs).
    rewrite open_rb_run, Hs. reflexivity.
Qed.

End ScanDirectory.

(** C5, as the code has it. For every location that is a directory and
    that [urlparse] does not read as an HTTP-family URL, [scan] ends
    normally and yields only paths: the absolute path of each file that
    [os.walk] lists below the directory, in the order of the walk, one
    item for each regular file of the tree; in a well-formed filesystem
    each of these paths names a regular file. *)
Theorem scan_directory_yields_paths
        (L : Library) (w : World) (uri : string)
        (es : list (string * node)) :
  Posix.stat (fs_root w) (fs_cwd w) uri = inr (Dir es) ->
  http_family uri = Some false ->
  Gen.outcome (FileIO.scan L w uri) = None
  /\ Gen.items (FileIO.scan L w uri)
     = List.map Text
         (walked_paths (fs_cwd w) (Posix.walk_node uri (Dir es)))
  /\ List.length (Gen.items (FileIO.scan L w uri))
     = Posix.count_files (Dir es)
  /\ Forall is_absolute_path (Gen.items (FileIO.scan L w uri))
  /\ (wf_world w = true ->
      Forall (is_file_path w) (Gen.items (FileIO.scan L w uri))).
Proof.
  intros Hs Hh.
  pose proof (infer_directory L w uri es false Hs Hh) as Hi.
  destruct (FileIO.infer_file_type_from_uri L w uri false) as [evs r] eqn:E.
  simpl in Hi. subst r.
  rewrite (scan_inference_raised L w _ _ _ E). cbn [is_IsADirectoryError].
  rewrite GenFacts.items_emit, GenFacts.outcome_emit.
  destruct (scan_directory_walk w uri) as [Hit Hout].
  rewrite Hit, Hout. unfold FileIO.os_walk. rewrite Hs.
  split; [reflexivity|]. split; [reflexivity|]. split; [|split].
  - rewrite length_map.
    pose proof (walked_paths_count (fs_cwd w) (Dir es) uri) as Hc.
    cbn [Posix.is_dir] in Hc. lia.
  - apply walked_paths_absolute.
  - intros Hwf. pose proof (walked_paths_name_files w uri es Hwf Hs) as H.
    apply Forall_forall. intros it Hin.
    apply in_map_iff in Hin as (p & <- & Hp).
    exists p. split; [reflexivity|].
    rewrite Forall_forall in H. now apply H.
Qed.

(** C5 fails as stated: [http:d] is a directory that holds a file, and
    scanning it fails without yielding a path, because the location is
    taken for an HTTP URL. *)
Lemma scan_directory_http_named_fails :
  Posix.stat (fs_root Sample.world) (fs_cwd Sample.world) "http:d"
  = inr (Dir [("a.txt", File [])])
  /\ Gen.items (FileIO.scan Sample.lib Sample.world "http:d") = []
  /\ Gen.outcome (FileIO.scan Sample.lib Sample.world "http:d")
     = Some (LibraryError "URLError")
  /\ Gen.nth_pull 0 (FileIO.scan Sample.lib Sample.world "http:d")
     = Gen.Raised (LibraryError "URLError").
Proof. repeat split. Qed.

Lemma scan_directory_yields_paths_witness :
  Gen.outcome (FileIO.scan Sample.lib Sample.world "d") = None
  /\ Gen.items (FileIO.scan Sample.lib Sample.world "d")
     = [Text "/home/u/d/a.txt"; Text "/home/u/d/b.csv"]
  /\ List.length (Gen.items (FileIO.scan Sample.lib Sample.world "d")) = 2
  /\ Forall is_absolute_path
            (Gen.items (FileIO.scan Sample.lib Sample.world "d"))
  /\ Forall (is_file_path Sample.world)
            (Gen.items (FileIO.scan Sample.lib Sample.world "d")).
Proof.
  destruct (scan_directory_yields_paths
              Sample.lib Sample.world "d"
              [("a.txt", File (Sample.text "hello"));
               ("b.csv", File (Sample.text "x,y"))] eq_refl eq_refl)
    as (Hout & Hitems & Hlen & Habs & Hfiles).
  repeat split; try assumption. apply Hfiles. reflexivity.
Defined.

(** ** The progress relay *)

Section Progress.

Variable L : Library.
Variable w : World.
Context {A : Type}.

Lemma iter_sized (l : list A) :
  Gen.items (FileIO.iter (FileIO.Sized l)) = l
  /\ Gen.outcome (FileIO.iter (FileIO.Sized l)) = None
  /\ Gen.events (FileIO.iter (FileIO.Sized l)) = [].
Proof.
  unfold FileIO.iter.
  rewrite (GenFacts.items_for_each_yield (fun a => a)),
    (GenFacts.outcome_for_each_yield (fun a => a)),
    (GenFacts.events_for_each_yield (fun a => a)).
  simpl. now rewrite map_id, app_nil_r.
Qed.

Lemma precise_loop_items count (l : list A) : forall index,
    Gen.items (FileIO.precise_loop L w count index l) = l
    /\ Gen.outcome (FileIO.precise_loop L w count index l) = None.
Proof.
  induction l as [|a l IH]; intros index; simpl; [now split|].
  destruct (IH (S index)) as [-> ->]. now split.
Qed.

Lemma precise_loop_percentages count (l : list A) : forall index,
    percentages (FileIO.precise_loop L w count index l)
    = List.map (fun i => intmul L (truediv L (i + 1) count) 100)
               (seq index (List.length l)).
Proof.
  unfold percentages.
  induction l as [|a l IH]; intros index; simpl; [reflexivity|].
  now rewrite IH.
Qed.

(** The relay with clock faces forwards the items and the ending of its
    input, whatever the input does. *)
Lemma clock_loop_items (g : gen A) : forall index,
    Gen.items (FileIO.clock_loop index g) = Gen.items g
    /\ Gen.outcome (FileIO.clock_loop index g) = Gen.outcome g.
Proof.
  induction g as [| e | a k IH | ev k IH]; intros index; simpl;
    try (now split).
  - destruct (IH (S index)) as [-> ->]. now split.
  - apply IH.
Qed.

Lemma clock_loop_percentages (g : gen A) : forall index,
    percentages (FileIO.clock_loop index g) = percentages g.
Proof.
  unfold percentages.
  induction g as [| e | a k IH | ev k IH]; intros index; simpl;
    try reflexivity.
  - apply IH.
  - now rewrite IH.
Qed.

(** X22. In precise mode an input without [len] is run to its end
    before anything is relayed: when it fails, the relay yields none of
    its items and fails the same way. *)
Lemma progress_precise_failing_input (g : gen A) e :
  Gen.outcome g = Some e ->
  Gen.items (FileIO.progress L w (FileIO.Lazy g) true) = []
  /\ Gen.outcome (FileIO.progress L w (FileIO.Lazy g) true) = Some e.
Proof.
  intros H. unfold FileIO.progress.
  rewrite GenFacts.items_emit, GenFacts.outcome_emit, H. now split.
Qed.

Lemma progress_items (it : FileIO.iterable A) precise :
  Gen.outcome (FileIO.iter it) = None ->
  Gen.items (FileIO.progress L w it precise) = Gen.items (FileIO.iter it)
  /\ Gen.outcome (FileIO.progress L w it precise) = None.
Proof.
  intros H. unfold FileIO.progress. destruct precise.
  - destruct it as [l|g].
    + destruct (iter_sized l) as (-> & _ & _). simpl.
      apply precise_loop_items.
    + simpl in H. rewrite GenFacts.items_emit, GenFacts.outcome_emit, H.
      simpl. apply precise_loop_items.
  - destruct (clock_loop_items (FileIO.iter it) 0) as [-> ->].
    now split.
Qed.

Lemma progress_percentages (it : FileIO.iterable A) :
  Gen.outcome (FileIO.iter it) = None ->
  percentages (FileIO.progress L w it true)
  = percentages (FileIO.iter it)
    ++ percentage_values L (List.length (Gen.items (FileIO.iter it))).
Proof.
  intros H. unfold FileIO.progress, percentage_values.
  destruct it as [l|g].
  - destruct (iter_sized l) as (-> & _ & E).
    unfold percentages at 2. rewrite E.
    change (percentages (Do (EvPrint Banner)
                            (FileIO.precise_loop L w (List.length l) 0 l)))
      with (percentages (FileIO.precise_loop L w (List.length l) 0 l)).
    apply precise_loop_percentages.
  - simpl in H. rewrite H. simpl FileIO.iter.
    unfold percentages at 1. rewrite GenFacts.events_emit, flat_map_app.
    f_equal.
    change (flat_map percent_of
              (Gen.events
                 (Do (EvPrint Banner)
                     (FileIO.precise_loop L w
                        (List.length (Gen.items g)) 0 (Gen.items g)))))
      with (percentages
              (FileIO.precise_loop L w
                 (List.length (Gen.items g)) 0 (Gen.items g))).
    apply precise_loop_percentages.
Qed.

End Progress.

Section Percentages.

Variable L : Library.
Variable F : FloatLaws L.

Lemma non_decreasing_map_seq (f : nat -> Z) :
  (forall i j, i <= j -> (f i <= f j)%Z) ->
  forall n a, non_decreasing (List.map f (seq a n)).
Proof.
  intros Hf. induction n as [|n IH]; intros a; [exact I|].
  specialize (IH (S a)). simpl in *.
  destruct n as [|n]; [exact I|].
  simpl in *. split; [apply Hf; lia | exact IH].
Qed.

Lemma percentage_values_non_decreasing total :
  non_decreasing (percentage_values L total).
Proof.
  apply non_decreasing_map_seq. intros i j Hij.
  apply (intmul_mono L F), (truediv_mono L F). lia.
Qed.

Lemma percentage_values_last total :
  total <> 0 -> List.last (percentage_values L total) 0%Z = 100%Z.
Proof.
  intros H. destruct total as [|m]; [contradiction|].
  unfold percentage_values. rewrite seq_S, map_app. simpl.
  rewrite last_last. replace (m + 1) with (S m) by lia.
  apply (intmul_whole L F). lia.
Qed.

End Percentages.

(** C8. Without [precise], [progress] yields the items of every input,
    unchanged, in the same order and number, and ends the way the input
    ends. With [precise] it does so for every input that iterates to a
    normal end, and it prints one percentage per item,
    [(index + 1) / total] through [intmul] with 100; under the laws
    assumed of float arithmetic and of [intmul] these percentages never
    decrease, and the last one is 100. With [precise], an input that
    fails is not relayed at all: no item, and the failure of the input. *)
Theorem progress_relays_items
        (L : Library) (F : FloatLaws L) (w : World) (A : Type)
        (it : FileIO.iterable A) :
  (Gen.items (FileIO.progress L w it false) = Gen.items (FileIO.iter it)
   /\ Gen.outcome (FileIO.progress L w it false)
      = Gen.outcome (FileIO.iter it))
  /\ (Gen.outcome (FileIO.iter it) = None ->
      Gen.items (FileIO.progress L w it true) = Gen.items (FileIO.iter it)
      /\ Gen.outcome (FileIO.progress L w it true) = None
      /\ percentages (FileIO.progress L w it true)
         = percentages (FileIO.iter it)
           ++ percentage_values L (List.length (Gen.items (FileIO.iter it)))
      /\ non_decreasing
           (percentage_values L (List.length (Gen.items (FileIO.iter it))))
      /\ (Gen.items (FileIO.iter it) <> [] ->
          List.last
            (percentage_values L
               (List.length (Gen.items (FileIO.iter it))))
            0%Z = 100%Z))
  /\ (forall e,
         Gen.outcome (FileIO.iter it) = Some e ->
         Gen.items (FileIO.progress L w it true) = []
         /\ Gen.outcome (FileIO.progress L w it true) = Some e).
Proof.
  split; [|split].
  - unfold FileIO.progress. apply clock_loop_items.
  - intros H.
    destruct (progress_items L w it true H) as [Hi Ho].
    split; [exact Hi|]. split; [exact Ho|]. split; [|split].
    + now apply progress_percentages.
    + now apply percentage_values_non_decreasing.
    + intros Hne. apply (percentage_values_last L F).
      destruct (Gen.items (FileIO.iter it)); [contradiction|discriminate].
  - intros e H. destruct it as [l|g].
    + destruct (iter_sized l) as (_ & Ho & _). congruence.
    + cbn [FileIO.iter] in H. unfold FileIO.progress.
      rewrite GenFacts.items_emit, GenFacts.outcome_emit, H. now split.
Qed.

(** Exact rational arithmetic satisfies the laws assumed of floats. *)
Lemma sample_float_laws : FloatLaws Sample.lib.
Proof.
  refine (Build_FloatLaws Sample.lib Qle _ _ _).
  - intros i j n Hij. unfold Qle. simpl. unfold Sample.truediv. simpl.
    apply Z.mul_le_mono_nonneg_r; lia.
  - intros x y Hxy. simpl. unfold Sample.intmul.
    apply Qfloor_resp_le, Qmult_le_compat_r; [exact Hxy|].
    unfold Qle. simpl. lia.
  - intros n Hn. simpl. unfold Sample.intmul, Sample.truediv.
    transitivity (Qfloor (inject_Z 100)); [|apply Qfloor_Z].
    apply Qfloor_comp.
    unfold Qeq. cbn [Qmult inject_Z Qnum Qden]. rewrite Pos.mul_1_r.
    rewrite <- (positive_nat_Z (Pos.of_nat n)), Nat2Pos.id by lia. lia.
Qed.

Lemma progress_relays_items_witness :
  Gen.items (FileIO.progress Sample.lib Sample.world
               (FileIO.Sized [1; 2; 3; 4; 5; 6; 7; 8; 9; 10]) true)
  = [1; 2; 3; 4; 5; 6; 7; 8; 9; 10]
  /\ Gen.items (FileIO.progress Sample.lib Sample.world
                  (FileIO.Sized [1; 2; 3; 4; 5; 6; 7; 8; 9; 10]) false)
     = [1; 2; 3; 4; 5; 6; 7; 8; 9; 10]
  /\ percentages (FileIO.progress Sample.lib Sample.world
                    (FileIO.Sized [1; 2; 3; 4; 5; 6; 7; 8; 9; 10]) true)
     = [10; 20; 30; 40; 50; 60; 70; 80; 90; 100]%Z.
Proof.
  destruct (progress_relays_items
              Sample.lib sample_float_laws Sample.world nat
              (FileIO.Sized [1; 2; 3; 4; 5; 6; 7; 8; 9; 10]))
    as ((Hclock & _) & Hprecise & _).
  destruct (Hprecise eq_refl) as (Hitems & _ & Hpercent & _ & _).
  split; [exact Hitems|].
  split; [exact Hclock|].
  rewrite Hpercent. reflexivity.
Defined.

(** ** Evaluations on the sample world *)

Example scan_csv_file :
  Gen.items (FileIO.scan Sample.lib Sample.world "rows.csv")
  = [Row ["name"; "age"]; Row ["alice"; "30"]].
Proof. reflexivity. Qed.

Example scan_nested_directory :
  Gen.items (FileIO.scan Sample.lib Sample.world "../u/./tree/")
  = [Text "/home/u/tree/top.txt"; Text "/home/u/tree/last.txt";
     Text "/home/u/tree/sub/deep.csv"]
  /\ Gen.events (FileIO.scan Sample.lib Sample.world "../u/./tree/")
     = [EvExists "../u/./tree/"; EvOpen "../u/./tree/";
        EvScandir "../u/./tree/"; EvScandir "../u/./tree/sub"].
Proof. split; reflexivity. Qed.

Example scan_remote_csv :
  Gen.items (FileIO.scan Sample.lib Sample.world Sample.remote_csv)
  = [Row ["x"; "y"]]
  /\ Gen.events (FileIO.scan Sample.lib Sample.world Sample.remote_csv)
     = [EvUrlopen Sample.remote_csv; EvUrlopen Sample.remote_csv].
Proof. split; reflexivity. Qed.

Example scan_missing_file_prefixed :
  Gen.events (FileIO.scan Sample.lib Sample.world "filelist.txt")
  = [EvOpen "filelist.txt"]
  /\ Gen.outcome (FileIO.scan Sample.lib Sample.world "filelist.txt")
     = Some FileNotFoundError.
Proof. split; reflexivity. Qed.

Example progress_clock_is_lazy :
  FileIO.progress Sample.lib Sample.world
    (FileIO.Lazy (Do (EvOpen "a") (Yield 1 (Do (EvOpen "b") (Yield 2 Stop)))))
    false
  = Do (EvOpen "a")
       (Do (EvPrint (Clock 0 1))
           (Yield 1
              (Do (EvOpen "b") (Do (EvPrint (Clock 1 2)) (Yield 2 Stop))))).
Proof. reflexivity. Qed.

Example progress_precise_materializes :
  FileIO.progress Sample.lib Sample.world
    (FileIO.Lazy (Do (EvOpen "a") (Yield 1 (Do (EvOpen "b") (Yield 2 Stop)))))
    true
  = Do (EvOpen "a")
       (Do (EvOpen "b")
           (Do (EvPrint Banner)
               (Do (EvPrint (Bar 10 50))
                   (Yield 1 (Do (EvPrint (Bar 20 100)) (Yield 2 Stop)))))).
Proof. reflexivity. Qed.

(** * Further properties of the code *)

(** ** Fetching *)

(** X1. [get] on an existing regular file that is not read as an
    HTTP-family URL returns the bytes of the file, after at most one
    existence probe and one opening of the path. *)
Theorem get_regular_file_returns_content
        (w : World) (uri : string) (b : list byte) :
  Posix.stat (fs_root w) (fs_cwd w) uri = inr (File b) ->
  http_family uri = Some false ->
  snd (FileIO.get w uri) = inr (Bytes b)
  /\ (fst (FileIO.get w uri) = [EvOpen uri]
      \/ fst (FileIO.get w uri) = [EvExists uri; EvOpen uri]).
Proof.
  intros Hs Hh. unfold FileIO.get, FileIO._get_local.
  destruct (PyStr.startswith uri "file") eqn:Hf.
  - rewrite (infer_protocol_file_prefix w _ Hh Hf), open_rb_run, Hs.
    split; [reflexivity | left; reflexivity].
  - rewrite (infer_protocol_exists w _ _ Hh Hf Hs), open_rb_run, Hs.
    split; [reflexivity | right; reflexivity].
Qed.

Lemma get_regular_file_returns_content_witness :
  snd (FileIO.get Sample.world "blob.bin")
  = inr (Bytes [x00; xde; xad; xbe; xef]).
Proof.
  apply (get_regular_file_returns_content
           Sample.world "blob.bin" [x00; xde; xad; xbe; xef]);
    reflexivity.
Defined.

Lemma get_file_prefix_run (w : World) (uri : string) :
  PyStr.startswith uri "file" = true ->
  http_family uri = Some false ->
  FileIO.get w uri
  = ([EvOpen uri],
     match Posix.stat (fs_root w) (fs_cwd w) uri with
     | inr (File b) => inr (Bytes b)
     | inr (Dir _) => inl IsADirectoryError
     | inl e => inl e
     end).
Proof.
  intros Hf Hh. unfold FileIO.get, FileIO._get_local.
  rewrite (infer_protocol_file_prefix w _ Hh Hf), open_rb_run.
  now destruct (Posix.stat _ _ uri) as [e|[b|es]].
Qed.

(** X2. A location that starts with [file] is never probed and its scheme
    is not stripped: [get] opens the string itself as a path, returns the
    bytes when a regular file has that very name, and otherwise raises
    what opening raises. It never returns the [UNKNOWN] member. *)
Theorem get_file_prefix_opens_literal_path (w : World) (uri : string) :
  PyStr.startswith uri "file" = true ->
  http_family uri = Some false ->
  FileIO.get w uri
  = ([EvOpen uri],
     match Posix.stat (fs_root w) (fs_cwd w) uri with
     | inr (File b) => inr (Bytes b)
     | inr (Dir _) => inl IsADirectoryError
     | inl e => inl e
     end)
  /\ snd (FileIO.get w uri) <> inr Unknown.
Proof.
  intros Hf Hh. pose proof (get_file_prefix_run w uri Hf Hh) as E.
  split; [exact E|]. rewrite E. cbn [snd].
  destruct (Posix.stat _ _ uri) as [e|[b|es]]; discriminate.
Qed.

Lemma get_file_prefix_opens_literal_path_witness :
  Posix.stat (fs_root Sample.world) (fs_cwd Sample.world) "/home/u/rows.csv"
  = inr (File (Sample.text
                 ("name,age" ++ Sample.LF ++ "alice,30" ++ Sample.LF)))
  /\ FileIO.get Sample.world "file:///home/u/rows.csv"
     = ([EvOpen "file:///home/u/rows.csv"], inl FileNotFoundError).
Proof.
  split; [reflexivity|].
  apply (proj1 (get_file_prefix_opens_literal_path
                  Sample.world "file:///home/u/rows.csv" eq_refl eq_refl)).
Defined.

(** X3. [get] returns the [UNKNOWN] member exactly for the locations
    that [urlparse] accepts with a scheme outside the HTTP family, that do
    not start with [file], and at which nothing exists; these are the
    locations whose protocol resolves to [UNKNOWN]. *)
Theorem get_unknown_iff (w : World) (uri : string) :
  (snd (FileIO.get w uri) = inr Unknown
   <-> snd (FileIO._infer_protocol w uri) = inr UNKNOWN)
  /\ (snd (FileIO.get w uri) = inr Unknown
      <-> (http_family uri = Some false
           /\ PyStr.startswith uri "file" = false
           /\ exists e, Posix.stat (fs_root w) (fs_cwd w) uri = inl e)).
Proof.
  assert (G : snd (FileIO.get w uri) = inr Unknown ->
              http_family uri = Some false
              /\ PyStr.startswith uri "file" = false
              /\ exists e, Posix.stat (fs_root w) (fs_cwd w) uri = inl e).
  { destruct (http_family uri) as [[|]|] eqn:Hh.
    - rewrite (get_http w _ Hh). cbn [snd].
      destruct (urlopen_read w uri); discriminate.
    - destruct (PyStr.startswith uri "file") eqn:Hf.
      + rewrite (get_file_prefix_run w uri Hf Hh). cbn [snd].
        destruct (Posix.stat _ _ uri) as [e|[b|es]]; discriminate.
      + destruct (Posix.stat (fs_root w) (fs_cwd w) uri) as [e|n] eqn:Hs.
        * intros _. repeat split. now exists e.
        * unfold FileIO.get, FileIO._get_local.
          rewrite (infer_protocol_exists w _ _ Hh Hf Hs), open_rb_run, Hs.
          destruct n; discriminate.
    - unfold FileIO.get. rewrite (infer_protocol_rejected w _ Hh).
      discriminate. }
  assert (P : http_family uri = Some false
              /\ PyStr.startswith uri "file" = false
              /\ (exists e, Posix.stat (fs_root w) (fs_cwd w) uri = inl e) ->
              snd (FileIO._infer_protocol w uri) = inr UNKNOWN).
  { intros (Hh & Hf & e & Hs).
    now rewrite (infer_protocol_missing w _ e Hh Hf Hs). }
  assert (U : snd (FileIO._infer_protocol w uri) = inr UNKNOWN ->
              snd (FileIO.get w uri) = inr Unknown).
  { intros H. now rewrite (get_unknown w _ H). }
  split; split.
  - intros H. apply P, G, H.
  - exact U.
  - exact G.
  - intros H. apply U, P, H.
Qed.

(** X4. [get] on a string that starts with [http://] or [https://]
    makes one HTTP GET and touches nothing local: it returns the body, or
    raises what the request raises. *)
Theorem get_http_url_one_request (w : World) (uri : string) :
  valid_http_url uri ->
  FileIO.get w uri
  = ([EvUrlopen uri],
     match urlopen_read w uri with
     | inl e => inl e
     | inr b => inr (Bytes b)
     end).
Proof.
  intros H. apply get_http. now apply http_url_family.
Qed.

Lemma get_http_url_one_request_witness :
  FileIO.get Sample.world Sample.remote_csv
  = ([EvUrlopen Sample.remote_csv],
     inr (Bytes (Sample.text ("x,y" ++ Sample.LF))))
  /\ FileIO.get Sample.world "https://example.com/none"
     = ([EvUrlopen "https://example.com/none"],
        inl (LibraryError "URLError")).
Proof.
  split.
  - apply (get_http_url_one_request Sample.world Sample.remote_csv).
    split; [left; reflexivity | vm_compute; discriminate].
  - apply (get_http_url_one_request Sample.world "https://example.com/none").
    split; [right; reflexivity | vm_compute; discriminate].
Defined.

(** ** Protocol resolution *)

Lemma find_app_sep (c : ascii) (s r : string) :
  PyStr.contains c s = false ->
  PyStr.find c (s ++ String c r) = Some (String.length s).
Proof.
  induction s as [|d s IH]; simpl; intros H.
  - now rewrite Ascii.eqb_refl.
  - apply orb_false_iff in H as [Hd Hs]. rewrite Hd, (IH Hs). reflexivity.
Qed.

Lemma take_app_length (s r : string) :
  PyStr.take (String.length s) (s ++ r) = s.
Proof.
  induction s as [|d s IH]; simpl.
  - now destruct r.
  - now rewrite IH.
Qed.

Lemma drop_app_sep (c : ascii) (s r : string) :
  PyStr.drop (S (String.length s)) (s ++ String c r) = r.
Proof. induction s as [|d s IH]; simpl; auto. Qed.

Lemma scheme_chars_no_colon (s : string) :
  PyStr.all Urllib.scheme_char s = true -> PyStr.contains ":" s = false.
Proof.
  induction s as [|d s IH]; cbn [PyStr.all PyStr.contains]; [reflexivity|].
  intros H. apply andb_true_iff in H as [Hd Hs]. rewrite (IH Hs).
  destruct (Ascii.eqb_spec ":" d) as [<-|]; [discriminate | reflexivity].
Qed.

Lemma split_scheme_app (scheme rest : string) :
  scheme <> "" ->
  PyStr.all Urllib.scheme_char scheme = true ->
  Urllib.split_scheme (scheme ++ String ":" rest)
  = (PyStr.lower scheme, rest).
Proof.
  intros Hne Hall. unfold Urllib.split_scheme.
  rewrite (find_app_sep _ _ _ (scheme_chars_no_colon _ Hall)).
  destruct scheme as [|c scheme]; [contradiction|].
  cbn [String.length].
  assert (T : PyStr.take (S (String.length scheme))
                         (String c scheme ++ String ":" rest)
              = String c scheme)
    by apply (take_app_length (String c scheme)).
  assert (D : PyStr.drop (S (S (String.length scheme)))
                         (String c scheme ++ String ":" rest)
              = rest)
    by apply (drop_app_sep ":" (String c scheme)).
  now rewrite T, D, Hall.
Qed.

Lemma netloc_without_slash (rest : string) :
  PyStr.contains "/" rest = false -> Urllib.netloc rest = "".
Proof.
  intros H. unfold Urllib.netloc, PyStr.startswith.
  destruct rest as [|c rest]; [reflexivity|].
  cbn [PyStr.contains] in H. apply orb_false_iff in H as [Hc _].
  cbn [String.prefix].
  destruct (ascii_dec "/" c) as [<-|]; [discriminate | reflexivity].
Qed.

(** X5. Every location of the form [scheme:rest] whose rest holds no
    slash and whose scheme, in lower case, starts with [http] (so also
    [HTTP:name], [httpx:name] or [https:rows.csv]) is classified [HTTP]
    without any probe of the filesystem, whether or not something of
    that name exists locally. *)
Theorem infer_protocol_http_like_scheme
        (w : World) (scheme rest : string) :
  scheme <> "" ->
  PyStr.all Urllib.scheme_char scheme = true ->
  PyStr.startswith (PyStr.lower scheme) "http" = true ->
  PyStr.contains "/" rest = false ->
  FileIO._infer_protocol w (scheme ++ ":" ++ rest) = ([], inr HTTP).
Proof.
  intros Hne Hall Hhttp Hrest. apply infer_protocol_http.
  unfold http_family, Urllib.urlparse_scheme.
  cbn [String.append].
  rewrite (split_scheme_app _ _ Hne Hall).
  rewrite (netloc_without_slash _ Hrest). cbn [Urllib.unmatched_bracket
    PyStr.contains andb orb negb]. now rewrite Hhttp.
Qed.

Lemma infer_protocol_http_like_scheme_witness :
  FileIO._infer_protocol Sample.world "HTTPX:rows.csv" = ([], inr HTTP)
  /\ Posix.stat (fs_root Sample.world) (fs_cwd Sample.world)
                "https:rows.csv"
     = inr (File (Sample.text "x,y"))
  /\ FileIO._infer_protocol Sample.world "https:rows.csv" = ([], inr HTTP).
Proof.
  split; [|split; [reflexivity|]].
  - apply (infer_protocol_http_like_scheme Sample.world "HTTPX" "rows.csv");
      [discriminate | reflexivity | reflexivity | reflexivity].
  - apply (infer_protocol_http_like_scheme Sample.world "https" "rows.csv");
      [discriminate | reflexivity | reflexivity | reflexivity].
Defined.

(** X6. Protocol resolution reads no content: it makes no access at all
    or a single existence probe of the location, and the only exception
    it raises is the [ValueError] of [urlparse]. *)
Theorem infer_protocol_accesses (w : World) (uri : string) :
  (fst (FileIO._infer_protocol w uri) = []
   \/ fst (FileIO._infer_protocol w uri) = [EvExists uri])
  /\ (forall e, snd (FileIO._infer_protocol w uri) = inl e ->
                e = ValueError /\ fst (FileIO._infer_protocol w uri) = []).
Proof.
  destruct (http_family uri) as [[|]|] eqn:Hh.
  - rewrite (infer_protocol_http w _ Hh). split; [now left|discriminate].
  - destruct (PyStr.startswith uri "file") eqn:Hf.
    + rewrite (infer_protocol_file_prefix w _ Hh Hf).
      split; [now left|discriminate].
    + destruct (Posix.stat (fs_root w) (fs_cwd w) uri) as [e|n] eqn:Hs.
      * rewrite (infer_protocol_missing w _ e Hh Hf Hs).
        split; [now right|discriminate].
      * rewrite (infer_protocol_exists w _ n Hh Hf Hs).
        split; [now right|discriminate].
  - rewrite (infer_protocol_rejected w _ Hh).
    split; [now left|]. intros e [= <-]. now split.
Qed.

(** ** Type inference *)

(** X7. When the content of a location is fetched but not recognised,
    the type comes from the name: for a guessed media type
    [type/subtype], [infer_file_type_from_uri] returns the media type
    itself in mimetype mode and the subtype in upper case otherwise. *)
Theorem infer_name_fallback_subtype
        (L : Library) (w : World) (uri : string) (b : list byte)
        (t s : string) :
  snd (FileIO.get w uri) = inr (Bytes b) ->
  guess_file_type L b true = None ->
  guess_file_type L b false = None ->
  mimetypes_guess_type L uri = Some (t ++ "/" ++ s)%string ->
  PyStr.contains "/" t = false ->
  PyStr.contains "/" s = false ->
  snd (FileIO.infer_file_type_from_uri L w uri true)
  = inr (t ++ "/" ++ s)%string
  /\ snd (FileIO.infer_file_type_from_uri L w uri false)
     = inr (PyStr.upper s).
Proof.
  intros Hg Ht Hf Hm Hst Hss.
  unfold FileIO.infer_file_type_from_uri.
  destruct (FileIO.get w uri) as [evs r]. cbn [snd] in Hg. subst r.
  cbn [bind]. rewrite Ht, Hf. unfold FileIO.infer_from_name. rewrite Hm.
  assert (Hne : PyStr.nonempty (t ++ "/" ++ s) = true)
    by (destruct t; reflexivity).
  rewrite Hne. cbn [String.append].
  rewrite split_app_sep, (split_no_sep _ _ Hst), (split_no_sep _ _ Hss).
  split; reflexivity.
Qed.

Lemma infer_name_fallback_subtype_witness :
  snd (FileIO.infer_file_type_from_uri Sample.lib Sample.world
         "blob.bin" true) = inr "application/octet-stream"
  /\ snd (FileIO.infer_file_type_from_uri Sample.lib Sample.world
            "blob.bin" false) = inr "OCTET-STREAM".
Proof.
  apply (infer_name_fallback_subtype
           Sample.lib Sample.world "blob.bin" [x00; xde; xad; xbe; xef]
           "application" "octet-stream");
    reflexivity.
Defined.

(** ** Scanning *)

Lemma events_free_pull {A} (g : gen A) :
  Gen.events g = [] ->
  fst (Gen.next g) = [] /\ Gen.events (Gen.after_pull g) = [].
Proof.
  destruct g as [| e | a k | ev k]; simpl; intros H;
    try discriminate; auto.
Qed.

Lemma after_pull_emit {A} evs (g : gen A) :
  Gen.after_pull (Gen.emit evs g) = Gen.after_pull g.
Proof.
  induction evs; simpl; auto. now rewrite GenFacts.after_pull_do.
Qed.

(** What [scan_csv] does once the content is fetched makes no access. *)
Lemma scan_csv_rows_no_access (L : Library) (r : fetched) :
  Gen.events
    (match r with
     | Unknown => Raise FileTypeNotSupportedYet
     | Bytes b =>
         match decode_utf8 L b with
         | None => Raise UnicodeDecodeError
         | Some s =>
             Gen.for_each (fst (csv_reader L (splitlines L s)))
                          (fun row k => Yield (Row row) k)
                          (Gen.ending (snd (csv_reader L (splitlines L s))))
         end
     end) = [].
Proof.
  destruct r as [b|]; [|reflexivity].
  destruct (decode_utf8 L b); [|reflexivity].
  rewrite (GenFacts.events_for_each_yield (fun row => Row row)).
  apply events_ending.
Qed.

(** X8. [scan_csv] fetches and parses the whole content on the first
    pull: every access it ever makes happens there, and the generator that
    remains makes none. *)
Theorem scan_csv_first_pull_fetches_all
        (L : Library) (w : World) (uri : string) :
  fst (Gen.next (FileIO.scan_csv L w uri))
  = Gen.events (FileIO.scan_csv L w uri)
  /\ Gen.events (FileIO.scan_csv L w uri) = fst (FileIO.get w uri)
  /\ Gen.events (Gen.after_pull (FileIO.scan_csv L w uri)) = [].
Proof.
  unfold FileIO.scan_csv, Gen.perform.
  rewrite GenFacts.next_emit, GenFacts.events_emit, after_pull_emit.
  cbn [fst].
  assert (E : forall g : gen item,
             Gen.events g = [] ->
             fst (FileIO.get w uri) ++ fst (Gen.next g)
             = fst (FileIO.get w uri) ++ Gen.events g
             /\ fst (FileIO.get w uri) ++ Gen.events g
                = fst (FileIO.get w uri)
             /\ Gen.events (Gen.after_pull g) = []).
  { intros g Hg. destruct (events_free_pull g Hg) as [-> ->].
    rewrite Hg, app_nil_r. auto. }
  destruct (snd (FileIO.get w uri)) as [e|r]; [now apply E|].
  apply E, scan_csv_rows_no_access.
Qed.

Lemma scan_directory_only_lists (w : World) (uri : string) :
  Forall (fun ev => exists p, ev = EvScandir p)
         (Gen.events (FileIO.scan_directory w uri)).
Proof.
  unfold FileIO.scan_directory.
  destruct (FileIO.os_walk w uri) as [|entry entries].
  - constructor; [now exists uri | constructor].
  - generalize (entry :: entries) as l. intros l.
    induction l as [|[[root dirs] files] l IH]; [constructor|].
    cbn [Gen.for_each Gen.events]. constructor; [now exists root|].
    now rewrite (GenFacts.events_for_each_yield
                   (fun ffile => Text (Posix.abspath (fs_cwd w)
                                         (root ++ "/" ++ ffile)))).
Qed.

(** X9. A scan of a location whose inferred type is CSV or PLAIN fetches
    the whole content twice, once to infer the type and once more in
    [scan_csv]; any access after that is the listing of a directory. *)
Theorem scan_plain_fetches_twice
        (L : Library) (w : World) (uri t : string)
        (evs : list event) (b : list byte) :
  FileIO.get w uri = (evs, inr (Bytes b)) ->
  snd (FileIO.infer_file_type_from_uri L w uri false) = inr t ->
  In t ["CSV"; "PLAIN"] ->
  exists rest,
    Gen.events (FileIO.scan L w uri) = evs ++ evs ++ rest
    /\ Forall (fun ev => exists p, ev = EvScandir p) rest.
Proof.
  intros Hg Ht Hin.
  pose proof (infer_accesses L w uri false) as Ha. rewrite Hg in Ha.
  destruct (FileIO.infer_file_type_from_uri L w uri false) as [evs' r] eqn:E.
  cbn [fst snd] in *. subst evs' r.
  rewrite (scan_inferred L w _ _ _ E).
  rewrite (scan_dispatch_declared L w uri t CsvScanner Hin).
  cbn [run_scanner]. unfold FileIO.scan_csv, Gen.perform. rewrite Hg.
  cbn [fst snd]. rewrite GenFacts.try_except_emit, !GenFacts.events_emit.
  eexists. split; [reflexivity|].
  destruct (decode_utf8 L b) as [s|]; [|constructor].
  generalize (fst (csv_reader L (splitlines L s))) as rows. intros rows.
  induction rows as [|row rows IH]; [|exact IH].
  cbn [Gen.for_each].
  destruct (snd (csv_reader L (splitlines L s))) as [e|]; [|constructor].
  cbn [Gen.ending Gen.try_except].
  destruct (is_IsADirectoryError e); [|constructor].
  apply scan_directory_only_lists.
Qed.

Lemma scan_plain_fetches_twice_witness :
  exists rest,
    Gen.events (FileIO.scan Sample.lib Sample.world "rows.csv")
    = [EvExists "rows.csv"; EvOpen "rows.csv"]
      ++ [EvExists "rows.csv"; EvOpen "rows.csv"] ++ rest
    /\ Forall (fun ev => exists p, ev = EvScandir p) rest.
Proof.
  apply (scan_plain_fetches_twice
           Sample.lib Sample.world "rows.csv" "CSV"
           [EvExists "rows.csv"; EvOpen "rows.csv"]
           (Sample.text
              ("name,age" ++ Sample.LF ++ "alice,30" ++ Sample.LF))
           eq_refl eq_refl (or_introl eq_refl)).
Defined.

(** ** The scanners of compressed sources, on failure *)

Lemma container_scanner_opens (L : Library) (w : World) (k : container)
      (uri : string) :
  exists body,
    container_scanner L w k uri = Gen.perform (FileIO.open_rb w uri) body.
Proof. destruct k as [[]|]; eexists; reflexivity. Qed.

(** X10. Called on a path at which nothing exists, or on a directory,
    each scanner of compressed sources raises on the first pull what
    opening the path raises ([IsADirectoryError] for a directory) and
    yields nothing. *)
Theorem compressed_scanner_unreadable_path
        (L : Library) (w : World) (k : container) (uri : string) :
  (forall e,
      Posix.stat (fs_root w) (fs_cwd w) uri = inl e ->
      Gen.nth_pull 0 (container_scanner L w k uri) = Gen.Raised e
      /\ Gen.items (container_scanner L w k uri) = [])
  /\ (forall es,
         Posix.stat (fs_root w) (fs_cwd w) uri = inr (Dir es) ->
         Gen.nth_pull 0 (container_scanner L w k uri)
         = Gen.Raised IsADirectoryError
         /\ Gen.items (container_scanner L w k uri) = []).
Proof.
  destruct (container_scanner_opens L w k uri) as [body ->].
  unfold Gen.perform. rewrite open_rb_run.
  split; intros x Hs; rewrite Hs; split; reflexivity.
Qed.

Lemma compressed_scanner_unreadable_path_witness :
  Gen.nth_pull 0 (FileIO.scan_csv_zip Sample.lib Sample.world "none.zip")
  = Gen.Raised FileNotFoundError
  /\ Gen.nth_pull 0 (FileIO.scan_csv_xz Sample.lib Sample.world "d")
     = Gen.Raised IsADirectoryError.
Proof.
  split.
  - apply (proj1 (compressed_scanner_unreadable_path
                    Sample.lib Sample.world ZipArchive "none.zip")
             FileNotFoundError eq_refl).
  - apply (proj2 (compressed_scanner_unreadable_path
                    Sample.lib Sample.world (Stream Lzma) "d")
             [("a.txt", File (Sample.text "hello"));
              ("b.csv", File (Sample.text "x,y"))] eq_refl).
Defined.

(** X11. When the stream of a gzip, bzip2 or xz file breaks after some
    lines, the scanner yields these lines, stripped, in order, and the
    pull after the last of them raises the error of the stream. *)
Theorem compressed_stream_failure_after_lines
        (L : Library) (w : World) (c : codec) (uri : string)
        (b : list byte) (lines : list string) (e : exn) :
  Posix.stat (fs_root w) (fs_cwd w) uri = inr (File b) ->
  text_lines L c b = (lines, Some e) ->
  Gen.items (container_scanner L w (Stream c) uri)
  = List.map (fun line => Text (PyStr.remove PyStr.LF line)) lines
  /\ Gen.nth_pull (List.length lines) (container_scanner L w (Stream c) uri)
     = Gen.Raised e.
Proof.
  intros Hs Ht.
  assert (E : container_scanner L w (Stream c) uri
              = FileIO.scan_text_stream L w c uri) by now destruct c.
  rewrite E.
  assert (I : Gen.items (FileIO.scan_text_stream L w c uri)
              = List.map stripped lines
              /\ Gen.outcome (FileIO.scan_text_stream L w c uri) = Some e).
  { unfold FileIO.scan_text_stream, Gen.perform.
    rewrite open_rb_run, Hs. simpl. rewrite Ht. simpl.
    rewrite GenFacts.items_for_each_yield, GenFacts.outcome_for_each_yield.
    simpl. now rewrite app_nil_r. }
  destruct I as [Hi Ho]. split; [exact Hi|].
  pose proof (GenFacts.nth_pull_end (FileIO.scan_text_stream L w c uri)) as H.
  rewrite Hi, length_map, Ho in H. exact H.
Qed.

Lemma compressed_stream_failure_after_lines_witness :
  Gen.items (FileIO.scan_csv_gzip Sample.lib Sample.world "cut.gz")
  = [Text "r1"; Text "r2"]
  /\ Gen.nth_pull 2 (FileIO.scan_csv_gzip Sample.lib Sample.world "cut.gz")
     = Gen.Raised (LibraryError "EOFError").
Proof.
  apply (compressed_stream_failure_after_lines
           Sample.lib Sample.world Gzip "cut.gz"
           (Sample.gz (Sample.text ("r1" ++ Sample.LF ++ "r2" ++ Sample.LF)
                       ++ [xff]))
           ["r1" ++ Sample.LF; "r2" ++ Sample.LF]%string
           (LibraryError "EOFError"));
    reflexivity.
Defined.

Section ZipOpens.

Variable L : Library.
Variable w : World.

Lemma zip_rows_events rows : forall l after,
    decode_all L rows = Some l ->
    Gen.events (FileIO.zip_rows L rows after) = Gen.events after.
Proof.
  unfold FileIO.zip_rows.
  induction rows as [|row rows IH]; intros l after H; simpl in H.
  - reflexivity.
  - destruct (decode_utf8 L row) as [s|] eqn:Hd; [|discriminate].
    destruct (decode_all L rows) as [l'|]; [|discriminate].
    simpl. rewrite Hd. simpl. now apply (IH l').
Qed.

Lemma zip_loop_events uri b names : forall lines,
    Posix.stat (fs_root w) (fs_cwd w) uri = inr (File b) ->
    members_lines L b names = Some lines ->
    Gen.events (zip_loop L w uri names)
    = List.repeat (EvOpen uri) (List.length names).
Proof.
  induction names as [|name names IH]; intros lines Hs H; simpl in H.
  - reflexivity.
  - destruct (zip_member_lines L b name) as [rows [e|]] eqn:Hm;
      [discriminate|].
    destruct (decode_all L rows) as [l|] eqn:Hd; [|discriminate].
    destruct (members_lines L b names) as [l'|]; [|discriminate].
    rewrite zip_loop_cons. unfold Gen.perform.
    rewrite open_rb_run, Hs.
    cbn [fst snd Gen.emit fold_right Gen.events].
    rewrite Hm. cbn [fst snd].
    rewrite (zip_rows_events rows l _ Hd), (IH l' Hs eq_refl).
    reflexivity.
Qed.

End ZipOpens.

(** X12. [scan_csv_zip] opens the archive once for the listing and once
    more for every name of the listing: an intact archive with [n] names
    is opened [n + 1] times, and nothing else is accessed. *)
Theorem scan_csv_zip_reopens_per_member
        (L : Library) (w : World) (uri : string) (b : list byte)
        (names : list string) (lines : list string) :
  Posix.stat (fs_root w) (fs_cwd w) uri = inr (File b) ->
  zip_namelist L b = inr names ->
  members_lines L b names = Some lines ->
  Gen.events (FileIO.scan_csv_zip L w uri)
  = List.repeat (EvOpen uri) (S (List.length names)).
Proof.
  intros Hs Hn Hm.
  change (FileIO.scan_csv_zip L w uri)
    with (Gen.perform (FileIO.open_rb w uri) (fun b0 =>
            match zip_namelist L b0 with
            | inl e => Raise e
            | inr names0 => zip_loop L w uri names0
            end)).
  unfold Gen.perform. rewrite open_rb_run, Hs.
  cbn [fst snd Gen.emit fold_right Gen.events List.repeat]. rewrite Hn.
  now rewrite (zip_loop_events L w uri b names lines Hs Hm).
Qed.

Lemma scan_csv_zip_reopens_per_member_witness :
  Gen.events (FileIO.scan_csv_zip Sample.lib Sample.world "rows.zip")
  = [EvOpen "rows.zip"; EvOpen "rows.zip"; EvOpen "rows.zip"].
Proof.
  apply (scan_csv_zip_reopens_per_member
           Sample.lib Sample.world "rows.zip"
           (Sample.zip
              (Sample.text "m1" ++ [x00]
               ++ Sample.text ("a" ++ Sample.LF ++ "b" ++ Sample.LF)
               ++ [x00] ++ Sample.text "m2" ++ [x00]
               ++ Sample.text ("c" ++ Sample.LF) ++ [x00]))
           ["m1"; "m2"]
           ["a" ++ Sample.LF; "b" ++ Sample.LF; "c" ++ Sample.LF]%string);
    reflexivity.
Defined.

(** ** Scanning what cannot be resolved *)

Lemma walk_error_kinds root comps : forall at0 e,
    Posix.walk_components root at0 comps = inl e ->
    is_IsADirectoryError e = false.
Proof.
  induction comps as [|c cs IH]; intros at0 e; simpl; [discriminate|].
  destruct (Posix.node_at root at0) as [[b|es]|]; try (intros [= <-]; reflexivity).
  destruct (_ || _)%bool; [apply IH|].
  destruct (String.eqb c ".."); [apply IH|].
  destruct (Posix.node_at root (at0 ++ [c])); [apply IH|].
  intros [= <-]. reflexivity.
Qed.

Lemma stat_error_kinds root cwd path e :
  Posix.stat root cwd path = inl e -> is_IsADirectoryError e = false.
Proof.
  unfold Posix.stat. destruct (String.eqb path "");
    [intros [= <-]; reflexivity|].
  destruct (Posix.walk_components _ _ _) as [e'|pos] eqn:E.
  - intros [= <-]. exact (walk_error_kinds _ _ _ _ E).
  - destruct (Posix.node_at root pos); [discriminate|].
    intros [= <-]. reflexivity.
Qed.

Lemma unknown_nothing_exists (w : World) (uri : string) :
  snd (FileIO._infer_protocol w uri) = inr UNKNOWN ->
  exists e, Posix.stat (fs_root w) (fs_cwd w) uri = inl e.
Proof.
  destruct (http_family uri) as [[|]|] eqn:Hh.
  - rewrite (infer_protocol_http w _ Hh). discriminate.
  - destruct (PyStr.startswith uri "file") eqn:Hf.
    + rewrite (infer_protocol_file_prefix w _ Hh Hf). discriminate.
    + destruct (Posix.stat (fs_root w) (fs_cwd w) uri) as [e|n] eqn:Hs.
      * intros _. now exists e.
      * rewrite (infer_protocol_exists w _ n Hh Hf Hs). discriminate.
  - rewrite (infer_protocol_rejected w _ Hh). discriminate.
Qed.

Lemma infer_from_name_error_kinds (L : Library) (uri : string) e :
  snd (FileIO.infer_from_name L uri false) = inl e ->
  is_IsADirectoryError e = false.
Proof.
  unfold FileIO.infer_from_name.
  destruct (mimetypes_guess_type L uri) as [ft|];
    [|intros [= <-]; reflexivity].
  destruct (PyStr.nonempty ft); [|intros [= <-]; reflexivity].
  destruct (nth_error (PyStr.split "/" ft) 1);
    [discriminate | intros [= <-]; reflexivity].
Qed.

(** X13. A scan of a location whose protocol resolves to [UNKNOWN]
    yields nothing and fails on the first pull, also when the name of the
    location lets the type inference succeed. *)
Theorem scan_unknown_location_fails
        (L : Library) (w : World) (uri : string) :
  snd (FileIO._infer_protocol w uri) = inr UNKNOWN ->
  Gen.items (FileIO.scan L w uri) = []
  /\ exists e, Gen.nth_pull 0 (FileIO.scan L w uri) = Gen.Raised e
               /\ Gen.outcome (FileIO.scan L w uri) = Some e.
Proof.
  intros H.
  assert (F : forall evs e,
             is_IsADirectoryError e = false ->
             FileIO.scan L w uri = Gen.emit evs (Raise e) ->
             Gen.items (FileIO.scan L w uri) = []
             /\ exists e0,
                 Gen.nth_pull 0 (FileIO.scan L w uri) = Gen.Raised e0
                 /\ Gen.outcome (FileIO.scan L w uri) = Some e0).
  { intros evs e _ ->.
    rewrite GenFacts.items_emit, nth_pull_emit, GenFacts.outcome_emit.
    split; [reflexivity|]. now exists e. }
  destruct (unknown_nothing_exists w uri H) as [e0 Hs].
  pose proof (stat_error_kinds _ _ _ _ Hs) as He0.
  assert (E : FileIO.infer_file_type_from_uri L w uri false
              = ([EvExists uri; EvExists uri],
                 snd (FileIO.infer_from_name L uri false))).
  { unfold FileIO.infer_file_type_from_uri.
    rewrite (get_unknown w _ H). simpl.
    pose proof (infer_from_name_no_access L uri false) as N.
    destruct (FileIO.infer_from_name L uri false) as [evs r].
    simpl in N. subst evs. reflexivity. }
  destruct (snd (FileIO.infer_from_name L uri false)) as [e|t] eqn:R.
  - pose proof (infer_from_name_error_kinds L uri e R) as He.
    apply (F [EvExists uri; EvExists uri] e He).
    rewrite (scan_inference_raised L w _ _ _ E). now rewrite He.
  - assert (D : exists evs e,
               is_IsADirectoryError e = false
               /\ FileIO.scan_dispatch L w uri t = Gen.emit evs (Raise e)).
    { assert (O : forall k,
                 exists evs e,
                   is_IsADirectoryError e = false
                   /\ container_scanner L w k uri = Gen.emit evs (Raise e)).
      { intros k. destruct (container_scanner_opens L w k uri) as [body ->].
        exists [EvOpen uri], e0. split; [exact He0|].
        unfold Gen.perform. now rewrite open_rb_run, Hs. }
      unfold FileIO.scan_dispatch.
      destruct (_ || _)%bool.
      { exists [EvExists uri; EvExists uri], FileTypeNotSupportedYet.
        split; [reflexivity|].
        unfold FileIO.scan_csv, Gen.perform.
        now rewrite (get_unknown w _ H). }
      destruct (String.eqb t "GZP"); [exact (O (Stream Gzip))|].
      destruct (String.eqb t "ZIP"); [exact (O ZipArchive)|].
      destruct (String.eqb t "BZ2"); [exact (O (Stream Bzip2))|].
      destruct (String.eqb t "LXZ"); [exact (O (Stream Lzma))|].
      now exists [], FileScanNotPossible. }
    destruct D as (evs & e & He & Hd).
    apply (F ([EvExists uri; EvExists uri] ++ evs) e He).
    rewrite (scan_inferred L w _ _ _ E), Hd.
    rewrite GenFacts.try_except_emit. cbn [Gen.try_except]. rewrite He.
    unfold Gen.emit. now rewrite fold_right_app.
Qed.

Lemma scan_unknown_location_fails_witness :
  Gen.items (FileIO.scan Sample.lib Sample.world "missing.csv") = []
  /\ exists e,
      Gen.nth_pull 0 (FileIO.scan Sample.lib Sample.world "missing.csv")
      = Gen.Raised e
      /\ Gen.outcome (FileIO.scan Sample.lib Sample.world "missing.csv")
         = Some e.
Proof.
  apply (scan_unknown_location_fails Sample.lib Sample.world "missing.csv").
  reflexivity.
Defined.

(** ** The progress relay, pull by pull *)

Section Relay.

Variable L : Library.
Variable w : World.
Context {A : Type}.

(** X14. Without [precise] the relay is lazy: one pull on it makes one
    pull on its input, performs the accesses of that pull and nothing of
    what the input would do later, prints one line, and forwards the item,
    the end or the failure of the input. *)
Theorem progress_clock_pulls_once (it : FileIO.iterable A) :
  FileIO.progress L w it false = FileIO.clock_loop 0 (FileIO.iter it)
  /\ forall index (g : gen A),
      Gen.next (FileIO.clock_loop index g) = relayed index (Gen.next g).
Proof.
  split; [reflexivity|].
  intros index g. revert index.
  induction g as [| e | a k IH | ev k IH]; intros index; simpl;
    try reflexivity.
  rewrite IH. destruct (Gen.next k) as [evs [a rest| |e]]; reflexivity.
Qed.

Lemma printed_clock_loop (g : gen A) : forall index,
    printed g = [] ->
    printed (FileIO.clock_loop index g)
    = List.map (fun i => Clock (i mod 12) (i + 1))
               (seq index (List.length (Gen.items g))).
Proof.
  unfold printed.
  induction g as [| e | a k IH | ev k IH]; intros index H; simpl in *;
    try reflexivity.
  - now rewrite (IH (S index) H).
  - apply app_eq_nil in H as [Hev Hk]. rewrite Hev. now apply IH.
Qed.

End Relay.

(** X15. Without [precise], over an input that prints nothing itself,
    the relay prints one line per item it forwards: the twelve clock faces
    in turn, starting over after the twelfth, with the number of items
    forwarded so far counted from 1. *)
Theorem progress_clock_lines
        (L : Library) (w : World) (A : Type) (it : FileIO.iterable A) :
  printed (FileIO.iter it) = [] ->
  printed (FileIO.progress L w it false)
  = clock_lines (List.length (Gen.items (FileIO.iter it))).
Proof.
  intros H. unfold FileIO.progress, clock_lines.
  now apply printed_clock_loop.
Qed.

Lemma progress_clock_lines_witness :
  printed (FileIO.progress Sample.lib Sample.world
             (FileIO.Sized (List.repeat tt 14)) false)
  = [Clock 0 1; Clock 1 2; Clock 2 3; Clock 3 4; Clock 4 5; Clock 5 6;
     Clock 6 7; Clock 7 8; Clock 8 9; Clock 9 10; Clock 10 11;
     Clock 11 12; Clock 0 13; Clock 1 14].
Proof.
  apply (progress_clock_lines Sample.lib Sample.world unit
           (FileIO.Sized (List.repeat tt 14))).
  reflexivity.
Defined.

(** X16. With [precise], an input without [len] is consumed whole on
    the first pull: every access the input ever makes happens before the
    first item is forwarded, and the lines of the relay come after
    them. *)
Theorem progress_precise_consumes_input_first
        (L : Library) (w : World) (A : Type) (g : gen A) :
  exists rest,
    fst (Gen.next (FileIO.progress L w (FileIO.Lazy g) true))
    = Gen.events g ++ rest
    /\ Forall (fun ev => exists line, ev = EvPrint line) rest.
Proof.
  unfold FileIO.progress. rewrite GenFacts.next_emit. cbn [fst].
  eexists. split; [reflexivity|].
  destruct (Gen.outcome g); [constructor|].
  destruct (Gen.items g) as [|a l]; simpl.
  - constructor; [eexists; reflexivity | constructor].
  - constructor; [eexists; reflexivity|].
    constructor; [eexists; reflexivity | constructor].
Qed.

(** X17. Without [precise] the relay forwards a failing input
    faithfully: the items the input yields before it fails, in order, and
    then the same failure. *)
Theorem progress_clock_relays_failure
        (L : Library) (w : World) (A : Type) (it : FileIO.iterable A) :
  Gen.items (FileIO.progress L w it false) = Gen.items (FileIO.iter it)
  /\ Gen.outcome (FileIO.progress L w it false)
     = Gen.outcome (FileIO.iter it)
  /\ Gen.nth_pull (List.length (Gen.items (FileIO.iter it)))
                  (FileIO.progress L w it false)
     = match Gen.outcome (FileIO.iter it) with
       | Some e => Gen.Raised e
       | None => Gen.StopIteration
       end.
Proof.
  unfold FileIO.progress.
  destruct (clock_loop_items (FileIO.iter it) 0) as [Hi Ho].
  split; [exact Hi|]. split; [exact Ho|].
  rewrite <- Hi, <- Ho. apply GenFacts.nth_pull_end.
Qed.

(** ** Witnesses of the facts on strategies and failures *)

Lemma scan_local_stays_local_witness :
  ~ uses HttpGet
      (Gen.events (FileIO.scan Sample.lib Sample.world "rows.zip")).
Proof.
  apply (scan_local_stays_local Sample.lib Sample.world "rows.zip").
  reflexivity.
Defined.

Lemma scan_csv_remote_stays_remote_witness :
  Gen.events (FileIO.scan_csv Sample.lib Sample.world Sample.remote_csv)
  = [EvUrlopen Sample.remote_csv].
Proof.
  apply (scan_csv_remote_stays_remote
           Sample.lib Sample.world Sample.remote_csv).
  reflexivity.
Defined.

Lemma scan_remote_compressed_opens_local_path_witness :
  snd (FileIO._infer_protocol Sample.world Sample.remote_gz) = inr HTTP
  /\ exists rest,
      Gen.events (FileIO.scan Sample.lib Sample.world Sample.remote_gz)
      = EvUrlopen Sample.remote_gz :: EvOpen Sample.remote_gz :: rest.
Proof.
  apply (scan_remote_compressed_opens_local_path
           Sample.lib Sample.world Sample.remote_gz "GZP"
           (Sample.gz (Sample.text ("r1" ++ Sample.LF))));
    [reflexivity | reflexivity | reflexivity | simpl; auto].
Defined.

Lemma scan_inference_failure_raises_witness :
  Gen.nth_pull 0 (FileIO.scan Sample.lib Sample.world "missing")
  = Gen.Raised FileTypeNotSupportedYet
  /\ Gen.items (FileIO.scan Sample.lib Sample.world "missing") = [].
Proof.
  apply (scan_inference_failure_raises
           Sample.lib Sample.world "missing" FileTypeNotSupportedYet);
    reflexivity.
Defined.

Lemma progress_precise_failing_input_witness :
  Gen.items (FileIO.progress Sample.lib Sample.world
               (FileIO.Lazy (Yield 1 (Yield 2 (Raise ValueError)))) true)
  = []
  /\ Gen.outcome (FileIO.progress Sample.lib Sample.world
                    (FileIO.Lazy (Yield 1 (Yield 2 (Raise ValueError))))
                    true)
     = Some ValueError.
Proof.
  apply (progress_precise_failing_input
           Sample.lib Sample.world
           (Yield 1 (Yield 2 (Raise ValueError))) ValueError).
  reflexivity.
Defined.

(** ** safe_temp_file *)

Section Removal.

Lemma remove_at_cons name pos es :
  TempFile.remove_at (name :: pos) (Dir es)
  = match pos with
    | [] => Dir (TempFile.remove_entry name es)
    | _ => Dir (TempFile.update_entry name (TempFile.remove_at pos) es)
    end.
Proof. now destruct pos. Qed.

Lemma lookup_remove_entry_other name a es :
  a <> name ->
  Posix.lookup a (TempFile.remove_entry name es) = Posix.lookup a es.
Proof.
  intros Hne. induction es as [|[n x] es IH]; simpl; [reflexivity|].
  destruct (String.eqb_spec n name) as [->|Hn].
  - destruct (String.eqb_spec name a); [congruence | reflexivity].
  - simpl. now rewrite IH.
Qed.

Lemma lookup_update_entry_other name a f es :
  a <> name ->
  Posix.lookup a (TempFile.update_entry name f es) = Posix.lookup a es.
Proof.
  intros Hne. induction es as [|[n x] es IH]; simpl; [reflexivity|].
  destruct (String.eqb_spec n name) as [->|Hn]; simpl.
  - destruct (String.eqb_spec name a); [congruence | reflexivity].
  - now rewrite IH.
Qed.

Lemma lookup_update_entry_same name f es :
  Posix.lookup name (TempFile.update_entry name f es)
  = option_map f (Posix.lookup name es).
Proof.
  induction es as [|[n x] es IH]; simpl; [reflexivity|].
  destruct (String.eqb_spec n name) as [->|Hn]; simpl.
  - now rewrite String.eqb_refl.
  - destruct (String.eqb_spec n name); [contradiction | exact IH].
Qed.

Lemma lookup_absent name es :
  existsb (String.eqb name) (List.map fst es) = false ->
  Posix.lookup name es = None.
Proof.
  induction es as [|[n x] es IH]; simpl; [reflexivity|].
  intros H. apply orb_false_iff in H as [Hn Hs].
  rewrite String.eqb_sym, Hn. auto.
Qed.

Lemma lookup_remove_entry_same name es :
  distinct (List.map fst es) = true ->
  Posix.lookup name (TempFile.remove_entry name es) = None.
Proof.
  induction es as [|[n x] es IH]; simpl; [reflexivity|].
  intros H. apply andb_true_iff in H as [Hn Hd].
  apply negb_true_iff in Hn.
  destruct (String.eqb_spec n name) as [->|Hne].
  - now apply lookup_absent.
  - simpl. destruct (String.eqb_spec n name); [contradiction | auto].
Qed.

(** Removing a file leaves every directory a directory. *)
Lemma dir_survives pos : forall root at0 c es,
    Posix.node_at root pos = Some (File c) ->
    Posix.node_at root at0 = Some (Dir es) ->
    exists es', Posix.node_at (TempFile.remove_at pos root) at0
                = Some (Dir es').
Proof.
  induction pos as [|name pos IH]; intros root at0 c es Hp Ha.
  - simpl in Hp. injection Hp as ->.
    destruct at0; simpl in Ha; discriminate.
  - destruct root as [b|es0]; [discriminate|].
    simpl in Hp. destruct (Posix.lookup name es0) as [sub|] eqn:Hl;
      [|discriminate].
    rewrite remove_at_cons.
    destruct at0 as [|a at0].
    + destruct pos; eexists; reflexivity.
    + simpl in Ha. destruct (Posix.lookup a es0) as [x|] eqn:Hx;
        [|discriminate].
      destruct (String.eqb_spec a name) as [->|Hne].
      * rewrite Hl in Hx. injection Hx as <-.
        destruct pos as [|name' pos].
        -- simpl in Hp. injection Hp as ->.
           destruct at0; simpl in Ha; discriminate.
        -- simpl Posix.node_at at 1.
           rewrite lookup_update_entry_same, Hl. simpl option_map.
           cbv iota beta. exact (IH sub at0 c es Hp Ha).
      * destruct pos as [|name' pos]; simpl Posix.node_at at 1.
        -- rewrite (lookup_remove_entry_other _ _ _ Hne), Hx. eauto.
        -- rewrite (lookup_update_entry_other _ _ _ _ Hne), Hx. eauto.
Qed.

(** Removing a file leaves every other file as it is. *)
Lemma file_survives pos : forall root q c c',
    Posix.node_at root pos = Some (File c) ->
    Posix.node_at root q = Some (File c') ->
    q <> pos ->
    Posix.node_at (TempFile.remove_at pos root) q = Some (File c').
Proof.
  induction pos as [|name pos IH]; intros root q c c' Hp Hq Hne.
  - simpl in Hp. injection Hp as ->.
    destruct q; [contradiction | discriminate].
  - destruct root as [b|es0]; [discriminate|].
    simpl in Hp. destruct (Posix.lookup name es0) as [sub|] eqn:Hl;
      [|discriminate].
    rewrite remove_at_cons.
    destruct q as [|a q]; [discriminate|].
    simpl in Hq. destruct (Posix.lookup a es0) as [x|] eqn:Hx;
      [|discriminate].
    destruct (String.eqb_spec a name) as [->|Hna].
    + rewrite Hl in Hx. injection Hx as <-.
      destruct pos as [|name' pos].
      * simpl in Hp. injection Hp as ->.
        destruct q; [contradiction | discriminate].
      * simpl Posix.node_at at 1.
        rewrite lookup_update_entry_same, Hl. simpl option_map.
        cbv iota beta. apply (IH sub q c c' Hp Hq). congruence.
    + destruct pos as [|name' pos]; simpl Posix.node_at at 1.
      * now rewrite (lookup_remove_entry_other _ _ _ Hna), Hx.
      * now rewrite (lookup_update_entry_other _ _ _ _ Hna), Hx.
Qed.

(** In a well-formed tree the removed file is gone. *)
Lemma removed_is_gone pos : forall root c,
    wf_node root = true ->
    pos <> [] ->
    Posix.node_at root pos = Some (File c) ->
    Posix.node_at (TempFile.remove_at pos root) pos = None.
Proof.
  induction pos as [|name pos IH]; intros root c Hwf Hne Hp;
    [contradiction|].
  destruct root as [b|es0]; [discriminate|].
  destruct (wf_node_dir _ Hwf) as (_ & Hd & Hc).
  simpl in Hp. destruct (Posix.lookup name es0) as [sub|] eqn:Hl;
    [|discriminate].
  rewrite remove_at_cons.
  destruct pos as [|name' pos]; simpl Posix.node_at at 1.
  - now rewrite lookup_remove_entry_same.
  - rewrite lookup_update_entry_same, Hl. simpl option_map.
    cbv iota beta. apply (IH sub c); [|discriminate|assumption].
    rewrite Forall_forall in Hc. exact (Hc _ (lookup_in _ _ _ Hl)).
Qed.

Variable root : node.
Variable pos : list string.
Variable content : list byte.
Hypothesis Hfile : Posix.node_at root pos = Some (File content).

(** A lookup that succeeded before the removal either succeeds the same
    way afterwards or fails. *)
Lemma walk_after_removal comps : forall at0 p,
    Posix.walk_components root at0 comps = inr p ->
    Posix.walk_components (TempFile.remove_at pos root) at0 comps = inr p
    \/ exists e,
        Posix.walk_components (TempFile.remove_at pos root) at0 comps
        = inl e.
Proof.
  induction comps as [|c cs IH]; intros at0 p H; simpl in *.
  - now left.
  - destruct (Posix.node_at root at0) as [[b|es]|] eqn:Ha;
      try discriminate.
    destruct (dir_survives pos root at0 content es Hfile Ha) as [es' ->].
    destruct (_ || _)%bool; [now apply IH|].
    destruct (String.eqb c ".."); [now apply IH|].
    destruct (Posix.node_at root (at0 ++ [c])); [|discriminate].
    destruct (Posix.node_at (TempFile.remove_at pos root) (at0 ++ [c]));
      [now apply IH | right; now eexists].
Qed.

(** A lookup that led to another file leads there after the removal. *)
Lemma walk_to_other_file comps : forall at0 p c,
    Posix.walk_components root at0 comps = inr p ->
    Posix.node_at root p = Some (File c) ->
    p <> pos ->
    Posix.walk_components (TempFile.remove_at pos root) at0 comps = inr p.
Proof.
  induction comps as [|c cs IH]; intros at0 p c0 H Hp Hne; simpl in *.
  - exact H.
  - destruct (Posix.node_at root at0) as [[b|es]|] eqn:Ha;
      try discriminate.
    destruct (dir_survives pos root at0 content es Hfile Ha) as [es' ->].
    destruct (_ || _)%bool; [now apply (IH _ _ c0)|].
    destruct (String.eqb c ".."); [now apply (IH _ _ c0)|].
    destruct (Posix.node_at root (at0 ++ [c])) as [x|] eqn:Hx;
      [|discriminate].
    assert (Hsome : Posix.node_at (TempFile.remove_at pos root) (at0 ++ [c])
                    <> None).
    { destruct x as [b|es1].
      - destruct (list_eq_dec string_dec (at0 ++ [c]) pos) as [E|E].
        + exfalso. rewrite E in H.
          destruct cs as [|c' cs].
          * simpl in H. injection H as <-. contradiction.
          * simpl in H. rewrite Hfile in H. discriminate.
        + now rewrite (file_survives pos root _ content b Hfile Hx E).
      - destruct (dir_survives pos root _ content es1 Hfile Hx) as [es2 ->].
        discriminate. }
    destruct (Posix.node_at (TempFile.remove_at pos root) (at0 ++ [c]));
      [now apply (IH _ _ c0) | contradiction].
Qed.

End Removal.

Section SafeTempFile.

Lemma stat_position root cwd path :
  Posix.stat root cwd path
  = match TempFile.position root cwd path with
    | inl e => inl e
    | inr pos =>
        match Posix.node_at root pos with
        | Some n => inr n
        | None => inl FileNotFoundError
        end
    end.
Proof.
  unfold Posix.stat, TempFile.position.
  now destruct (String.eqb path "").
Qed.

Lemma node_at_dir_root root at0 es :
  Posix.node_at root at0 = Some (Dir es) -> exists es0, root = Dir es0.
Proof.
  destruct root as [b|es0]; [|now exists es0].
  destruct at0; discriminate.
Qed.

(** A position that a path leads to, and where a file is, lies below the
    root. *)
Lemma file_position_below_root root cwd path pos c :
  TempFile.position root cwd path = inr pos ->
  Posix.node_at root pos = Some (File c) ->
  pos <> [].
Proof.
  unfold TempFile.position. destruct (String.eqb path ""); [discriminate|].
  intros Hw Hn ->.
  destruct (root_is_dir_of_walk _ _ _ _ (split_nonempty _ _) Hw) as [es Hd].
  destruct (node_at_dir_root _ _ _ Hd) as [es0 ->]. discriminate.
Qed.

(** Removing the regular file that a path names: afterwards the path
    names nothing. *)
Lemma os_remove_file root cwd path c :
  wf_node root = true ->
  Posix.stat root cwd path = inr (File c) ->
  exists pos,
    TempFile.position root cwd path = inr pos
    /\ Posix.node_at root pos = Some (File c)
    /\ TempFile.os_remove root cwd path = inr (TempFile.remove_at pos root)
    /\ exists e,
        Posix.stat (TempFile.remove_at pos root) cwd path = inl e.
Proof.
  intros Hwf Hs. rewrite stat_position in Hs.
  destruct (TempFile.position root cwd path) as [e|pos] eqn:Hp;
    [discriminate|].
  destruct (Posix.node_at root pos) as [n|] eqn:Hn; [|discriminate].
  injection Hs as ->. exists pos. split; [reflexivity|].
  split; [assumption|]. split.
  - unfold TempFile.os_remove. now rewrite Hp, Hn.
  - pose proof (file_position_below_root _ _ _ _ _ Hp Hn) as Hne.
    rewrite stat_position. unfold TempFile.position in *.
    destruct (String.eqb path ""); [discriminate|].
    destruct (walk_after_removal root pos c Hn _ _ _ Hp) as [->|[e ->]].
    + rewrite (removed_is_gone pos root c Hwf Hne Hn). now eexists.
    + now exists e.
Qed.

End SafeTempFile.

(** X23. In a well-formed filesystem, when [safe_temp_file] returns a
    name, nothing exists at that name afterwards: a regular file that was
    there has been removed. The name is the one chosen from the
    arguments, and the working directory is unchanged. *)
Theorem safe_temp_file_returns_free_name
        (gettempdir uuid4 : string) (file_name : option string)
        (w w' : World) (name : string) :
  wf_node (fs_root w) = true ->
  TempFile.safe_temp_file gettempdir uuid4 file_name w = (w', inr name) ->
  name = TempFile.chosen_name gettempdir uuid4 file_name
  /\ fs_cwd w' = fs_cwd w
  /\ exists e, Posix.stat (fs_root w') (fs_cwd w') name = inl e.
Proof.
  intros Hwf. unfold TempFile.safe_temp_file.
  destruct (Posix.stat (fs_root w) (fs_cwd w)
              (TempFile.chosen_name gettempdir uuid4 file_name))
    as [e|[c|es]] eqn:Hs.
  - intros [= <- <-]. repeat split. now exists e.
  - destruct (os_remove_file _ _ _ _ Hwf Hs) as (pos & _ & _ & -> & e & He).
    intros [= <- <-]. repeat split. now exists e.
  - rewrite stat_position in Hs. unfold TempFile.os_remove.
    destruct (TempFile.position _ _ _) as [e|pos]; [discriminate|].
    destruct (Posix.node_at (fs_root w) pos) as [[c|es']|];
      discriminate.
Qed.

Lemma safe_temp_file_returns_free_name_witness :
  snd (TempFile.safe_temp_file "/tmp" "0f8a" (Some "old.bin")
         TempFile.world) = inr "/tmp/old.bin"
  /\ exists e,
      Posix.stat
        (fs_root (fst (TempFile.safe_temp_file "/tmp" "0f8a"
                         (Some "old.bin") TempFile.world)))
        (fs_cwd (fst (TempFile.safe_temp_file "/tmp" "0f8a"
                        (Some "old.bin") TempFile.world)))
        "/tmp/old.bin" = inl e.
Proof.
  split; [reflexivity|].
  apply (safe_temp_file_returns_free_name
           "/tmp" "0f8a" (Some "old.bin") TempFile.world
           (fst (TempFile.safe_temp_file "/tmp" "0f8a" (Some "old.bin")
                   TempFile.world))
           "/tmp/old.bin");
    reflexivity.
Defined.

(** X24. When the chosen name is a directory, [safe_temp_file] raises
    [IsADirectoryError] and leaves the filesystem as it was. *)
Theorem safe_temp_file_directory_raises
        (gettempdir uuid4 : string) (file_name : option string)
        (w : World) (es : list (string * node)) :
  Posix.stat (fs_root w) (fs_cwd w)
             (TempFile.chosen_name gettempdir uuid4 file_name)
  = inr (Dir es) ->
  TempFile.safe_temp_file gettempdir uuid4 file_name w
  = (w, inl IsADirectoryError).
Proof.
  intros Hs. unfold TempFile.safe_temp_file. rewrite Hs.
  rewrite stat_position in Hs. unfold TempFile.os_remove.
  destruct (TempFile.position _ _ _) as [e|pos]; [discriminate|].
  destruct (Posix.node_at (fs_root w) pos) as [[c|es']|];
    [discriminate | reflexivity | discriminate].
Qed.

Lemma safe_temp_file_directory_raises_witness :
  TempFile.safe_temp_file "/tmp" "0f8a" (Some "cache") TempFile.world
  = (TempFile.world, inl IsADirectoryError).
Proof.
  apply (safe_temp_file_directory_raises
           "/tmp" "0f8a" (Some "cache") TempFile.world
           [("c1", File [])]).
  reflexivity.
Defined.

(** X25. An absolute [file_name] is used as it is, whatever the
    temporary directory: in a well-formed filesystem the regular file it
    names is removed, wherever it lies, and its own name is returned. *)
Theorem safe_temp_file_absolute_name_escapes
        (gettempdir uuid4 name : string) (w : World) (c : list byte) :
  wf_node (fs_root w) = true ->
  Posix.isabs name = true ->
  Posix.stat (fs_root w) (fs_cwd w) name = inr (File c) ->
  snd (TempFile.safe_temp_file gettempdir uuid4 (Some name) w) = inr name
  /\ exists e,
      Posix.stat
        (fs_root (fst (TempFile.safe_temp_file gettempdir uuid4
                         (Some name) w)))
        (fs_cwd w) name = inl e.
Proof.
  intros Hwf Habs Hs. unfold TempFile.safe_temp_file.
  assert (E : TempFile.chosen_name gettempdir uuid4 (Some name) = name).
  { unfold TempFile.chosen_name, TempFile.os_path_join. rewrite Habs.
    destruct name; [discriminate | reflexivity]. }
  rewrite E, Hs.
  destruct (os_remove_file _ _ _ _ Hwf Hs) as (pos & _ & _ & -> & e & He).
  split; [reflexivity|]. now exists e.
Qed.

Lemma safe_temp_file_absolute_name_escapes_witness :
  snd (TempFile.safe_temp_file "/tmp" "0f8a" (Some "/home/u/keep.txt")
         TempFile.world) = inr "/home/u/keep.txt"
  /\ exists e,
      Posix.stat
        (fs_root (fst (TempFile.safe_temp_file "/tmp" "0f8a"
                         (Some "/home/u/keep.txt") TempFile.world)))
        (fs_cwd TempFile.world) "/home/u/keep.txt" = inl e.
Proof.
  apply (safe_temp_file_absolute_name_escapes
           "/tmp" "0f8a" "/home/u/keep.txt" TempFile.world [x01]);
    reflexivity.
Defined.

(** X26. [safe_temp_file] touches no other file: a path that named a
    regular file before the call, and led elsewhere than the chosen name,
    names the same file with the same content afterwards. *)
Theorem safe_temp_file_keeps_other_files
        (gettempdir uuid4 : string) (file_name : option string)
        (w w' : World) (name q : string) (c : list byte) :
  TempFile.safe_temp_file gettempdir uuid4 file_name w = (w', inr name) ->
  Posix.stat (fs_root w) (fs_cwd w) q = inr (File c) ->
  TempFile.position (fs_root w) (fs_cwd w) q
  <> TempFile.position (fs_root w) (fs_cwd w) name ->
  Posix.stat (fs_root w') (fs_cwd w') q = inr (File c).
Proof.
  unfold TempFile.safe_temp_file. intros H Hq Hne.
  destruct (Posix.stat (fs_root w) (fs_cwd w)
              (TempFile.chosen_name gettempdir uuid4 file_name))
    as [e|n] eqn:Hs.
  - injection H as <- <-. exact Hq.
  - unfold TempFile.os_remove in H. rewrite stat_position in Hs.
    destruct (TempFile.position (fs_root w) (fs_cwd w)
                (TempFile.chosen_name gettempdir uuid4 file_name))
      as [e|pos] eqn:Hp; [discriminate|].
    destruct (Posix.node_at (fs_root w) pos) as [[b|es]|] eqn:Hn;
      try discriminate.
    injection H as <- <-. cbn [TempFile.with_root fs_root fs_cwd].
    rewrite stat_position in Hq |- *.
    destruct (TempFile.position (fs_root w) (fs_cwd w) q) as [e|p] eqn:Hpq;
      [discriminate|].
    destruct (Posix.node_at (fs_root w) p) as [x|] eqn:Hx; [|discriminate].
    injection Hq as ->.
    assert (Hpp : p <> pos) by (rewrite Hp in Hne; congruence).
    assert (W : TempFile.position (TempFile.remove_at pos (fs_root w))
                                  (fs_cwd w) q = inr p).
    { unfold TempFile.position in *.
      destruct (String.eqb q ""); [discriminate|].
      exact (walk_to_other_file _ pos b Hn _ _ _ c Hpq Hx Hpp). }
    rewrite W. now rewrite (file_survives pos _ p b c Hn Hx Hpp).
Qed.

Lemma safe_temp_file_keeps_other_files_witness :
  Posix.stat
    (fs_root (fst (TempFile.safe_temp_file "/tmp" "0f8a" (Some "old.bin")
                     TempFile.world)))
    (fs_cwd (fst (TempFile.safe_temp_file "/tmp" "0f8a" (Some "old.bin")
                    TempFile.world)))
    "/tmp/other.bin" = inr (File [x04]).
Proof.
  apply (safe_temp_file_keeps_other_files
           "/tmp" "0f8a" (Some "old.bin") TempFile.world
           (fst (TempFile.safe_temp_file "/tmp" "0f8a" (Some "old.bin")
                   TempFile.world))
           "/tmp/old.bin" "/tmp/other.bin" [x04]);
    [reflexivity | reflexivity | vm_compute; discriminate].
Defined.

Section MetadataFacts.

Variable P : Platform.
Variable w : World.

(** The accesses of [_infer_protocol], by its result. *)
Lemma infer_protocol_trace uri evs p :
  FileIO._infer_protocol w uri = (evs, inr p) ->
  (exists scheme, Urllib.urlparse_scheme uri = inr scheme)
  /\ evs = match p with
           | HTTP => []
           | FILE => if PyStr.startswith uri "file" then []
                     else [EvExists uri]
           | UNKNOWN => [EvExists uri]
           end.
Proof.
  unfold FileIO._infer_protocol, FileIO.os_path_exists, bind, lift, tell,
    ret.
  destruct (Urllib.urlparse_scheme uri) as [e|scheme]; [discriminate|].
  destruct (PyStr.startswith scheme "http").
  { intros [= <- <-]. split; [now exists scheme | reflexivity]. }
  destruct (PyStr.startswith uri "file").
  { intros [= <- <-]. split; [now exists scheme | reflexivity]. }
  destruct (Posix.stat (fs_root w) (fs_cwd w) uri);
    intros [= <- <-]; (split; [now exists scheme | reflexivity]).
Qed.

Lemma split_last_spec p :
  p = (fst (Metadata.split_last p) ++ snd (Metadata.split_last p))%string
  /\ PyStr.contains "/" (snd (Metadata.split_last p)) = false
  /\ (fst (Metadata.split_last p) = ""
      \/ exists h, fst (Metadata.split_last p) = (h ++ "/")%string).
Proof.
  induction p as [|c p (IH1 & IH2 & IH3)]; [now repeat split; left|].
  cbn [Metadata.split_last].
  destruct (Metadata.split_last p) as [head tail].
  cbn [fst snd] in *.
  destruct (PyStr.contains "/" p) eqn:Hc.
  - cbn [fst snd]. split; [|split; [assumption|]].
    + cbn. now rewrite <- IH1.
    + right. destruct IH3 as [->|[h ->]].
      * cbn in IH1. subst tail. congruence.
      * now exists (String c h).
  - destruct (Ascii.eqb c "/") eqn:Hs; cbn [fst snd].
    + apply Ascii.eqb_eq in Hs. subst c.
      split; [reflexivity|]. split; [assumption|]. right. now exists "".
    + split; [reflexivity|]. split; [|now left]. cbn [PyStr.contains].
      rewrite Hc, Ascii.eqb_sym, Hs. reflexivity.
Qed.

(** The second part of [os.path.split(p)] is what follows the last
    slash of [p]. *)
Lemma os_path_split_tail p :
  snd (Metadata.os_path_split p) = snd (Metadata.split_last p).
Proof.
  unfold Metadata.os_path_split.
  destruct (Metadata.split_last p) as [head tail].
  now destruct (_ && _)%bool.
Qed.

End MetadataFacts.

(** X27. For a location that [_infer_protocol] resolves to
    [Protocols.UNKNOWN], [get_metadata] runs neither branch and fails
    with [UnboundLocalError] where it builds the dictionary; all it has
    done is to check twice whether the location exists. *)
Theorem get_metadata_unknown_location_raises
        (P : Platform) (w : World) (uri : string) :
  snd (FileIO._infer_protocol w uri) = inr UNKNOWN ->
  Metadata.get_metadata P w uri
  = ([Metadata.Traced (EvExists uri); Metadata.Traced (EvExists uri)],
     inl Metadata.UnboundLocalError).
Proof.
  destruct (FileIO._infer_protocol w uri) as [evs r] eqn:E.
  cbn [snd]. intros ->.
  destruct (infer_protocol_trace w _ _ _ E) as [_ ->].
  unfold Metadata.get_metadata. rewrite E. reflexivity.
Qed.

Lemma get_metadata_unknown_location_raises_witness :
  Metadata.get_metadata Metadata.platform Sample.world "missing.csv"
  = ([Metadata.Traced (EvExists "missing.csv");
      Metadata.Traced (EvExists "missing.csv")],
     inl Metadata.UnboundLocalError).
Proof.
  apply (get_metadata_unknown_location_raises
           Metadata.platform Sample.world "missing.csv").
  reflexivity.
Defined.

(** X28. For a regular file that [_infer_protocol] resolves to
    [Protocols.FILE] and whose access time converts, [get_metadata]
    returns: as size the whole kibibytes of the content, rounded down,
    followed by [K]; as access time the converted [st_atime]; as file
    name what follows the last slash of the location (the location
    itself when it holds no slash); as path what [os.path.split] gives
    first. *)
Theorem get_metadata_regular_file
        (P : Platform) (w : World) (uri : string) (pos : list string)
        (b : list byte) (t : string) (k : nat) :
  snd (FileIO._infer_protocol w uri) = inr FILE ->
  TempFile.position (fs_root w) (fs_cwd w) uri = inr pos ->
  Posix.node_at (fs_root w) pos = Some (File b) ->
  Metadata.timestamp_to_iso8601 P (st_atime P pos) = inr t ->
  1024 * k <= List.length b < 1024 * (k + 1) ->
  exists md,
    snd (Metadata.get_metadata P w uri) = inr md
    /\ Metadata.original_file_size md
       = (Metadata.str_of_int (Z.of_nat k) ++ "K")%string
    /\ Metadata.original_access_time md = t
    /\ Metadata.original_path md = fst (Metadata.os_path_split uri)
    /\ PyStr.contains "/" (Metadata.original_file_name md) = false
    /\ exists head,
        uri = (head ++ Metadata.original_file_name md)%string
        /\ (head = "" \/ exists h, head = (h ++ "/")%string).
Proof.
  intros Hp Hpos Hn Ht Hk.
  destruct (FileIO._infer_protocol w uri) as [evs r] eqn:E.
  cbn [snd] in Hp. subst r.
  unfold Metadata.get_metadata. rewrite E.
  unfold Metadata.file_branch, Metadata.os_stat. rewrite Hpos, Hn.
  pose proof (os_path_split_tail uri) as Htail.
  destruct (split_last_spec uri) as (Happ & Hno & Hhead).
  destruct (Metadata.os_path_split uri) as [path name].
  cbn [snd] in Htail.
  assert (Hdiv : (Z.of_nat (List.length b) / 2 ^ 10 = Z.of_nat k)%Z).
  { change (2 ^ 10)%Z with 1024%Z. symmetry.
    apply Z.div_unique with (r := (Z.of_nat (List.length b)
                                   - 1024 * Z.of_nat k)%Z); lia. }
  cbn [Metadata.traced Metadata.bindT Metadata.retT Metadata.liftT
       fst snd].
  rewrite Ht, Hdiv. cbn [Metadata.bindT Metadata.retT fst snd].
  eexists. split; [reflexivity|].
  cbn [Metadata.original_file_size Metadata.original_access_time
       Metadata.original_file_name Metadata.original_path].
  repeat split.
  - now rewrite Htail.
  - exists (fst (Metadata.split_last uri)). rewrite Htail.
    split; assumption.
Qed.

Lemma get_metadata_regular_file_witness :
  exists md,
    snd (Metadata.get_metadata Metadata.platform Sample.world
           "/home/u/rows.csv")
    = inr md
    /\ Metadata.original_file_size md = "0K"
    /\ Metadata.original_access_time md = "2026-11-03T10:00:03"
    /\ Metadata.original_path md = "/home/u"
    /\ PyStr.contains "/" (Metadata.original_file_name md) = false
    /\ exists head,
        "/home/u/rows.csv"
        = (head ++ Metadata.original_file_name md)%string
        /\ (head = "" \/ exists h, head = (h ++ "/")%string).
Proof.
  apply (get_metadata_regular_file
           Metadata.platform Sample.world "/home/u/rows.csv"
           ["home"; "u"; "rows.csv"]
           (Sample.text ("name,age" ++ Sample.LF ++ "alice,30" ++ Sample.LF))
           "2026-11-03T10:00:03" 0);
    [reflexivity | reflexivity | reflexivity | reflexivity
    | vm_compute; lia].
Defined.

(** X29. For a location that [_infer_protocol] resolves to
    [Protocols.HTTP] and whose request for the headers is answered,
    [get_metadata] makes one request when the response has a
    [Content-Length] header, whatever its value, and a second request
    for the same location when it has none; it makes no other access. *)
Theorem get_metadata_http_requests
        (P : Platform) (w : World) (uri : string)
        (h : string -> option (list string)) :
  snd (FileIO._infer_protocol w uri) = inr HTTP ->
  urlopen_info P uri = inr h ->
  fst (Metadata.get_metadata P w uri)
  = match h "Content-Length" with
    | Some _ => [Metadata.Traced (EvUrlopen uri)]
    | None => [Metadata.Traced (EvUrlopen uri);
               Metadata.Traced (EvUrlopen uri)]
    end.
Proof.
  intros Hp Hinfo.
  destruct (FileIO._infer_protocol w uri) as [evs r] eqn:E.
  cbn [snd] in Hp. subst r.
  destruct (infer_protocol_trace w _ _ _ E) as [[scheme Hs] ->].
  unfold Metadata.get_metadata. rewrite E.
  unfold Metadata.http_branch. rewrite Hs, Hinfo.
  cbn [Metadata.bindT Metadata.liftT Metadata.traced Metadata.retT tell
       fst snd List.map app].
  destruct (Metadata.os_path_split _) as [path name].
  destruct (h "Content-Length") as [[|s rest]|];
    destruct (h "Date") as [[|d ds]|];
    cbn; try reflexivity;
    try (destruct (int_of_str P s); reflexivity);
    destruct (urlopen_read w uri); reflexivity.
Qed.

Lemma get_metadata_http_requests_witness :
  fst (Metadata.get_metadata Metadata.platform Sample.world
         Sample.remote_gz)
  = [Metadata.Traced (EvUrlopen Sample.remote_gz);
     Metadata.Traced (EvUrlopen Sample.remote_gz)].
Proof.
  apply (get_metadata_http_requests
           Metadata.platform Sample.world Sample.remote_gz
           (Metadata.headers [("Date", "Tue, 03 Nov 2026 10:00:01 GMT")]));
    reflexivity.
Defined.

(** X30. For a location that [_infer_protocol] resolves to
    [Protocols.HTTP], a response without a [Date] header makes
    [get_metadata] fail: it never returns the dictionary, and when
    the [Content-Length] header holds a number the failure is the
    [TypeError] of reading the missing header. *)
Theorem get_metadata_http_needs_date
        (P : Platform) (w : World) (uri : string)
        (h : string -> option (list string)) :
  snd (FileIO._infer_protocol w uri) = inr HTTP ->
  urlopen_info P uri = inr h ->
  h "Date" = None ->
  (exists e, snd (Metadata.get_metadata P w uri) = inl e)
  /\ forall s rest n,
      h "Content-Length" = Some (s :: rest) ->
      int_of_str P s = Some n ->
      snd (Metadata.get_metadata P w uri) = inl Metadata.TypeError.
Proof.
  intros Hp Hinfo Hdate.
  destruct (FileIO._infer_protocol w uri) as [evs r] eqn:E.
  cbn [snd] in Hp. subst r.
  destruct (infer_protocol_trace w _ _ _ E) as [[scheme Hs] ->].
  unfold Metadata.get_metadata. rewrite E.
  unfold Metadata.http_branch. rewrite Hs, Hinfo.
  cbn [Metadata.bindT Metadata.liftT Metadata.traced Metadata.retT tell
       fst snd List.map app].
  destruct (Metadata.os_path_split _) as [path name].
  split.
  - destruct (h "Content-Length") as [[|s rest]|]; cbn.
    + now eexists.
    + destruct (int_of_str P s); cbn; rewrite ?Hdate; now eexists.
    + destruct (urlopen_read w uri); cbn; rewrite ?Hdate; now eexists.
  - intros s rest n -> Hn. cbn. rewrite Hn. cbn. rewrite Hdate.
    reflexivity.
Qed.

Lemma get_metadata_http_needs_date_witness :
  (exists e,
      snd (Metadata.get_metadata Metadata.platform Sample.world
             Metadata.no_date) = inl e)
  /\ forall s rest n,
      Metadata.headers [("Content-Length", "2048")] "Content-Length"
      = Some (s :: rest) ->
      Metadata.sample_int s = Some n ->
      snd (Metadata.get_metadata Metadata.platform Sample.world
             Metadata.no_date) = inl Metadata.TypeError.
Proof.
  apply (get_metadata_http_needs_date
           Metadata.platform Sample.world Metadata.no_date
           (Metadata.headers [("Content-Length", "2048")]));
    reflexivity.
Defined.

(** ** Where a scan fails *)

Section FailurePoints.

Context {A : Type}.
Implicit Types (g h : gen A).



End FailurePoints.



Section ScanFailures.

Variable L : Library.
Variable w : World.











End ScanFailures.




(** ** Line ends in an archive *)

(** C6. On an archive whose member has two lines that end with a
    carriage return and a line feed, [scan_csv_zip] yields two items that
    end with a carriage return, where [scan_csv_gzip] yields the two
    lines without their ends from a stream of the same text. On a member
    with three lines that end with a carriage return, it yields one item,
    where [scan_csv_gzip] yields three. *)
Theorem scan_csv_zip_keeps_carriage_return :
  Gen.items (FileIO.scan_csv_zip Newlines.lib Newlines.world "dos.zip")
  = [Text (String "a" (String Newlines.CR ""));
     Text (String "b" (String Newlines.CR ""))]
  /\ Gen.items (FileIO.scan_csv_gzip Newlines.lib Newlines.world "dos.gz")
     = [Text "a"; Text "b"]
  /\ Gen.items (FileIO.scan_csv_zip Newlines.lib Newlines.world "mac.zip")
     = [Text Newlines.mac_text]
  /\ Gen.items (FileIO.scan_csv_gzip Newlines.lib Newlines.world "mac.gz")
     = [Text "a"; Text "b"; Text "c"]
  /\ Gen.items (FileIO.scan Newlines.lib Newlines.world "dos.zip")
     = Gen.items (FileIO.scan_csv_zip Newlines.lib Newlines.world "dos.zip")
  /\ Gen.outcome (FileIO.scan Newlines.lib Newlines.world "dos.zip") = None.
Proof.
  split; [reflexivity|]. split; [reflexivity|].
  split; [reflexivity|]. split; [reflexivity|].
  split; reflexivity.
Qed.

(** ** A failing input of the precise relay *)

(** C8 fails as stated: the scan of [cut.gz] yields two lines and then
    fails; in precise mode the relay yields neither of them. *)
Lemma progress_precise_drops_items :
  Gen.items (FileIO.iter
               (FileIO.Lazy (FileIO.scan Sample.lib Sample.world "cut.gz")))
  = [Text "r1"; Text "r2"]
  /\ Gen.items (FileIO.progress Sample.lib Sample.world
                  (FileIO.Lazy (FileIO.scan Sample.lib Sample.world "cut.gz"))
                  true)
     = []
  /\ Gen.items (FileIO.progress Sample.lib Sample.world
                  (FileIO.Lazy (FileIO.scan Sample.lib Sample.world "cut.gz"))
                  true)
     <> Gen.items (FileIO.iter
                     (FileIO.Lazy
                        (FileIO.scan Sample.lib Sample.world "cut.gz"))).
Proof. repeat split; try reflexivity. vm_compute. discriminate. Qed.
